(** * research-assistant: the task intent engine

    A shallow embedding of the natural-language task engine of the
    research assistant bot:

    - [app/utils.py]                  ([to_utc_iso], [from_iso_to_local],
                                       [format_dt_local], [end_of_week],
                                       [end_of_month]),
    - [app/task_parser.py]            ([parse_task_text], [looks_like_task],
                                       [parse_duration]),
    - [app/config.py], [app/db.py]    ([_split_keywords], the settings,
                                       [ensure_defaults]),
    - [app/services/task_service.py]  (the [tasks] and [pending_tasks] tables),
    - [app/services/telegram_bot.py]  ([_normalize_task_title], [_tokenize],
                                       [_extract_action_query],
                                       [_find_task_candidates], [handle_message],
                                       the id commands, [handle_callback],
                                       [reminder_job]),
    - [app/services/paper_service.py], [app/services/paper_scanner.py] and
      [app/services/stats_service.py] (the library, [scan_papers],
                                       [get_read_streak]).

    Python [str] values are sequences of Unicode code points, [datetime]
    values are records of calendar fields, exceptions are an explicit
    [result] type, and the SQLite tables are lists of rows threaded through
    the handlers. *)

From Stdlib Require Import ZArith NArith List Bool String Ascii Lia.
Import ListNotations.

Set Implicit Arguments.

(* ===================================================================== *)
(** * Exceptions *)
(* ===================================================================== *)

(** The two exceptions the modelled code can raise. *)
Inductive exn : Type :=
| ValueError
| OverflowError.

Inductive result (A : Type) : Type :=
| Ok (a : A)
| Raise (e : exn).

Arguments Ok {A} a.
Arguments Raise {A} e.

Definition bind {A B : Type} (r : result A) (f : A -> result B) : result B :=
  match r with
  | Ok a => f a
  | Raise e => Raise e
  end.

Declare Scope result_scope.
Delimit Scope result_scope with result.
Notation "x <- e ;; k" := (bind e (fun x => k))
  (at level 61, e at next level, right associativity) : result_scope.

(* ===================================================================== *)
(** * Python strings *)
(* ===================================================================== *)

Module Str.

(** A code point, and a [str]: a sequence of code points. *)
Definition cp : Type := N.
Definition str : Type := list cp.

(** Literals are written as UTF-8 byte strings and decoded. *)
Fixpoint utf8_decode (bs : list N) : str :=
  match bs with
  | [] => []
  | b :: rest =>
    if (b <? 128)%N then b :: utf8_decode rest
    else if (b <? 224)%N then
      match rest with
      | b2 :: rest2 => ((b - 192) * 64 + (b2 - 128))%N :: utf8_decode rest2
      | _ => [b]
      end
    else if (b <? 240)%N then
      match rest with
      | b2 :: b3 :: rest3 =>
        ((b - 224) * 4096 + (b2 - 128) * 64 + (b3 - 128))%N :: utf8_decode rest3
      | _ => [b]
      end
    else
      match rest with
      | b2 :: b3 :: b4 :: rest4 =>
        ((b - 240) * 262144 + (b2 - 128) * 4096 + (b3 - 128) * 64 + (b4 - 128))%N
          :: utf8_decode rest4
      | _ => [b]
      end
  end.

Definition py (s : string) : str :=
  utf8_decode (map N_of_ascii (list_ascii_of_string s)).

Fixpoint eqb (a b : str) : bool :=
  match a, b with
  | [], [] => true
  | x :: a', y :: b' => (x =? y)%N && eqb a' b'
  | _, _ => false
  end.

(** [s.startswith(p)] *)
Fixpoint startswith (s p : str) : bool :=
  match p, s with
  | [], _ => true
  | y :: p', x :: s' => (x =? y)%N && startswith s' p'
  | _ :: _, [] => false
  end.

(** [s.endswith(p)] *)
Definition endswith (s p : str) : bool := startswith (rev s) (rev p).

(** [p in s] *)
Fixpoint contains (s p : str) : bool :=
  startswith s p ||
  match s with
  | [] => false
  | _ :: s' => contains s' p
  end.

(** [s.replace(old, new)]: every non-overlapping occurrence, left to right.
    [skip] counts the characters of the occurrence being replaced that are
    still to be dropped. *)
Fixpoint replace_go (old new s : str) (skip : nat) : str :=
  match s with
  | [] => []
  | c :: rest =>
    match skip with
    | S n => replace_go old new rest n
    | O =>
      if startswith s old
      then new ++ replace_go old new rest (List.length old - 1)
      else c :: replace_go old new rest 0
    end
  end.

Definition replace (s old new : str) : str :=
  match old with
  | [] => new ++ flat_map (fun c => c :: new) s
  | _ => replace_go old new s 0
  end.

Fixpoint lstrip (sp : cp -> bool) (s : str) : str :=
  match s with
  | [] => []
  | c :: rest => if sp c then lstrip sp rest else s
  end.

Definition rstrip (sp : cp -> bool) (s : str) : str :=
  rev (lstrip sp (rev s)).

(** [s.strip()] for the whitespace test [sp] *)
Definition strip (sp : cp -> bool) (s : str) : str :=
  rstrip sp (lstrip sp s).

(** Lexicographic order on code points ([<] on [str], and SQLite's BINARY
    collation on the UTF-8 encodings). *)
Fixpoint ltb (a b : str) : bool :=
  match a, b with
  | _, [] => false
  | [], _ :: _ => true
  | x :: a', y :: b' => (x <? y)%N || ((x =? y)%N && ltb a' b')
  end.

(** [c in chars] for a single character *)
Definition mem (c : cp) (chars : str) : bool := existsb (N.eqb c) chars.

(** [any(w in s for w in words)] *)
Definition contains_any (s : str) (words : list str) : bool :=
  existsb (contains s) words.

(** [s.split(sep, maxsplit)] for a separator of one character: at most
    [maxsplit] cuts, from the left. *)
Fixpoint split_max (sep : cp) (s : str) (maxsplit : nat) {struct s} : list str :=
  match s with
  | [] => [[]]
  | c :: rest =>
    match maxsplit with
    | O => [s]
    | S n =>
      if (c =? sep)%N then [] :: split_max sep rest n
      else
        match split_max sep rest maxsplit with
        | piece :: pieces => (c :: piece) :: pieces
        | [] => [[c]]
        end
    end
  end.

(** [s.split(sep)] for a separator of one character *)
Definition split_on (sep : cp) (s : str) : list str :=
  split_max sep s (List.length s).

(** [sep.join(parts)] *)
Fixpoint join (sep : str) (parts : list str) : str :=
  match parts with
  | [] => []
  | [x] => x
  | x :: rest => x ++ sep ++ join sep rest
  end.

(** [s[:k]]: a negative [k] counts from the end. *)
Definition slice_to (s : str) (k : Z) : str :=
  if (k <? 0)%Z then firstn (List.length s - Z.to_nat (- k)%Z) s
  else firstn (Z.to_nat k) s.

(** [str(n)] for an [int] of at most 4300 digits (the ids and counts of the
    program; CPython refuses to convert a longer one): the decimal digits,
    most significant first, after a minus sign when [n] is negative. [fuel]
    bounds the number of digits. *)
Fixpoint digits_go (fuel : nat) (n : Z) (acc : str) : str :=
  match fuel with
  | O => acc
  | S f =>
    let acc := Z.to_N (48 + n mod 10) :: acc in
    if (n <? 10)%Z then acc else digits_go f (n / 10)%Z acc
  end.

Definition of_int (n : Z) : str :=
  if (n <? 0)%Z then 45%N :: digits_go (S (Z.to_nat (Z.log2 (- n)))) (- n)%Z []
  else digits_go (S (Z.to_nat (Z.log2 n))) n [].

End Str.

Import Str.

(* ===================================================================== *)
(** * The Unicode character database *)
(* ===================================================================== *)

(** The tables of Python's Unicode database the code relies on, through
    [str.lower], [str.capitalize], [str.strip] and the classes [\s], [\w],
    [\d] and [re.IGNORECASE] of [re]. They are parameters of the model. *)
Record unicode : Type := {
  isspace : cp -> bool;          (* [\s], [str.isspace] *)
  isalnum : cp -> bool;          (* [str.isalnum]; [\w] adds the underscore *)
  decimal : cp -> option Z;      (* [\d]: the digit's value *)
  lower : str -> str;            (* [str.lower] *)
  capitalize : str -> str;       (* [str.capitalize] *)
  ignorecase_eq : cp -> cp -> bool  (* equality of characters under [re.I] *)
}.

(** The tables restricted to Basic Latin and the Turkish alphabet, for
    concrete runs; whitespace is Python's complete list. *)
Module Latin.

Definition is_space (c : cp) : bool :=
  ((9 <=? c) && (c <=? 13) || (28 <=? c) && (c <=? 32) || (c =? 133) || (c =? 160)
   || (c =? 5760) || (8192 <=? c) && (c <=? 8202) || (c =? 8232) || (c =? 8233)
   || (c =? 8239) || (c =? 8287) || (c =? 12288))%N.

Definition turkish_lower : list cp := [231; 287; 305; 246; 351; 252]%N.
Definition turkish_upper : list cp := [199; 286; 304; 214; 350; 220]%N.

Definition is_digit (c : cp) : bool := ((48 <=? c) && (c <=? 57))%N.

Definition is_alnum (c : cp) : bool :=
  (is_digit c || (65 <=? c) && (c <=? 90) || (97 <=? c) && (c <=? 122))%N
  || mem c turkish_lower || mem c turkish_upper.

Definition digit_value (c : cp) : option Z :=
  if is_digit c then Some (Z.of_N c - 48)%Z else None.

Definition lower_cp (c : cp) : str :=
  (if (65 <=? c) && (c <=? 90) then [c + 32]
   else if c =? 199 then [231]
   else if c =? 286 then [287]
   else if c =? 304 then [105; 775]
   else if c =? 214 then [246]
   else if c =? 350 then [351]
   else if c =? 220 then [252]
   else [c])%N.

Definition upper_cp (c : cp) : str :=
  (if (97 <=? c) && (c <=? 122) then [c - 32]
   else if c =? 231 then [199]
   else if c =? 287 then [286]
   else if c =? 305 then [73]
   else if c =? 246 then [214]
   else if c =? 351 then [350]
   else if c =? 252 then [220]
   else [c])%N.

Definition to_lower (s : str) : str := flat_map lower_cp s.

Definition to_capitalized (s : str) : str :=
  match s with
  | [] => []
  | c :: rest => upper_cp c ++ to_lower rest
  end.

(** [i], [I], dotless [ı] and dotted [İ] are one class under [re.I]. *)
Definition i_class (c : cp) : bool := mem c [105; 73; 305; 304]%N.

Definition ci_eq (a b : cp) : bool :=
  (a =? b)%N || Str.eqb (lower_cp a) (lower_cp b) || (i_class a && i_class b).

Definition tables : unicode := {|
  isspace := is_space;
  isalnum := is_alnum;
  decimal := digit_value;
  lower := to_lower;
  capitalize := to_capitalized;
  ignorecase_eq := ci_eq
|}.

End Latin.

(* ===================================================================== *)
(** * Python's [datetime] *)
(* ===================================================================== *)

Module Datetime.

Local Open Scope Z_scope.
Local Open Scope result_scope.

Definition MINYEAR : Z := 1.
Definition MAXYEAR : Z := 9999.
Definition MAXORDINAL : Z := 3652059.

Definition DAYS_IN_MONTH : list Z :=
  [-1; 31; 28; 31; 30; 31; 30; 31; 31; 30; 31; 30; 31].
Definition DAYS_BEFORE_MONTH : list Z :=
  [-1; 0; 31; 59; 90; 120; 151; 181; 212; 243; 273; 304; 334].

Definition tbl (t : list Z) (i : Z) : Z := nth (Z.to_nat i) t 0.

Definition is_leap (year : Z) : bool :=
  (year mod 4 =? 0) && (negb (year mod 100 =? 0) || (year mod 400 =? 0)).

Definition days_before_year (year : Z) : Z :=
  let y := year - 1 in
  y * 365 + y / 4 - y / 100 + y / 400.

Definition days_in_month (year month : Z) : Z :=
  if (month =? 2) && is_leap year then 29 else tbl DAYS_IN_MONTH month.

Definition days_before_month (year month : Z) : Z :=
  tbl DAYS_BEFORE_MONTH month + (if (2 <? month) && is_leap year then 1 else 0).

Definition ymd2ord (year month day : Z) : Z :=
  days_before_year year + days_before_month year month + day.

Definition DI400Y : Z := 146097.
Definition DI100Y : Z := 36524.
Definition DI4Y : Z := 1461.

(** The month and day of the [n]-th day (from 0) of a year. *)
Definition month_day (leapyear : bool) (n : Z) : Z * Z :=
  let month := Z.shiftr (n + 50) 5 in
  let preceding :=
    tbl DAYS_BEFORE_MONTH month + (if (2 <? month) && leapyear then 1 else 0) in
  if n <? preceding then
    let month' := month - 1 in
    let preceding' :=
      preceding
      - (tbl DAYS_IN_MONTH month' + (if (month' =? 2) && leapyear then 1 else 0)) in
    (month', n - preceding' + 1)
  else (month, n - preceding + 1).

Definition ord2ymd (n : Z) : Z * Z * Z :=
  let n := n - 1 in
  let n400 := n / DI400Y in
  let n := n mod DI400Y in
  let year := n400 * 400 + 1 in
  let n100 := n / DI100Y in
  let n := n mod DI100Y in
  let n4 := n / DI4Y in
  let n := n mod DI4Y in
  let n1 := n / 365 in
  let n := n mod 365 in
  let year := year + n100 * 100 + n4 * 4 + n1 in
  if (n1 =? 4) || (n100 =? 4) then (year - 1, 12, 31)
  else
    let leapyear := (n1 =? 3) && (negb (n4 =? 24) || (n100 =? 3)) in
    let '(month, day) := month_day leapyear n in
    (year, month, day).

(** A [datetime]; [tzinfo] is the key of its zone. *)
Record datetime : Type := {
  year : Z;
  month : Z;
  day : Z;
  hour : Z;
  minute : Z;
  second : Z;
  microsecond : Z;
  tzinfo : option string
}.

Definition check_date_fields (y m d : Z) : bool :=
  (MINYEAR <=? y) && (y <=? MAXYEAR) && (1 <=? m) && (m <=? 12)
  && (1 <=? d) && (d <=? days_in_month y m).

Definition check_time_fields (h mi s us : Z) : bool :=
  (0 <=? h) && (h <=? 23) && (0 <=? mi) && (mi <=? 59)
  && (0 <=? s) && (s <=? 59) && (0 <=? us) && (us <=? 999999).

(** The constructor: [ValueError] on a field out of range. *)
Definition datetime_new (y m d h mi s us : Z) (tz : option string)
  : result datetime :=
  if check_date_fields y m d && check_time_fields h mi s us
  then Ok {| year := y; month := m; day := d; hour := h; minute := mi;
             second := s; microsecond := us; tzinfo := tz |}
  else Raise ValueError.

Definition valid (dt : datetime) : Prop :=
  check_date_fields (year dt) (month dt) (day dt)
  && check_time_fields (hour dt) (minute dt) (second dt) (microsecond dt) = true.

Definition or_field (new : option Z) (old : Z) : Z :=
  match new with
  | Some v => v
  | None => old
  end.

(** [dt.replace(year=..., month=..., ...)]: [None] keeps a field. *)
Definition replace (dt : datetime) (y m d h mi s us : option Z) : result datetime :=
  datetime_new (or_field y (year dt)) (or_field m (month dt)) (or_field d (day dt))
               (or_field h (hour dt)) (or_field mi (minute dt))
               (or_field s (second dt)) (or_field us (microsecond dt)) (tzinfo dt).

Definition toordinal (dt : datetime) : Z := ymd2ord (year dt) (month dt) (day dt).

(** Monday is 0, Sunday is 6. *)
Definition weekday (dt : datetime) : Z := (toordinal dt + 6) mod 7.

(** A normalised [timedelta]. *)
Record timedelta : Type := {
  days : Z;
  seconds : Z;
  microseconds : Z
}.

Definition timedelta_new (d s us mi h : Z) : result timedelta :=
  let total_s := d * 86400 + h * 3600 + mi * 60 + s + us / 1000000 in
  let us' := us mod 1000000 in
  let d' := total_s / 86400 in
  let s' := total_s mod 86400 in
  if Z.abs d' <=? 999999999
  then Ok {| days := d'; seconds := s'; microseconds := us' |}
  else Raise OverflowError.

(** [-td] *)
Definition timedelta_neg (td : timedelta) : result timedelta :=
  timedelta_new (- days td) (- seconds td) (- microseconds td) 0 0.

(** [a + b] *)
Definition timedelta_add (a b : timedelta) : result timedelta :=
  timedelta_new (days a + days b) (seconds a + seconds b)
                (microseconds a + microseconds b) 0 0.

(** [dt + td]: the date's ordinal and the time of day as a [timedelta],
    plus [td], read back as a date and a time; the zone is kept.
    [OverflowError] when the date leaves years 1..9999. *)
Definition add (dt : datetime) (td : timedelta) : result datetime :=
  delta <- timedelta_new (toordinal dt) (second dt) (microsecond dt)
                         (minute dt) (hour dt) ;;
  delta <- timedelta_add delta td ;;
  let h := seconds delta / 3600 in
  let rem := seconds delta mod 3600 in
  let mi := rem / 60 in
  let s := rem mod 60 in
  if (0 <? days delta) && (days delta <=? MAXORDINAL) then
    let '(y, m, d) := ord2ymd (days delta) in
    Ok {| year := y; month := m; day := d; hour := h; minute := mi;
          second := s; microsecond := microseconds delta; tzinfo := tzinfo dt |}
  else Raise OverflowError.

(** [dt - td] is [dt + -td]. *)
Definition sub (dt : datetime) (td : timedelta) : result datetime :=
  ntd <- timedelta_neg td ;;
  add dt ntd.

End Datetime.

(* ===================================================================== *)
(** * [app/utils.py] *)
(* ===================================================================== *)

Module Utils.

Import Datetime.
Local Open Scope Z_scope.
Local Open Scope result_scope.

(** [end_of_week]: Sunday 23:59 *)
Definition end_of_week (base : datetime) : result datetime :=
  let days_ahead := 6 - weekday base in
  td <- timedelta_new days_ahead 0 0 0 0 ;;
  moved <- add base td ;;
  replace moved None None None (Some 23) (Some 59) (Some 0) (Some 0).

(** [end_of_month]: move to next month first day then back one minute *)
Definition end_of_month (base : datetime) : result datetime :=
  next_month <-
    (if month base =? 12
     then replace base (Some (year base + 1)) (Some 1) (Some 1) None None None None
     else replace base None (Some (month base + 1)) (Some 1) None None None None) ;;
  minute1 <- timedelta_new 0 0 0 1 0 ;;
  end_ <- sub next_month minute1 ;;
  replace end_ None None None None None (Some 0) (Some 0).

End Utils.


(* ===================================================================== *)
(** * Python's [re]: a backtracking matcher *)
(* ===================================================================== *)

Module Re.

(** The patterns the program uses: literals, character classes, sequence,
    ordered alternation, greedy [?], [*] and [+], the word boundary [\b]
    and capturing groups. *)
Inductive regex : Type :=
| Lit (c : cp)
| Cls (p : cp -> bool)
| Cat (r1 r2 : regex)
| Alt (r1 r2 : regex)
| Opt (r : regex)
| Star (r : regex)
| Plus (r : regex)
| Bound
| Group (n : nat) (r : regex).

(** A literal word, and an alternation of patterns ([a|b|c]). *)
Fixpoint lits (s : str) : regex :=
  match s with
  | [] => Opt (Cls (fun _ => false))
  | [c] => Lit c
  | c :: rest => Cat (Lit c) (lits rest)
  end.

Fixpoint alts (rs : list regex) : regex :=
  match rs with
  | [] => Cls (fun _ => false)
  | [r] => r
  | r :: rest => Alt r (alts rest)
  end.

Definition words (ws : list string) : regex := alts (map (fun w => lits (py w)) ws).

(** The matcher's position in the subject: the characters [before] it
    (nearest first), the characters [after] it, and the groups captured. *)
Record mstate : Type := {
  before : str;
  after : str;
  groups : list (nat * str)
}.

Definition start_state (bef aft : str) : mstate :=
  {| before := bef; after := aft; groups := [] |}.

(** The text matched between two positions of one run. *)
Definition consumed (st st' : mstate) : str :=
  rev (firstn (List.length (before st') - List.length (before st)) (before st')).

Definition set_group (n : nat) (st st' : mstate) : mstate :=
  {| before := before st'; after := after st';
     groups := (n, consumed st st') :: groups st' |}.

Fixpoint lookup (n : nat) (gs : list (nat * str)) : option str :=
  match gs with
  | [] => None
  | (k, v) :: rest => if Nat.eqb k n then Some v else lookup n rest
  end.

(** [match.group(n)] *)
Definition group (n : nat) (st : mstate) : option str := lookup n (groups st).

Section Matcher.

(** Equality of a pattern character and a subject character ([re.I] or
    not), and the word characters of [\b]. *)
Variable ceq : cp -> cp -> bool.
Variable isword : cp -> bool.

Definition head_is_word (s : str) : bool :=
  match s with
  | [] => false
  | c :: _ => isword c
  end.

Definition at_boundary (st : mstate) : bool :=
  xorb (head_is_word (before st)) (head_is_word (after st)).

Definition eat (p : cp -> bool) (st : mstate) (k : mstate -> option mstate)
  : option mstate :=
  match after st with
  | [] => None
  | c :: rest =>
    if p c
    then k {| before := c :: before st; after := rest; groups := groups st |}
    else None
  end.

Definition shorter (st1 st : mstate) : bool :=
  (List.length (after st1) <? List.length (after st))%nat.

(** Greedy repetition of [body]: one more round if it consumes something,
    otherwise (or if the rest then fails) stop here. *)
Fixpoint star (body : mstate -> (mstate -> option mstate) -> option mstate)
         (k : mstate -> option mstate) (fuel : nat) (st : mstate) : option mstate :=
  match fuel with
  | O => k st
  | S f =>
    match body st (fun st1 => if shorter st1 st then star body k f st1 else None) with
    | Some x => Some x
    | None => k st
    end
  end.

(** [m r st k]: match [r] at [st], then continue with [k]; alternatives are
    tried in order and the first complete success is returned. *)
Fixpoint m (r : regex) (st : mstate) (k : mstate -> option mstate) : option mstate :=
  match r with
  | Lit c => eat (ceq c) st k
  | Cls p => eat p st k
  | Cat r1 r2 => m r1 st (fun st1 => m r2 st1 k)
  | Alt r1 r2 =>
    match m r1 st k with
    | Some x => Some x
    | None => m r2 st k
    end
  | Opt r1 =>
    match m r1 st k with
    | Some x => Some x
    | None => k st
    end
  | Star r1 => star (m r1) k (S (List.length (after st))) st
  | Plus r1 =>
    m r1 st (fun st1 => star (m r1) k (S (List.length (after st1))) st1)
  | Bound => if at_boundary st then k st else None
  | Group n r1 => m r1 st (fun st1 => k (set_group n st st1))
  end.

(** A match starting exactly between [bef] and [aft]. *)
Definition match_at (r : regex) (bef aft : str) : option mstate :=
  m r (start_state bef aft) Some.

(** [re.search]: the leftmost position with a match; the result is the text
    before the match (nearest first) and the matcher's final state. *)
Fixpoint search_go (r : regex) (bef aft : str) : option (str * mstate) :=
  match match_at r bef aft with
  | Some st => Some (bef, st)
  | None =>
    match aft with
    | [] => None
    | c :: rest => search_go r (c :: bef) rest
    end
  end.

Definition search (r : regex) (s : str) : option (str * mstate) :=
  search_go r [] s.

(** [re.sub(r, repl, s)] for a constant replacement. The patterns of this
    program never match the empty string; for an empty match the
    replacement is inserted and one character is copied. *)
Fixpoint sub_go (fuel : nat) (r : regex) (repl bef aft : str) : str :=
  match fuel with
  | O => aft
  | S f =>
    let copy :=
      match aft with
      | [] => []
      | c :: rest => c :: sub_go f r repl (c :: bef) rest
      end in
    match match_at r bef aft with
    | Some st =>
      if (List.length (after st) <? List.length aft)%nat
      then repl ++ sub_go f r repl (before st) (after st)
      else repl ++ copy
    | None => copy
    end
  end.

Definition sub (r : regex) (repl s : str) : str :=
  sub_go (S (List.length s)) r repl [] s.

(** [re.split(r, s)] for a pattern without groups: the pieces between the
    matches; [cur] is the piece being read (last character first). *)
Fixpoint split_go (fuel : nat) (r : regex) (bef aft cur : str) : list str :=
  match fuel with
  | O => [rev cur ++ aft]
  | S f =>
    match aft with
    | [] => [rev cur]
    | c :: rest =>
      match match_at r bef aft with
      | Some st =>
        if (List.length (after st) <? List.length aft)%nat
        then rev cur :: split_go f r (before st) (after st) []
        else split_go f r (c :: bef) rest (c :: cur)
      | None => split_go f r (c :: bef) rest (c :: cur)
      end
    end
  end.

Definition split (r : regex) (s : str) : list str :=
  split_go (S (List.length s)) r [] s [].

End Matcher.

End Re.

(* ===================================================================== *)
(** * The program's surroundings *)
(* ===================================================================== *)

(** What lies outside the repository: the Unicode tables, the [dateparser]
    library ([search_dates] with the settings [parse_task_text] passes: the
    date phrases found in a text, in reading order, with their instants, or
    [None]), the configured time zone, and [zoneinfo]'s conversion of an
    aware [datetime] to a UTC ISO string. *)
Record world : Type := {
  tables : unicode;
  search_dates : str -> Datetime.datetime -> option (list (str * Datetime.datetime));
  timezone : string;
  utc_iso : Datetime.datetime -> result str
}.

(** [\w]: alphanumeric or underscore; [\d]: a decimal digit. *)
Definition isword (U : unicode) (c : cp) : bool := isalnum U c || (c =? 95)%N.

Definition isdigit (U : unicode) (c : cp) : bool :=
  match decimal U c with
  | Some _ => true
  | None => false
  end.

(** The digits of [int(s)], single underscores allowed between them. *)
Fixpoint digits_value (U : unicode) (s : str) (acc : Z) (need_digit : bool)
  : option Z :=
  match s with
  | [] => if need_digit then None else Some acc
  | c :: rest =>
    match decimal U c with
    | Some v => digits_value U rest (acc * 10 + v)%Z false
    | None =>
      if (c =? 95)%N && negb need_digit
      then digits_value U rest acc true
      else None
    end
  end.

(** [sys.get_int_max_str_digits()]: CPython's default limit on the number of
    digits [int] converts from decimal text. *)
Definition int_max_str_digits : Z := 4300.

(** The digits of a numeral, its underscores left out. *)
Definition count_digits (U : unicode) (s : str) : Z :=
  Z.of_nat (List.length (filter (isdigit U) s)).

(** [int(s)]: [ValueError] unless [s] is an optionally signed decimal numeral
    (surrounding whitespace allowed) of at most [int_max_str_digits]
    digits. *)
Definition py_int (U : unicode) (s : str) : result Z :=
  let t := strip (isspace U) s in
  let '(negative, body) :=
    match t with
    | c :: r =>
      if (c =? 45)%N then (true, r)
      else if (c =? 43)%N then (false, r)
      else (false, t)
    | [] => (false, t)
    end in
  match digits_value U body 0%Z true with
  | Some v =>
    if (int_max_str_digits <? count_digits U body)%Z then Raise ValueError
    else Ok (if negative then (- v)%Z else v)
  | None => Raise ValueError
  end.

(** [re.sub(r"\s+", " ", s)] *)
Definition collapse_spaces (U : unicode) (s : str) : str :=
  Re.sub N.eqb (isword U) (Re.Plus (Re.Cls (isspace U))) (py " ") s.

(** [d.replace(tzinfo=get_tz())] when [d] is naive. *)
Definition with_zone (W : world) (d : Datetime.datetime) : Datetime.datetime :=
  match Datetime.tzinfo d with
  | None =>
    {| Datetime.year := Datetime.year d; Datetime.month := Datetime.month d;
       Datetime.day := Datetime.day d; Datetime.hour := Datetime.hour d;
       Datetime.minute := Datetime.minute d; Datetime.second := Datetime.second d;
       Datetime.microsecond := Datetime.microsecond d;
       Datetime.tzinfo := Some (timezone W) |}
  | Some _ => d
  end.

(** [utils.to_utc_iso]: [astimezone] raises [OverflowError] when the instant
    in UTC falls outside the years 1 to 9999. *)
Definition to_utc_iso (W : world) (d : Datetime.datetime) : result str :=
  utc_iso W (with_zone W d).

(* ===================================================================== *)
(** * [app/task_parser.py] *)
(* ===================================================================== *)

Module TaskParser.

Import Datetime Utils Re.
Local Open Scope result_scope.

Definition TASK_KEYWORDS : list str :=
  map py ["hatırlat"; "hatirlat"; "toplantı"; "toplanti"; "deadline"; "bitir";
          "yap"; "görev"; "gorev"; "ödev"; "odev"; "tez"; "thesis"; "proposal";
          "sunum"; "makale"; "okuma"; "okumak"]%string.

(** [\b(hatırlat|hatirlat|lütfen|lutfen)\b] *)
Definition filler_re : regex :=
  Cat Bound (Cat (Group 1 (words ["hatırlat"; "hatirlat"; "lütfen"; "lutfen"]%string))
                 Bound).

(** [(\d+)\s*(dakika|dk|saat|gün|gun)] *)
Definition duration_re (U : unicode) : regex :=
  Cat (Group 1 (Plus (Cls (isdigit U))))
      (Cat (Star (Cls (isspace U)))
           (Group 2 (words ["dakika"; "dk"; "saat"; "gün"; "gun"]%string))).

Section WithWorld.

Variable W : world.

Definition _strip_filler (text : str) : str :=
  let U := tables W in
  let cleaned := Re.sub (ignorecase_eq U) (isword U) filler_re [] text in
  strip (isspace U) (collapse_spaces U cleaned).

Fixpoint last_found (l : list (str * datetime)) : option (str * datetime) :=
  match l with
  | [] => None
  | [x] => Some x
  | _ :: rest => last_found rest
  end.

Definition parse_task_text (text : str) (now : datetime)
  : result (str * option datetime) :=
  let U := tables W in
  let found :=
    match search_dates W text now with
    | Some l => last_found l
    | None => None
    end in
  let '(due_at, cleaned) :=
    match found with
    | Some (phrase, d) =>
      (* take the last date-like phrase *)
      (Some (with_zone W d), strip (isspace U) (Str.replace text phrase (py " ")))
    | None => (None, text)
    end in
  let lowered := lower U text in
  due_at <-
    match due_at with
    | None =>
      if contains lowered (py "bu hafta") || contains lowered (py "this week")
      then (e <- end_of_week now ;; Ok (Some e))
      else if contains lowered (py "bu ay") || contains lowered (py "this month")
      then (e <- end_of_month now ;; Ok (Some e))
      else Ok None
    | Some d => Ok (Some d)
    end ;;
  let title :=
    match cleaned with
    | [] => strip (isspace U) text
    | _ => _strip_filler cleaned
    end in
  Ok (title, due_at).

Definition looks_like_task (text : str) : bool :=
  contains_any (lower (tables W) text) TASK_KEYWORDS.

(** [parse_duration]: returns minutes *)
Definition parse_duration (text : str) : result (option Z) :=
  let U := tables W in
  match Re.search N.eqb (isword U) (duration_re U) (lower U text) with
  | None => Ok None
  | Some (_, st) =>
    value <- py_int U (match group 1 st with Some g => g | None => [] end) ;;
    let unit := match group 2 st with Some g => g | None => [] end in
    if Str.eqb unit (py "dakika") || Str.eqb unit (py "dk") then Ok (Some value)
    else if Str.eqb unit (py "saat") then Ok (Some (value * 60)%Z)
    else if Str.eqb unit (py "gün") || Str.eqb unit (py "gun")
    then Ok (Some (value * 60 * 24)%Z)
    else Ok None
  end.

End WithWorld.

End TaskParser.

(** A world for concrete runs: the Latin tables and a [dateparser] that
    answers from a fixed table of texts ([None] elsewhere). *)
Module Demo.

Definition table_dates (tbl : list (string * list (string * Datetime.datetime)))
  (text : str) (_ : Datetime.datetime) : option (list (str * Datetime.datetime)) :=
  match find (fun e => Str.eqb (py (fst e)) text) tbl with
  | Some (_, l) => Some (map (fun pd => (py (fst pd), snd pd)) l)
  | None => None
  end.

(** An instant's own wall-clock fields in ISO form; the shift to UTC is
    left out. *)
Definition digit (n : Z) : cp := Z.to_N (48 + n mod 10).
Definition two_digits (n : Z) : str := [digit (n / 10); digit n].
Definition four_digits (n : Z) : str :=
  [digit (n / 1000); digit (n / 100); digit (n / 10); digit n].

Definition iso_wall_clock (d : Datetime.datetime) : str :=
  four_digits (Datetime.year d) ++ py "-" ++ two_digits (Datetime.month d)
  ++ py "-" ++ two_digits (Datetime.day d) ++ py "T"
  ++ two_digits (Datetime.hour d) ++ py ":" ++ two_digits (Datetime.minute d)
  ++ py ":" ++ two_digits (Datetime.second d).

Definition world_with (tbl : list (string * list (string * Datetime.datetime)))
  : world :=
  {| tables := Latin.tables;
     search_dates := table_dates tbl;
     timezone := "Europe/Istanbul"%string;
     utc_iso := fun d => Ok (iso_wall_clock d) |}.

Definition no_dates : world := world_with [].

End Demo.

(* ===================================================================== *)
(** * [app/utils.py]: local time *)
(* ===================================================================== *)

(** What [from_iso_to_local] and [format_dt_local] take from the standard
    library: [datetime.fromisoformat], [astimezone] to the zone of a key,
    and [strftime("%d %b %Y %H:%M")]. *)
Record clock : Type := {
  fromisoformat : str -> result Datetime.datetime;
  astimezone : Datetime.datetime -> string -> result Datetime.datetime;
  strftime : Datetime.datetime -> str
}.

Module LocalTime.

Import Datetime.
Local Open Scope result_scope.

Section WithClock.

Variable W : world.
Variable C : clock.

Definition from_iso_to_local (value : str) : result datetime :=
  dt <- fromisoformat C value ;;
  let dt :=
    match tzinfo dt with
    | None =>
      {| year := year dt; month := month dt; day := day dt; hour := hour dt;
         minute := minute dt; second := second dt; microsecond := microsecond dt;
         tzinfo := Some "UTC"%string |}
    | Some _ => dt
    end in
  astimezone C dt (timezone W).

Definition format_dt_local (dt : option datetime) : str :=
  match dt with
  | None => py "(zaman belirtilmedi)"
  | Some d => strftime C d
  end.

End WithClock.

End LocalTime.

(** A clock for concrete runs: it reads back the timestamps
    [Demo.iso_wall_clock] writes, moves no instant between zones, and prints
    an instant the same way. *)
Module DemoClock.

Import Datetime.

(** The number a run of ASCII digits denotes. *)
Definition number (s : str) : Z :=
  fold_left (fun a c => (a * 10 + (Z.of_N c - 48))%Z) s 0%Z.

Definition field (s : str) (from len : nat) : Z :=
  number (firstn len (skipn from s)).

Definition read_wall_clock (s : str) : result datetime :=
  match datetime_new (field s 0 4) (field s 5 2) (field s 8 2)
                     (field s 11 2) (field s 14 2) (field s 17 2) 0 None with
  | Ok d => if Str.eqb (Demo.iso_wall_clock d) s then Ok d else Raise ValueError
  | Raise e => Raise e
  end.

Definition in_zone (d : datetime) (key : string) : result datetime :=
  Ok {| year := year d; month := month d; day := day d; hour := hour d;
        minute := minute d; second := second d; microsecond := microsecond d;
        tzinfo := Some key |}.

Definition wall_clock : clock :=
  {| fromisoformat := read_wall_clock;
     astimezone := in_zone;
     strftime := Demo.iso_wall_clock |}.

End DemoClock.

(* ===================================================================== *)
(** * [app/db.py] and [app/services/task_service.py] *)
(* ===================================================================== *)

Module TaskService.

Local Open Scope Z_scope.
Local Open Scope result_scope.

(** Rows of the tables [tasks], [pending_tasks] and [goals]. *)
Record task : Type := {
  id : Z;
  title : str;
  due_at : option str;
  created_at : str;
  status : str;
  source : option str;
  reminded_at : option str;
  notes : option str
}.

Record pending_task : Type := {
  pending_id : Z;
  chat_id : str;
  pending_title : str;
  pending_created_at : str
}.

Record goal : Type := {
  goal_id : Z;
  goal_title : str;
  goal_year : Z;
  goal_created_at : str
}.

(** The database: each table in rowid order, with the largest rowid its
    AUTOINCREMENT key has handed out, and the [settings] table. *)
Record db : Type := {
  tasks : list task;
  tasks_seq : Z;
  pending_tasks : list pending_task;
  pending_seq : Z;
  goals : list goal;
  goals_seq : Z;
  settings : list (str * str)
}.

Definition empty_db : db :=
  {| tasks := []; tasks_seq := 0; pending_tasks := []; pending_seq := 0;
     goals := []; goals_seq := 0; settings := [] |}.

(** An integer parameter of an SQL statement: [sqlite3] binds a Python [int]
    as a 64-bit INTEGER and raises [OverflowError] for one that does not
    fit. The ids of rows fit; a caller that passes an integer read from a
    text binds it with [sqlite_int] before the statement runs. *)
Definition sqlite_int (n : Z) : result Z :=
  if (- 2 ^ 63 <=? n) && (n <? 2 ^ 63) then Ok n else Raise OverflowError.

Fixpoint get_setting (rows : list (str * str)) (key : str) : option str :=
  match rows with
  | [] => None
  | (k, v) :: rest => if Str.eqb k key then Some v else get_setting rest key
  end.

Fixpoint upsert (rows : list (str * str)) (key value : str) : list (str * str) :=
  match rows with
  | [] => [(key, value)]
  | (k, v) :: rest =>
    if Str.eqb k key then (k, value) :: rest else (k, v) :: upsert rest key value
  end.

Definition set_setting (d : db) (key value : str) : db :=
  {| tasks := tasks d; tasks_seq := tasks_seq d;
     pending_tasks := pending_tasks d; pending_seq := pending_seq d;
     goals := goals d; goals_seq := goals_seq d;
     settings := upsert (settings d) key value |}.

(** A stable sort: [ORDER BY] and [list.sort] keep the order of rows that
    compare equal. *)
Section Sort.
Variable A : Type.
Variable le : A -> A -> bool.

Fixpoint insert_sorted (x : A) (l : list A) : list A :=
  match l with
  | [] => [x]
  | y :: rest => if le x y then x :: l else y :: insert_sorted x rest
  end.

Definition stable_sort (l : list A) : list A := fold_right insert_sorted [] l.
End Sort.

Section WithWorld.

Variable W : world.

(** [create_task]: [now] is the clock when the row is written. Both times
    are converted before anything is inserted. *)
Definition create_task (d : db) (title : str) (due : option Datetime.datetime)
           (source : str) (notes : option str) (now : Datetime.datetime)
  : result (db * Z) :=
  due_value <-
    match due with
    | Some due_at => (iso <- to_utc_iso W due_at ;; Ok (Some iso))
    | None => Ok None
    end ;;
  created_at <- to_utc_iso W now ;;
  let new_id := tasks_seq d + 1 in
  let row := {| id := new_id; title := title;
                due_at := due_value;
                created_at := created_at;
                status := py "pending"; source := Some source;
                reminded_at := None; notes := notes |} in
  Ok ({| tasks := tasks d ++ [row]; tasks_seq := new_id;
         pending_tasks := pending_tasks d; pending_seq := pending_seq d;
         goals := goals d; goals_seq := goals_seq d; settings := settings d |},
      new_id).

(** [ORDER BY due_at IS NULL, due_at ASC, created_at DESC] *)
Definition list_order (a b : task) : bool :=
  match due_at a, due_at b with
  | Some x, Some y =>
    Str.ltb x y || (Str.eqb x y && negb (Str.ltb (created_at a) (created_at b)))
  | Some _, None => true
  | None, Some _ => false
  | None, None => negb (Str.ltb (created_at a) (created_at b))
  end.

Definition list_tasks (d : db) (status : str) (limit : nat) : list task :=
  firstn limit
    (stable_sort list_order (filter (fun t => Str.eqb (TaskService.status t) status) (tasks d))).

Definition add_pending_task (d : db) (chat : str) (title : str) (created : str)
  : db * Z :=
  let new_id := pending_seq d + 1 in
  let row := {| pending_id := new_id; chat_id := chat; pending_title := title;
                pending_created_at := created |} in
  ({| tasks := tasks d; tasks_seq := tasks_seq d;
      pending_tasks := pending_tasks d ++ [row]; pending_seq := new_id;
      goals := goals d; goals_seq := goals_seq d; settings := settings d |},
   new_id).

(** [ORDER BY created_at DESC LIMIT 1]: the latest row, the earliest-inserted
    among equals. *)
Fixpoint latest (rows : list pending_task) (best : option pending_task)
  : option pending_task :=
  match rows with
  | [] => best
  | r :: rest =>
    match best with
    | None => latest rest (Some r)
    | Some b =>
      if Str.ltb (pending_created_at b) (pending_created_at r)
      then latest rest (Some r)
      else latest rest best
    end
  end.

Definition get_pending_task (d : db) (chat : str) : option pending_task :=
  latest (filter (fun r => Str.eqb (chat_id r) chat) (pending_tasks d)) None.

Definition clear_pending_task (d : db) (pid : Z) : db :=
  {| tasks := tasks d; tasks_seq := tasks_seq d;
     pending_tasks := filter (fun r => negb (pending_id r =? pid)) (pending_tasks d);
     pending_seq := pending_seq d;
     goals := goals d; goals_seq := goals_seq d; settings := settings d |}.

Definition get_task (d : db) (task_id : Z) : option task :=
  find (fun t => id t =? task_id) (tasks d).

(** [goal_service.create_goal] *)
Definition create_goal (d : db) (title : str) (year : Z) (now : Datetime.datetime)
  : result (db * Z) :=
  created_at <- to_utc_iso W now ;;
  _ <- sqlite_int year ;;
  let new_id := goals_seq d + 1 in
  let row := {| goal_id := new_id; goal_title := title; goal_year := year;
                goal_created_at := created_at |} in
  Ok ({| tasks := tasks d; tasks_seq := tasks_seq d;
         pending_tasks := pending_tasks d; pending_seq := pending_seq d;
         goals := goals d ++ [row]; goals_seq := new_id; settings := settings d |},
      new_id).

(** The [tasks] table rewritten, everything else kept. *)
Definition with_tasks (d : db) (rows : list task) : db :=
  {| tasks := rows; tasks_seq := tasks_seq d;
     pending_tasks := pending_tasks d; pending_seq := pending_seq d;
     goals := goals d; goals_seq := goals_seq d; settings := settings d |}.

(** [UPDATE tasks SET ... WHERE id = ?] *)
Definition update_where_id (task_id : Z) (f : task -> task) (rows : list task)
  : list task :=
  map (fun t => if id t =? task_id then f t else t) rows.

Definition count_tasks (d : db) (status : str) : Z :=
  Z.of_nat (List.length (filter (fun t => Str.eqb (TaskService.status t) status) (tasks d))).

(** [due_at BETWEEN ? AND ?]: both ends included. *)
Definition between (x lo hi : str) : bool :=
  negb (Str.ltb x lo) && negb (Str.ltb hi x).

(** [ORDER BY due_at ASC] on rows whose [due_at] is not NULL. *)
Definition due_order (a b : task) : bool :=
  match due_at a, due_at b with
  | Some x, Some y => negb (Str.ltb y x)
  | _, _ => true
  end.

Definition list_tasks_between (d : db) (start_iso end_iso : str) : list task :=
  stable_sort due_order
    (filter (fun t => Str.eqb (TaskService.status t) (py "pending")
                      && match due_at t with
                         | Some x => between x start_iso end_iso
                         | None => false
                         end)
            (tasks d)).

Definition mark_done (d : db) (task_id : Z) : db * bool :=
  match find (fun t => id t =? task_id) (tasks d) with
  | None => (d, false)
  | Some _ =>
    (with_tasks d
       (update_where_id task_id
          (fun t => {| id := id t; title := title t; due_at := due_at t;
                       created_at := created_at t; status := py "done";
                       source := source t; reminded_at := reminded_at t;
                       notes := notes t |})
          (tasks d)),
     true)
  end.

Definition delete_task (d : db) (task_id : Z) : db * bool :=
  match find (fun t => id t =? task_id) (tasks d) with
  | None => (d, false)
  | Some _ => (with_tasks d (filter (fun t => negb (id t =? task_id)) (tasks d)), true)
  end.

Definition snooze_task (d : db) (task_id : Z) (new_due_at : Datetime.datetime)
  : result (db * bool) :=
  match find (fun t => id t =? task_id) (tasks d) with
  | None => Ok (d, false)
  | Some _ =>
    new_due_iso <- to_utc_iso W new_due_at ;;
    Ok (with_tasks d
          (update_where_id task_id
             (fun t => {| id := id t; title := title t;
                          due_at := Some new_due_iso;
                          created_at := created_at t; status := TaskService.status t;
                          source := source t; reminded_at := None;
                          notes := notes t |})
             (tasks d)),
        true)
  end.

(** The pending rows with a [due_at] not after [now_iso] that have not been
    reminded, in [due_at] order. *)
Definition due_tasks_for_reminder (d : db) (now_iso : str) : list task :=
  stable_sort due_order
    (filter (fun t => Str.eqb (TaskService.status t) (py "pending")
                      && match due_at t, reminded_at t with
                         | Some x, None => negb (Str.ltb now_iso x)
                         | _, _ => false
                         end)
            (tasks d)).

Definition set_reminded (d : db) (task_id : Z) (reminded_at_iso : str) : db :=
  with_tasks d
    (update_where_id task_id
       (fun t => {| id := id t; title := title t; due_at := due_at t;
                    created_at := created_at t; status := TaskService.status t;
                    source := source t; reminded_at := Some reminded_at_iso;
                    notes := notes t |})
       (tasks d)).

End WithWorld.

End TaskService.

(* ===================================================================== *)
(** * [app/services/telegram_bot.py] *)
(* ===================================================================== *)

Module TelegramBot.

Import Datetime Re TaskParser TaskService.
Local Open Scope result_scope.

(** What the bot sends back. *)
Inductive reply : Type :=
| DateNotUnderstood                        (* Zamanı anlayamadım. *)
| Saved (title : str) (due : datetime)     (* Kaydettim. *)
| SummaryText                              (* _build_summary() *)
| Templates                                (* templates_command *)
| TaskNotFound                             (* Görev bulunamadı. *)
| ConfirmDelete (task_id : Z) (title : str)  (* #id silinsin mi? *)
| ConfirmDone (task_id : Z) (title : str)  (* #id tamamlandı olarak ... mi? *)
| NoMatch                                  (* Eşleşen görev bulunamadı. *)
| Choose (prefix : str) (candidates : list task)  (* Hangisini seçeyim? *)
| AskWhen                                  (* Ne zaman hatırlatayım? *)
| TaskList (listed : list task)            (* _format_tasks(tasks) *)
| GoalAdded                                (* Hedef eklendi *)
| Hello
| YoureWelcome
| WhoAmI
| Fallback.

(** An incoming update: the chat's id as text, and the message text. *)
Record update : Type := {
  effective_chat : str;
  message_text : str
}.

(** [\b(bana|beni|bize|bizim|lütfen|lutfen|hatırlat|hatirlat)\b] *)
Definition polite_re : regex :=
  Cat Bound
    (Cat (Group 1 (words ["bana"; "beni"; "bize"; "bizim"; "lütfen"; "lutfen";
                          "hatırlat"; "hatirlat"]%string)) Bound).

(** [\b(şunu|şu|bunu|bana|beni|hatırlatma|hatirlatma|görev|görevi)\b] *)
Definition reference_re : regex :=
  Cat Bound
    (Cat (Group 1 (words ["şunu"; "şu"; "bunu"; "bana"; "beni"; "hatırlatma";
                          "hatirlatma"; "görev"; "görevi"]%string)) Bound).

(** [\b(şu|bunu|şunu|bu|o|hatırlatma|hatirlatma|görev|görevi|hatırlatmayı|hatirlatmayi)\b] *)
Definition query_filler_re : regex :=
  Cat Bound
    (Cat (Group 1 (words ["şu"; "bunu"; "şunu"; "bu"; "o"; "hatırlatma";
                          "hatirlatma"; "görev"; "görevi"; "hatırlatmayı";
                          "hatirlatmayi"]%string)) Bound).

Definition backslash : cp := 92%N.
Definition letter_d : cp := 100%N.
Definition hash : cp := 35%N.

(** [#?\\d+] as written in a raw string: an optional [#], a backslash, and
    one or more letters [d]. *)
Definition id_token_re : regex :=
  Cat (Opt (Lit hash)) (Cat (Lit backslash) (Plus (Lit letter_d))).

(** [#?(\\d+)] *)
Definition id_re : regex :=
  Cat (Opt (Lit hash)) (Group 1 (Cat (Lit backslash) (Plus (Lit letter_d)))).

(** [(20\\d{2})] *)
Definition year_re : regex :=
  Group 1 (Cat (lits (py "20")) (Cat (Lit backslash) (Cat (Lit letter_d) (Lit letter_d)))).

(** [[^\\wçğıöşüÇĞİÖŞÜ]+]: runs of characters other than the backslash,
    the letter [w] and the twelve Turkish letters. *)
Definition token_chars : str := backslash :: py "wçğıöşüÇĞİÖŞÜ".

Definition separator_re : regex :=
  Plus (Cls (fun c => negb (mem c token_chars))).

Definition replacements : list (str * str) :=
  map (fun p => (py (fst p), py (snd p)))
    [("yapacağımı", "yapılacak"); ("yapacağım", "yapılacak");
     ("gideceğimi", "gidilecek"); ("gideceğim", "gidilecek");
     ("tamamlayacağımı", "tamamlanacak"); ("tamamlayacağım", "tamamlanacak");
     ("hazırlayacağımı", "hazırlanacak"); ("hazırlayacağım", "hazırlanacak");
     ("göndereceğimi", "gönderilecek"); ("göndereceğim", "gönderilecek")]%string.

Definition SUMMARY_WORDS : list str :=
  map py ["özet"; "ozet"; "summary"; "rapor"; "durum"]%string.
Definition DELETE_WORDS : list str :=
  map py ["sil"; "kaldır"; "iptal et"; "silmek"]%string.
Definition COMPLETE_WORDS : list str :=
  map py ["tamamlandı"; "tamamladım"; "tamamla"; "bitirdim"; "bitti"]%string.
(** The action words [handle_message] strips from a completion request. *)
Definition COMPLETE_ACTION_WORDS : list str :=
  map py ["tamamla"; "tamamlandı"; "tamamladım"; "bitirdim"; "bitti"]%string.
Definition TEMPLATE_WORDS : list str := map py ["şablon"; "template"; "örnek"]%string.
Definition LIST_WORDS : list str := map py ["listele"; "görev"; "liste"]%string.
Definition GREETING_WORDS : list str :=
  map py ["merhaba"; "selam"; "naber"; "nasılsın"; "nasilsin"]%string.
Definition THANKS_WORDS : list str :=
  map py ["teşekkür"; "tesekkur"; "sağ ol"; "sag ol"]%string.
Definition WHO_WORDS : list str := map py ["kimsin"; "nesin"; "ne yaparsın"]%string.

(** [{token for token in tokens if len(token) > 2}]: a set, kept as a list
    without repetitions. *)
Fixpoint dedup (l : list str) : list str :=
  match l with
  | [] => []
  | x :: rest => if existsb (Str.eqb x) rest then dedup rest else x :: dedup rest
  end.

Definition set_mem (x : str) (s : list str) : bool := existsb (Str.eqb x) s.

(** [len(a & b)] *)
Definition common (a b : list str) : Z :=
  Z.of_nat (List.length (filter (fun x => set_mem x b) a)).

Section WithWorld.

Variable W : world.

Definition re_sub (r : regex) (repl s : str) : str :=
  Re.sub N.eqb (isword (tables W)) r repl s.

Definition re_search (r : regex) (s : str) : option (str * mstate) :=
  Re.search N.eqb (isword (tables W)) r s.

Definition _get_chat_id (d : db) (u : update) : db * str :=
  let chat := effective_chat u in
  match get_setting (settings d) (py "telegram_chat_id") with
  | Some (c :: s) => (d, c :: s)
  | _ => (set_setting d (py "telegram_chat_id") chat, chat)
  end.

Definition _normalize_task_title (title : str) : str :=
  let U := tables W in
  let text := strip (isspace U) title in
  match text with
  | [] => py "Görev."
  | _ =>
    let lowered := lower U text in
    let lowered := re_sub polite_re (py " ") lowered in
    let lowered := re_sub reference_re (py " ") lowered in
    let lowered := strip (isspace U) (collapse_spaces U lowered) in
    let lowered :=
      fold_left (fun acc sd => Str.replace acc (fst sd) (snd sd)) replacements lowered in
    let lowered :=
      if endswith lowered (py "yapmak")
      then strip (isspace U) (firstn (List.length lowered - 6) lowered) ++ py " yapılacak"
      else lowered in
    let lowered :=
      if endswith lowered (py "gitmek")
      then strip (isspace U) (firstn (List.length lowered - 6) lowered) ++ py " gidilecek"
      else lowered in
    let cleaned := capitalize U (strip (isspace U) lowered) in
    match rev cleaned with
    | [] => cleaned
    | c :: _ => if mem c (py ".!?") then cleaned else cleaned ++ py "."
    end
  end.

Definition _tokenize (text : str) : list str :=
  let U := tables W in
  dedup (filter (fun token => (2 <? List.length token)%nat)
                (Re.split N.eqb (isword U) separator_re (lower U text))).

Definition _extract_action_query (text : str) (action_words : list str) : str :=
  let U := tables W in
  let cleaned := lower U text in
  let cleaned := fold_left (fun acc word => Str.replace acc word (py " ")) action_words cleaned in
  let cleaned := re_sub query_filler_re (py " ") cleaned in
  let cleaned := re_sub id_token_re (py " ") cleaned in
  strip (isspace U) (collapse_spaces U cleaned).

(** The score of one task in [_find_task_candidates]. *)
Definition score (query : str) (query_tokens : list str) (t : task) : Z :=
  let title := lower (tables W) (TaskService.title t) in
  ((if contains title query then 3 else 0) + common query_tokens (_tokenize title))%Z.

(** The sort key [(-score, due_at is None)], compared as tuples. *)
Definition key_le (a b : Z * task) : bool :=
  let ka := (- fst a)%Z in
  let kb := (- fst b)%Z in
  let na := match due_at (snd a) with None => true | Some _ => false end in
  let nb := match due_at (snd b) with None => true | Some _ => false end in
  (ka <? kb)%Z || ((ka =? kb)%Z && (negb na || nb)).

(** [_find_task_candidates], lines 137-155, on the rows
    [list_tasks(limit=50)] returned. *)
Definition find_in (tasks : list task) (query : str) (limit : nat) : list task :=
  match tasks with
  | [] => []
  | _ =>
    match query with
    | [] => firstn limit tasks
    | _ =>
      let query_tokens := _tokenize query in
      let scored :=
        filter (fun st => (0 <? fst st)%Z)
               (map (fun t => (score query query_tokens t, t)) tasks) in
      map snd (firstn limit (stable_sort key_le scored))
    end
  end.

Definition _find_task_candidates (d : db) (query : str) (limit : nat) : list task :=
  find_in (list_tasks d (py "pending") 50) query limit.

Definition _send_task_selection (tasks : list task) (action : str) : reply :=
  match tasks with
  | [] => NoMatch
  | _ =>
    let prefix := if Str.eqb action (py "delete") then py "delete" else py "done" in
    Choose prefix tasks
  end.

Definition _send_delete_confirmation (d : db) (task_id : Z) : reply :=
  match get_task d task_id with
  | None => TaskNotFound
  | Some t => ConfirmDelete task_id (TaskService.title t)
  end.

Definition _send_done_confirmation (d : db) (task_id : Z) : reply :=
  match get_task d task_id with
  | None => TaskNotFound
  | Some t => ConfirmDone task_id (TaskService.title t)
  end.

Definition _is_summary_request (text : str) : bool :=
  contains_any (lower (tables W) text) SUMMARY_WORDS.

Definition _is_delete_request (text : str) : bool :=
  contains_any (lower (tables W) text) DELETE_WORDS.

Definition _is_complete_request (text : str) : bool :=
  contains_any (lower (tables W) text) COMPLETE_WORDS.

Definition group1 (st : mstate) : str :=
  match group 1 st with
  | Some g => g
  | None => []
  end.

(** [handle_message], lines 449-460: the branch of a conversation with a
    pending task; the text is only read for a date. *)
Definition date_answer (d : db) (pending : pending_task) (text : str)
           (now now_written : datetime) : result (db * reply) :=
  let title := pending_title pending in
  parsed <- parse_task_text W text now ;;
  match snd parsed with
  | None => Ok (d, DateNotUnderstood)
  | Some due =>
    created <- create_task W d title (Some due) (py "telegram") None now_written ;;
    let d2 := clear_pending_task (fst created) (pending_id pending) in
    Ok (d2, Saved title due)
  end.

(** [handle_message], lines 470-482: the branch of a delete request. *)
Definition delete_request (d : db) (text : str) : result (db * reply) :=
  match re_search id_re text with
  | Some (_, st) =>
    task_id <- py_int (tables W) (group1 st) ;;
    _ <- sqlite_int task_id ;;
    Ok (d, _send_delete_confirmation d task_id)
  | None =>
    let query := _extract_action_query text DELETE_WORDS in
    let candidates := _find_task_candidates d query 5 in
    match candidates with
    | [t] => Ok (d, _send_delete_confirmation d (id t))
    | _ => Ok (d, _send_task_selection candidates (py "delete"))
    end
  end.

(** [handle_message], lines 484-496: the branch of a completion request. *)
Definition complete_request (d : db) (text : str) : result (db * reply) :=
  match re_search id_re text with
  | Some (_, st) =>
    task_id <- py_int (tables W) (group1 st) ;;
    _ <- sqlite_int task_id ;;
    Ok (d, _send_done_confirmation d task_id)
  | None =>
    let query := _extract_action_query text COMPLETE_ACTION_WORDS in
    let candidates := _find_task_candidates d query 5 in
    match candidates with
    | [t] => Ok (d, _send_done_confirmation d (id t))
    | _ => Ok (d, _send_task_selection candidates (py "done"))
    end
  end.

(** [handle_message], lines 498-509: the branch of a task-like message. *)
Definition task_like (d : db) (chat text : str) (now now_written : datetime)
  : result (db * reply) :=
  parsed <- parse_task_text W text now ;;
  let normalized_title := _normalize_task_title (fst parsed) in
  match snd parsed with
  | None =>
    created_at <- to_utc_iso W now ;;
    Ok (fst (add_pending_task d chat normalized_title created_at), AskWhen)
  | Some due =>
    created <- create_task W d normalized_title (Some due) (py "telegram") None
                           now_written ;;
    Ok (fst created, Saved normalized_title due)
  end.

(** [handle_message], lines 526-541: greetings, thanks, identity, and the
    generic reply. *)
Definition small_talk (lowered : str) : reply :=
  if contains_any lowered GREETING_WORDS then Hello
  else if contains_any lowered THANKS_WORDS then YoureWelcome
  else if contains_any lowered WHO_WORDS then WhoAmI
  else Fallback.

(** [handle_message], lines 511-541: the task list, a yearly goal, small
    talk. *)
Definition plain (d : db) (text lowered : str) (now_written : datetime)
  : result (db * reply) :=
  if contains_any lowered LIST_WORDS
  then Ok (d, TaskList (list_tasks d (py "pending") 20))
  else
    let otherwise := Ok (d, small_talk lowered) in
    if contains lowered (py "hedef") then
      match re_search year_re text with
      | Some (_, st) =>
        year <- py_int (tables W) (group1 st) ;;
        let title := strip (isspace (tables W)) (Str.replace text (group1 st) []) in
        match title with
        | [] => otherwise
        | _ =>
          created <- create_goal W d title year now_written ;;
          Ok (fst created, GoalAdded)
        end
      | None => otherwise
      end
    else otherwise.

(** [handle_message], lines 462-541: a conversation without a pending task;
    the [if] cascade over the keyword tests. *)
Definition categorized (d : db) (chat text : str) (now now_written : datetime)
  : result (db * reply) :=
  let lowered := lower (tables W) text in
  if _is_summary_request text then Ok (d, SummaryText)
  else if contains_any lowered TEMPLATE_WORDS then Ok (d, Templates)
  else if _is_delete_request text then delete_request d text
  else if _is_complete_request text then complete_request d text
  else if looks_like_task W text then task_like d chat text now now_written
  else plain d text lowered now_written.

(** [handle_message]: [now] is the clock read on entry, [now_written] the
    clock when a row is written. *)
Definition handle_message (d : db) (u : update) (now now_written : datetime)
  : result (db * reply) :=
  let text := strip (isspace (tables W)) (message_text u) in
  let '(d, chat) := _get_chat_id d u in
  match get_pending_task d chat with
  | Some pending => date_answer d pending text now now_written
  | None => categorized d chat text now now_written
  end.

End WithWorld.

(** ** Inline keyboards, commands, callbacks and the reminder job *)

(** A button of an inline keyboard. *)
Record button : Type := {
  label : str;
  callback_data : str
}.

(** What a command or a callback answers. *)
Inductive answer : Type :=
| Usage (example : str)                   (* Örnek: /done 12 *)
| InvalidId                               (* Geçersiz görev ID. *)
| DurationNotUnderstood                   (* Süreyi anlayamadım. *)
| Cancelled                               (* İşlem iptal edildi. *)
| InvalidAction                           (* Geçersiz işlem. *)
| Asked (question : reply)                (* a confirmation question *)
| MarkedDone (task_id : Z)                (* #id tamamlandı *)
| Deleted (task_id : Z)                   (* #id silindi *)
| Missing                                 (* Görev bulunamadı. *)
| NewTime (task_id : Z) (new_due : datetime)  (* #id yeni zaman: ... *)
| Silence.                                (* no branch taken: nothing is sent *)

(** A reminder sent by [reminder_job]. *)
Record reminder : Type := {
  to_chat : str;
  about : task;
  time_text : str;
  keyboard : list (list button)
}.

Definition colon : cp := 58%N.

Section Commands.

Variable W : world.
Variable C : clock.

Definition _truncate (text : str) (limit : Z) : str :=
  if (Z.of_nat (List.length text) <=? limit)%Z then text
  else rstrip (isspace (tables W)) (slice_to text (limit - 1)%Z) ++ py "…".

(** [_send_task_selection], lines 162-168: one button per task, then
    [Vazgeç]. *)
Definition selection_keyboard (tasks : list task) (action : str)
  : list (list button) :=
  let prefix := if Str.eqb action (py "delete") then py "delete" else py "done" in
  map (fun t =>
         [{| label := py "#" ++ of_int (id t) ++ py " " ++ _truncate (title t) 32;
             callback_data := prefix ++ py "_pick:" ++ of_int (id t) |}])
      tasks
  ++ [[{| label := py "Vazgeç"; callback_data := prefix ++ py ":cancel" |}]].

(** [_send_delete_confirmation], lines 176-183 *)
Definition delete_keyboard (task_id : Z) : list (list button) :=
  [[{| label := py "Sil"; callback_data := py "delete:" ++ of_int task_id |};
    {| label := py "Vazgeç"; callback_data := py "delete:cancel" |}]].

(** [_send_done_confirmation], lines 195-202 *)
Definition done_keyboard (task_id : Z) : list (list button) :=
  [[{| label := py "Tamamlandı"; callback_data := py "done:" ++ of_int task_id |};
    {| label := py "Vazgeç"; callback_data := py "done:cancel" |}]].

(** [reminder_job], lines 558-565 *)
Definition reminder_keyboard (t : task) : list (list button) :=
  [[{| label := py "Tamamlandı"; callback_data := py "done:" ++ of_int (id t) |};
    {| label := py "1 saat ertele";
       callback_data := py "snooze:" ++ of_int (id t) ++ py ":60" |}]].

(** [done_command]: only the [ValueError] of [int] is caught; the
    [OverflowError] of an id [mark_done] cannot bind escapes. *)
Definition done_command (d : db) (args : list str) : result (db * answer) :=
  match args with
  | [] => Ok (d, Usage (py "Örnek: /done 12"))
  | first :: _ =>
    match py_int (tables W) first with
    | Raise ValueError => Ok (d, InvalidId)
    | Raise e => Raise e
    | Ok task_id =>
      _ <- sqlite_int task_id ;;
      let '(d, found) := mark_done d task_id in
      Ok (d, if found then MarkedDone task_id else Missing)
    end
  end.


(** Lines 361-371 of [snooze_command] and 725-734 of [handle_callback]: the
    task's due time, or the clock when it has none, moved by [minutes]. *)
Definition snooze_by (d : db) (task_id minutes : Z) (now : datetime)
  : result (db * answer) :=
  _ <- sqlite_int task_id ;;
  match get_task d task_id with
  | None => Ok (d, Missing)
  | Some task =>
    base <-
      match due_at task with
      | Some (c :: s) => LocalTime.from_iso_to_local W C (c :: s)
      | _ => Ok now
      end ;;
    td <- timedelta_new 0 0 0 minutes 0 ;;
    new_due <- add base td ;;
    snoozed <- snooze_task W d task_id new_due ;;
    Ok (fst snoozed, NewTime task_id new_due)
  end.

(** [snooze_command] *)
Definition snooze_command (d : db) (args : list str) (now : datetime)
  : result (db * answer) :=
  match args with
  | first :: ((_ :: _) as rest) =>
    match py_int (tables W) first with
    | Raise ValueError => Ok (d, InvalidId)
    | Raise e => Raise e
    | Ok task_id =>
      let duration_text := join (py " ") rest in
      minutes <- parse_duration W duration_text ;;
      match minutes with
      | None => Ok (d, DurationNotUnderstood)
      | Some minutes => snooze_by d task_id minutes now
      end
    end
  | _ => Ok (d, Usage (py "Örnek: /snooze 12 2 saat"))
  end.

(** [int(data.split(":", 1)[1])] under [except ValueError]; the prefix
    tested before guarantees the second part. *)
Definition picked_id (data : str) : result (option Z) :=
  match py_int (tables W) (nth 1 (split_max colon data 1) []) with
  | Raise ValueError => Ok None
  | Raise e => Raise e
  | Ok task_id => Ok (Some task_id)
  end.

(** [handle_callback]; [data] is [query.data or ""]. *)
Definition handle_callback (d : db) (data : str) (now : datetime)
  : result (db * answer) :=
  if Str.eqb data (py "delete:cancel") || Str.eqb data (py "done:cancel")
  then Ok (d, Cancelled)
  else if startswith data (py "delete_pick:") then
    picked <- picked_id data ;;
    match picked with
    | None => Ok (d, InvalidAction)
    | Some task_id =>
      _ <- sqlite_int task_id ;;
      Ok (d, Asked (_send_delete_confirmation d task_id))
    end
  else if startswith data (py "done_pick:") then
    picked <- picked_id data ;;
    match picked with
    | None => Ok (d, InvalidAction)
    | Some task_id =>
      _ <- sqlite_int task_id ;;
      Ok (d, Asked (_send_done_confirmation d task_id))
    end
  else if startswith data (py "delete:") then
    picked <- picked_id data ;;
    match picked with
    | None => Ok (d, InvalidAction)
    | Some task_id =>
      _ <- sqlite_int task_id ;;
      let '(d, found) := delete_task d task_id in
      Ok (d, if found then Deleted task_id else Missing)
    end
  else if startswith data (py "done:") then
    picked <- picked_id data ;;
    match picked with
    | None => Ok (d, InvalidAction)
    | Some task_id =>
      _ <- sqlite_int task_id ;;
      let '(d, found) := mark_done d task_id in
      Ok (d, if found then MarkedDone task_id else Missing)
    end
  else if startswith data (py "snooze:") then
    match split_max colon data 2 with
    | [_; task_id_text; minutes_text] =>
      match py_int (tables W) task_id_text with
      | Raise ValueError => Ok (d, InvalidAction)
      | Raise e => Raise e
      | Ok task_id =>
        match py_int (tables W) minutes_text with
        | Raise ValueError => Ok (d, InvalidAction)
        | Raise e => Raise e
        | Ok minutes => snooze_by d task_id minutes now
        end
      end
    | _ => Ok (d, InvalidAction)
    end
  else Ok (d, Silence).

(** The loop of [reminder_job], lines 554-577, over the rows read before it:
    each message is followed by [set_reminded]. An exception ends the job
    where it is raised; what was written before stays written. *)
Fixpoint remind_each (d : db) (chat now_iso : str) (due : list task)
  : db * list reminder * option exn :=
  match due with
  | [] => (d, [], None)
  | t :: rest =>
    let due_text :=
      match due_at t with
      | Some (c :: s) =>
        local <- LocalTime.from_iso_to_local W C (c :: s) ;;
        Ok (LocalTime.format_dt_local C (Some local))
      | _ => Ok []
      end in
    match due_text with
    | Raise e => (d, [], Some e)
    | Ok due_text =>
      let message :=
        {| to_chat := chat; about := t;
           time_text := match due_text with [] => py "Belirtilmedi" | _ => due_text end;
           keyboard := reminder_keyboard t |} in
      let d := set_reminded d (id t) now_iso in
      let '(d, sent, raised) := remind_each d chat now_iso rest in
      (d, message :: sent, raised)
    end
  end.

(** [reminder_job]: [now] is the clock read on entry. *)
Definition reminder_job (d : db) (now : datetime) : db * list reminder * option exn :=
  match to_utc_iso W now with
  | Raise e => (d, [], Some e)
  | Ok now_iso =>
    match due_tasks_for_reminder d now_iso with
    | [] => (d, [], None)
    | due_tasks =>
      match get_setting (settings d) (py "telegram_chat_id") with
      | Some (c :: s) => remind_each d (c :: s) now_iso due_tasks
      | _ => (d, [], None)
      end
    end
  end.

End Commands.

End TelegramBot.

(* ===================================================================== *)
(** * [app/config.py] and the defaults of [app/db.py] *)
(* ===================================================================== *)

Module Config.

(** The fields of [Config] the modelled code reads. *)
Record config : Type := {
  thesis_topic : str;
  paper_keywords : list str;
  telegram_chat_id : option str;
  gemini_api_key : str;
  semantic_scholar_api_key : option str;
  max_papers_per_day : Z
}.

Definition comma : cp := 44%N.

(** [[kw.strip() for kw in value.split(",") if kw.strip()]] *)
Definition _split_keywords (U : unicode) (value : str) : list str :=
  map (strip (isspace U))
      (filter (fun kw => match strip (isspace U) kw with [] => false | _ => true end)
              (split_on comma value)).

End Config.

Module Db.

Import TaskService Config.

(** [ensure_defaults]: a setting is written only when it has no value. *)
Definition ensure_defaults (d : db) (cfg : config) : db :=
  let d :=
    match get_setting (settings d) (py "thesis_topic") with
    | None => set_setting d (py "thesis_topic") (thesis_topic cfg)
    | Some _ => d
    end in
  let d :=
    match get_setting (settings d) (py "paper_keywords") with
    | None => set_setting d (py "paper_keywords") (join (py ",") (paper_keywords cfg))
    | Some _ => d
    end in
  match telegram_chat_id cfg with
  | Some (c :: s) =>
    match get_setting (settings d) (py "telegram_chat_id") with
    | None => set_setting d (py "telegram_chat_id") (c :: s)
    | Some _ => d
    end
  | _ => d
  end.

End Db.

(* ===================================================================== *)
(** * [app/services/paper_service.py] *)
(* ===================================================================== *)

Module PaperService.

Local Open Scope Z_scope.

Section Papers.

(** The values of the REAL column [relevance_score]. *)
Variable float : Type.

(** Rows of the tables [papers] and [reads]. *)
Record paper : Type := {
  paper_id : Z;
  paper_source : str;
  source_id : str;
  paper_title : str;
  abstract : option str;
  url : option str;
  authors : option str;
  published_at : option str;
  fetched_at : str;
  relevance_score : option float;
  summary : option str;
  tags : option str;
  paper_status : str
}.

Record read : Type := {
  read_id : Z;
  read_paper_id : Z;
  read_at : str
}.

(** The two tables, each in rowid order with the largest rowid its
    AUTOINCREMENT key has handed out. *)
Record library : Type := {
  papers : list paper;
  papers_seq : Z;
  reads : list read;
  reads_seq : Z
}.

Definition empty_library : library :=
  {| papers := []; papers_seq := 0; reads := []; reads_seq := 0 |}.

(** [UNIQUE(source, source_id)] *)
Definition known (l : library) (source sid : str) : bool :=
  existsb (fun p => Str.eqb (paper_source p) source && Str.eqb (source_id p) sid)
          (papers l).

(** [store_paper]: [None] when the INSERT raises, on a [source_id] that is
    NULL or a pair [(source, source_id)] the table already has. *)
Definition store_paper (l : library) (source : str) (sid : option str) (title : str)
           (abstract url authors published_at : option str) (fetched_at : str)
  : library * option Z :=
  match sid with
  | None => (l, None)
  | Some sid =>
    if known l source sid then (l, None)
    else
      let new_id := papers_seq l + 1 in
      let row := {| paper_id := new_id; paper_source := source; source_id := sid;
                    paper_title := title; abstract := abstract; url := url;
                    authors := authors; published_at := published_at;
                    fetched_at := fetched_at; relevance_score := None;
                    summary := None; tags := None; paper_status := py "new" |} in
      ({| papers := papers l ++ [row]; papers_seq := new_id;
          reads := reads l; reads_seq := reads_seq l |},
       Some new_id)
  end.

Definition get_paper (l : library) (id : Z) : option paper :=
  find (fun p => paper_id p =? id) (papers l).

Definition update_analysis (l : library) (id : Z) (score : option float)
           (summary tags : option str) : library :=
  {| papers :=
       map (fun p =>
              if paper_id p =? id
              then {| paper_id := paper_id p; paper_source := paper_source p;
                      source_id := source_id p; paper_title := paper_title p;
                      abstract := abstract p; url := url p; authors := authors p;
                      published_at := published_at p; fetched_at := fetched_at p;
                      relevance_score := score; summary := summary; tags := tags;
                      paper_status := paper_status p |}
              else p)
           (papers l);
     papers_seq := papers_seq l; reads := reads l; reads_seq := reads_seq l |}.

(** [mark_read]: the UPDATE, then the INSERT into [reads]. [None] is the
    [sqlite3.IntegrityError] of the foreign key [reads.paper_id] when no
    paper has this id; the UPDATE then changed no row, and nothing is
    written. *)
Definition mark_read (l : library) (id : Z) (read_at_iso : str) : option library :=
  if existsb (fun p => paper_id p =? id) (papers l) then
    let new_id := reads_seq l + 1 in
    Some {| papers :=
              map (fun p =>
                     if paper_id p =? id
                     then {| paper_id := paper_id p; paper_source := paper_source p;
                             source_id := source_id p; paper_title := paper_title p;
                             abstract := abstract p; url := url p; authors := authors p;
                             published_at := published_at p; fetched_at := fetched_at p;
                             relevance_score := relevance_score p;
                             summary := summary p; tags := tags p;
                             paper_status := py "read" |}
                     else p)
                  (papers l);
            papers_seq := papers_seq l;
            reads := reads l ++ [{| read_id := new_id; read_paper_id := id;
                                    read_at := read_at_iso |}];
            reads_seq := new_id |}
  else None.

(** [count_papers(status)]: every paper when [status] is [None] or empty. *)
Definition count_papers (l : library) (status : option str) : Z :=
  match status with
  | Some (c :: s) =>
    Z.of_nat (List.length (filter (fun p => Str.eqb (paper_status p) (c :: s)) (papers l)))
  | _ => Z.of_nat (List.length (papers l))
  end.

End Papers.

End PaperService.

(* ===================================================================== *)
(** * [app/services/paper_scanner.py] *)
(* ===================================================================== *)

Module PaperScanner.

Import TaskService Config PaperService.
Local Open Scope Z_scope.
Local Open Scope result_scope.

Section Scanner.

Variable float : Type.

(** An entry of a feed, as [fetch_arxiv] and [fetch_semantic_scholar] return
    it. *)
Record entry : Type := {
  entry_source_id : option str;
  entry_title : str;
  entry_abstract : option str;
  entry_url : option str;
  entry_authors : option str;
  entry_published_at : option str
}.

(** The outside services: the two searches ([None] when the call raises) and
    Gemini's analysis, which depends on the call ([None] when it raises). *)
Record services : Type := {
  fetch_arxiv : list str -> Z -> option (list entry);
  fetch_semantic_scholar : list str -> Z -> option str -> option (list entry);
  analyze_paper :
    nat -> str -> str -> str -> str -> option (option float * option str * option str)
}.

Variable W : world.
Variable S : services.
Variable cfg : config.

Definition _load_keywords (d : db) : list str :=
  match get_setting (settings d) (py "paper_keywords") with
  | Some (c :: s) => _split_keywords (tables W) (c :: s)
  | _ => paper_keywords cfg
  end.

Definition _load_thesis_topic (d : db) : str :=
  match get_setting (settings d) (py "thesis_topic") with
  | Some (c :: s) => c :: s
  | _ => thesis_topic cfg
  end.

(** The counters of [scan_papers] and the number of analysis calls made. *)
Record progress : Type := {
  shelf : library float;
  new_papers : Z;
  analyzed : Z;
  analysis_budget : Z;
  calls : nat
}.

(** One pass of the loops of lines 50-75 and 77-102. *)
Definition scan_entry (d : db) (source fetched_at : str) (p : progress) (e : entry)
  : progress :=
  let '(l, stored) :=
    store_paper (shelf p) source (entry_source_id e) (entry_title e)
                (entry_abstract e) (entry_url e) (entry_authors e)
                (entry_published_at e) fetched_at in
  match stored with
  | None => p
  | Some paper_id =>
    if paper_id =? 0 then
      {| shelf := l; new_papers := new_papers p; analyzed := analyzed p;
         analysis_budget := analysis_budget p; calls := calls p |}
    else if 0 <? analysis_budget p then
      match analyze_paper S (calls p) (gemini_api_key cfg) (_load_thesis_topic d)
                          (entry_title e)
                          (match entry_abstract e with Some a => a | None => [] end) with
      | Some (score, summary, tags) =>
        {| shelf := update_analysis l paper_id score summary tags;
           new_papers := new_papers p + 1; analyzed := analyzed p + 1;
           analysis_budget := analysis_budget p - 1; calls := Datatypes.S (calls p) |}
      | None =>
        {| shelf := l; new_papers := new_papers p + 1; analyzed := analyzed p;
           analysis_budget := analysis_budget p; calls := Datatypes.S (calls p) |}
      end
    else
      {| shelf := l; new_papers := new_papers p + 1; analyzed := analyzed p;
         analysis_budget := analysis_budget p; calls := calls p |}
  end.

Definition scan_papers (d : db) (l : library float) (now : Datetime.datetime)
  : result (db * library float * (Z * Z)) :=
  let keywords := _load_keywords d in
  fetched_at <- to_utc_iso W now ;;
  let max_results :=
    if 0 <? max_papers_per_day cfg then max_papers_per_day cfg else 200 in
  let arxiv_papers :=
    match fetch_arxiv S keywords max_results with
    | Some papers => papers
    | None => []
    end in
  let semantic_papers :=
    match fetch_semantic_scholar S keywords max_results (semantic_scholar_api_key cfg) with
    | Some papers => papers
    | None => []
    end in
  let p := {| shelf := l; new_papers := 0; analyzed := 0;
              analysis_budget := max_papers_per_day cfg; calls := O |} in
  let p := fold_left (scan_entry d (py "arxiv") fetched_at) arxiv_papers p in
  let p := fold_left (scan_entry d (py "semantic_scholar") fetched_at) semantic_papers p in
  Ok (set_setting d (py "last_scan") fetched_at, shelf p, (new_papers p, analyzed p)).

End Scanner.

End PaperScanner.

(* ===================================================================== *)
(** * [app/services/stats_service.py] *)
(* ===================================================================== *)

Module StatsService.

Import Datetime TaskService PaperService.
Local Open Scope Z_scope.
Local Open Scope result_scope.

(** A [date] is kept as its proleptic Gregorian ordinal, on which
    [datetime.date] defines [==], [<] and the subtraction of a
    [timedelta]. *)
Definition date : Type := Z.

(** [day - timedelta(days=1)] *)
Definition day_before (day : date) : result date :=
  if (0 <? day - 1) && (day - 1 <=? MAXORDINAL) then Ok (day - 1)
  else Raise OverflowError.

(** A set of dates, kept as a list without repetitions. *)
Fixpoint distinct (l : list date) : list date :=
  match l with
  | [] => []
  | x :: rest => if existsb (Z.eqb x) rest then distinct rest else x :: distinct rest
  end.

(** The loop of [get_read_streak] over the days, latest first. *)
Fixpoint count_streak (dates : list date) (expected : date) (streak : Z) : result Z :=
  match dates with
  | [] => Ok streak
  | day :: rest =>
    if day =? expected then
      expected <- day_before expected ;;
      count_streak rest expected (streak + 1)
    else if day <? expected then
      (* gap *)
      Ok streak
    else count_streak rest expected streak
  end.

Fixpoint local_dates (W : world) (C : clock) (rows : list str) : result (list date) :=
  match rows with
  | [] => Ok []
  | read_at :: rest =>
    local <- LocalTime.from_iso_to_local W C read_at ;;
    others <- local_dates W C rest ;;
    Ok (toordinal local :: others)
  end.

Section WithClock.

Variable float : Type.
Variable W : world.
Variable C : clock.

(** [get_read_streak]: [now] is the clock in the configured zone. *)
Definition get_read_streak (l : library float) (now : datetime) : result Z :=
  let rows :=
    stable_sort (fun a b => negb (Str.ltb a b)) (map (@read_at) (reads l)) in
  match rows with
  | [] => Ok 0
  | _ =>
    found <- local_dates W C rows ;;
    let dates := stable_sort (fun a b => b <=? a) (distinct found) in
    match dates with
    | [] => Ok 0
    | _ => count_streak dates (toordinal now) 0
    end
  end.

End WithClock.

End StatsService.

(** A configuration, two feeds and a library for concrete runs; scores are
    whole numbers there. *)
Module DemoLibrary.

Import Config PaperService PaperScanner.

Definition settings_of_env : config :=
  {| thesis_topic := py "SAR despeckling";
     paper_keywords := _split_keywords Latin.tables (py "SAR, remote sensing ,,despeckling");
     telegram_chat_id := Some (py "42");
     gemini_api_key := py "key";
     semantic_scholar_api_key := None;
     max_papers_per_day := 1 |}.

Definition feed_entry (sid : option string) (title : string) : entry :=
  {| entry_source_id := option_map py sid; entry_title := py title;
     entry_abstract := None; entry_url := None; entry_authors := Some [];
     entry_published_at := None |}.

(** arXiv returns three entries, one of them twice and one without an id;
    Semantic Scholar returns one; the analysis answers every call. *)
Definition feeds : services Z :=
  {| fetch_arxiv := fun _ _ =>
       Some [feed_entry (Some "2411.00001") "SAR despeckling with transformers";
             feed_entry (Some "2411.00001") "SAR despeckling with transformers";
             feed_entry None "Untitled";
             feed_entry (Some "2411.00002") "Vision-language models for remote sensing"]%string;
     fetch_semantic_scholar := fun _ _ _ =>
       Some [feed_entry (Some "649def34") "Speckle statistics"]%string;
     analyze_paper := fun _ _ _ _ _ => Some (Some 80%Z, Some (py "ilgili"), Some (py "sar")) |}.

Definition a_paper (i : Z) (sid title : string) : paper Z :=
  {| paper_id := i; paper_source := py "arxiv"; source_id := py sid;
     paper_title := py title; abstract := None; url := None; authors := None;
     published_at := None; fetched_at := py "2026-11-01T07:30:00";
     relevance_score := None; summary := None; tags := None;
     paper_status := py "new" |}.

(** Two papers; the first was read on 2 and on 3 November 2026. *)
Definition two_papers : library Z :=
  {| papers := [a_paper 1 "2410.00001" "Despeckling"; a_paper 2 "2410.00002" "Captioning"]%string;
     papers_seq := 2;
     reads := [{| read_id := 1; read_paper_id := 1; read_at := py "2026-11-02T21:15:00" |};
               {| read_id := 2; read_paper_id := 1; read_at := py "2026-11-03T08:05:00" |}];
     reads_seq := 2 |}.

End DemoLibrary.

(* ===================================================================== *)
(** * Properties of the calendar *)
(* ===================================================================== *)

Module CalendarFacts.

Import Datetime Utils.
Local Open Scope Z_scope.

Ltac zdiv := Z.div_mod_to_equations; lia.

(** What [month_day] must satisfy on one day of a year. *)
Definition month_day_ok (leap : bool) (n : Z) : bool :=
  let '(m, d) := month_day leap n in
  (1 <=? m) && (m <=? 12) && (1 <=? d)
  && (d <=? tbl DAYS_IN_MONTH m + (if (m =? 2) && leap then 1 else 0))
  && (tbl DAYS_BEFORE_MONTH m + (if (2 <? m) && leap then 1 else 0) + d =? n + 1).

Lemma month_day_table :
  forallb (fun leap => forallb (fun k => month_day_ok leap (Z.of_nat k)) (seq 0 365))
          [true; false] = true.
Proof. vm_compute. reflexivity. Qed.

Lemma month_day_spec (leap : bool) (n : Z) :
  0 <= n < 365 -> month_day_ok leap n = true.
Proof.
  intros Hn.
  pose proof month_day_table as T.
  rewrite forallb_forall in T.
  assert (L : In leap [true; false]) by (destruct leap; simpl; auto).
  specialize (T leap L). rewrite forallb_forall in T.
  specialize (T (Z.to_nat n)).
  rewrite Z2Nat.id in T by lia.
  apply T. apply in_seq. lia.
Qed.

Lemma days_before_year_decomp (a b c d : Z) :
  0 <= a -> 0 <= b <= 3 -> 0 <= c <= 24 -> 0 <= d <= 3 ->
  days_before_year (400 * a + 100 * b + 4 * c + d + 1)
  = 146097 * a + 36524 * b + 1461 * c + 365 * d.
Proof.
  intros. unfold days_before_year.
  replace (400 * a + 100 * b + 4 * c + d + 1 - 1)
    with (400 * a + 100 * b + 4 * c + d) by lia.
  zdiv.
Qed.

Lemma is_leap_decomp (a b c d : Z) :
  0 <= a -> 0 <= b <= 3 -> 0 <= c <= 24 -> 0 <= d <= 3 ->
  is_leap (400 * a + 100 * b + 4 * c + d + 1)
  = (d =? 3) && (negb (c =? 24) || (b =? 3)).
Proof.
  intros. unfold is_leap.
  repeat match goal with
  | |- context [ (?x =? ?y) ] => destruct (Z.eqb_spec x y)
  end; simpl; try reflexivity; exfalso; zdiv.
Qed.

(** [date.fromordinal] returns a valid date, and [toordinal] inverts it. *)
Lemma ord2ymd_spec (n : Z) :
  1 <= n <= MAXORDINAL ->
  exists y m d, ord2ymd n = (y, m, d)
    /\ check_date_fields y m d = true
    /\ ymd2ord y m d = n.
Proof.
  unfold MAXORDINAL. intros Hn. unfold ord2ymd, DI400Y, DI100Y, DI4Y.
  set (n0 := n - 1).
  set (a := n0 / 146097). set (r1 := n0 mod 146097).
  set (b := r1 / 36524). set (r2 := r1 mod 36524).
  set (c := r2 / 1461). set (r3 := r2 mod 1461).
  set (d := r3 / 365). set (r4 := r3 mod 365).
  assert (E : n0 = 146097 * a + r1 /\ 0 <= r1 < 146097
              /\ r1 = 36524 * b + r2 /\ 0 <= r2 < 36524
              /\ r2 = 1461 * c + r3 /\ 0 <= r3 < 1461
              /\ r3 = 365 * d + r4 /\ 0 <= r4 < 365 /\ 0 <= n0 <= 3652058).
  { subst a r1 b r2 c r3 d r4 n0. zdiv. }
  assert (En0 : n0 = n - 1) by reflexivity.
  clearbody a r1 b r2 c r3 d r4 n0.
  destruct E as (E0 & B1 & E1 & B2 & E2 & B3 & E3 & B4 & B0).
  destruct ((d =? 4) || (b =? 4)) eqn:Sp.
  - (* the last day of a leap cycle *)
    exists (a * 400 + 1 + b * 100 + c * 4 + d - 1), 12, 31.
    split; [reflexivity|].
    apply orb_true_iff in Sp.
    assert (Hy : exists a' b' c', 0 <= a' /\ 0 <= b' <= 3 /\ 0 <= c' <= 24
               /\ a * 400 + 1 + b * 100 + c * 4 + d - 1
                  = 400 * a' + 100 * b' + 4 * c' + 3 + 1
               /\ (c' <> 24 \/ b' = 3)
               /\ n0 + 1 = 146097 * a' + 36524 * b' + 1461 * c' + 365 * 3 + 366
               /\ 400 * a' + 100 * b' + 4 * c' + 4 <= 9999).
    { destruct Sp as [Sp|Sp]; apply Z.eqb_eq in Sp.
      - destruct (Z.eq_dec b 4).
        + exists a, 3, 24. lia.
        + exists a, b, c. lia.
      - exists a, 3, 24. lia. }
    destruct Hy as (a' & b' & c' & Ha & Hb & Hc & Ey & Hl & En & Hmax).
    rewrite Ey. unfold check_date_fields, ymd2ord, days_in_month, days_before_month.
    rewrite days_before_year_decomp, is_leap_decomp by lia.
    assert (L : (3 =? 3) && (negb (c' =? 24) || (b' =? 3)) = true).
    { simpl. destruct Hl as [Hl|Hl].
      - apply Z.eqb_neq in Hl. rewrite Hl. reflexivity.
      - apply Z.eqb_eq in Hl. rewrite Hl. apply orb_true_r. }
    rewrite L.
    replace ((12 =? 2) && true) with false by reflexivity.
    replace ((2 <? 12) && true) with true by reflexivity.
    change (tbl DAYS_BEFORE_MONTH 12) with 334.
    change (tbl DAYS_IN_MONTH 12) with 31.
    unfold MINYEAR, MAXYEAR. split; [|lia].
    repeat (apply andb_true_iff; split); apply Z.leb_le; lia.
  - apply orb_false_iff in Sp. destruct Sp as [Sd Sb].
    apply Z.eqb_neq in Sd, Sb.
    assert (Hd : 0 <= d <= 3) by lia.
    assert (Hb : 0 <= b <= 3) by lia.
    assert (Hc : 0 <= c <= 24) by lia.
    assert (Ha : 0 <= a) by lia.
    pose proof (@month_day_spec ((d =? 3) && (negb (c =? 24) || (b =? 3))) r4 B4) as MD.
    unfold month_day_ok in MD.
    destruct (month_day ((d =? 3) && (negb (c =? 24) || (b =? 3))) r4) as [m dd].
    exists (a * 400 + 1 + b * 100 + c * 4 + d), m, dd.
    split; [reflexivity|].
    repeat (apply andb_true_iff in MD; destruct MD as [MD ?]).
    replace (a * 400 + 1 + b * 100 + c * 4 + d)
      with (400 * a + 100 * b + 4 * c + d + 1) by lia.
    unfold check_date_fields, ymd2ord, days_in_month, days_before_month.
    rewrite days_before_year_decomp, is_leap_decomp by lia.
    unfold MINYEAR, MAXYEAR.
    repeat match goal with H : (_ <=? _) = true |- _ => apply Z.leb_le in H end.
    match goal with H : (_ =? _) = true |- _ => apply Z.eqb_eq in H end.
    split; [|lia].
    repeat (apply andb_true_iff; split); try (apply Z.leb_le; lia).
    apply Z.leb_le.
    set (lp := (d =? 3) && (negb (c =? 24) || (b =? 3))) in *.
    destruct (Z.eqb_spec m 2) as [->|Hm].
    + change (tbl DAYS_IN_MONTH 2) with 28 in *. destruct lp; simpl in *; lia.
    + simpl in *. lia.
Qed.

Lemma valid_fields (b : datetime) :
  valid b ->
  (1 <= year b <= 9999 /\ 1 <= month b <= 12
   /\ 1 <= day b <= days_in_month (year b) (month b))
  /\ (0 <= hour b <= 23 /\ 0 <= minute b <= 59 /\ 0 <= second b <= 59
      /\ 0 <= microsecond b <= 999999).
Proof.
  unfold valid, check_date_fields, check_time_fields, MINYEAR, MAXYEAR.
  rewrite !andb_true_iff, !Z.leb_le. tauto.
Qed.

Lemma days_before_month_bounds (y m : Z) :
  1 <= m <= 12 -> 0 <= days_before_month y m <= 335.
Proof.
  intros Hm. unfold days_before_month.
  assert (C : m = 1 \/ m = 2 \/ m = 3 \/ m = 4 \/ m = 5 \/ m = 6 \/ m = 7 \/ m = 8
              \/ m = 9 \/ m = 10 \/ m = 11 \/ m = 12) by lia.
  destruct (is_leap y); repeat (destruct C as [C|C]); subst m;
    vm_compute; split; discriminate.
Qed.

Lemma days_in_month_le (y m : Z) : 1 <= m <= 12 -> days_in_month y m <= 31.
Proof.
  intros Hm. unfold days_in_month.
  destruct ((m =? 2) && is_leap y); [lia|].
  assert (C : m = 1 \/ m = 2 \/ m = 3 \/ m = 4 \/ m = 5 \/ m = 6 \/ m = 7 \/ m = 8
              \/ m = 9 \/ m = 10 \/ m = 11 \/ m = 12) by lia.
  repeat (destruct C as [C|C]); subst m; vm_compute; discriminate.
Qed.

Lemma toordinal_pos (b : datetime) : valid b -> 1 <= toordinal b.
Proof.
  intros V. destruct (valid_fields V) as [(Hy & Hm & Hd) _].
  unfold toordinal, ymd2ord.
  pose proof (@days_before_month_bounds (year b) (month b) Hm).
  assert (0 <= days_before_year (year b)) by (unfold days_before_year; zdiv).
  lia.
Qed.

Lemma timedelta_new_days (k : Z) :
  Z.abs k <= 999999999 ->
  timedelta_new k 0 0 0 0 = Ok {| days := k; seconds := 0; microseconds := 0 |}.
Proof.
  intros Hk. unfold timedelta_new.
  replace (k * 86400 + 0 * 3600 + 0 * 60 + 0 + 0 / 1000000) with (k * 86400)
    by (change (0 / 1000000) with 0; lia).
  rewrite Z.div_mul, Z.mod_mul by lia.
  change (0 mod 1000000) with 0.
  apply Z.leb_le in Hk. rewrite Hk. reflexivity.
Qed.

(** Adding whole days moves the date by its ordinal and keeps the time. *)
(** The time of day of a valid instant as a [timedelta]. *)
Lemma timedelta_of_instant (b : datetime) :
  valid b ->
  timedelta_new (toordinal b) (second b) (microsecond b) (minute b) (hour b)
  = Ok {| days := toordinal b;
          seconds := hour b * 3600 + minute b * 60 + second b;
          microseconds := microsecond b |}.
Proof.
  intros V. pose proof (toordinal_pos V) as Hpos.
  destruct (valid_fields V) as [(Hy & Hm & Hd) (Hh & Hmi & Hs & Hus)].
  assert (Hmax : toordinal b <= 999999999).
  { unfold toordinal, ymd2ord.
    pose proof (@days_before_month_bounds (year b) (month b) Hm).
    assert (days_before_year (year b) <= 3652059)
      by (unfold days_before_year; zdiv).
    pose proof (@days_in_month_le (year b) (month b) Hm).
    lia. }
  unfold timedelta_new.
  set (o := toordinal b) in *.
  assert (Eus : microsecond b / 1000000 = 0) by zdiv.
  assert (Eus' : microsecond b mod 1000000 = microsecond b) by zdiv.
  rewrite Eus, Eus'.
  set (t := o * 86400 + hour b * 3600 + minute b * 60 + second b + 0).
  assert (Ed : t / 86400 = o) by (subst t; zdiv).
  assert (Es : t mod 86400 = hour b * 3600 + minute b * 60 + second b)
    by (subst t; zdiv).
  rewrite Ed, Es.
  assert (Ha : (Z.abs o <=? 999999999) = true) by (apply Z.leb_le; lia).
  rewrite Ha. reflexivity.
Qed.

(** Adding whole days moves the date by its ordinal and keeps the time. *)
Lemma add_days (b : datetime) (k : Z) :
  valid b -> 0 <= k -> toordinal b + k <= MAXORDINAL ->
  exists y m d,
    ord2ymd (toordinal b + k) = (y, m, d)
    /\ check_date_fields y m d = true
    /\ ymd2ord y m d = toordinal b + k
    /\ add b {| days := k; seconds := 0; microseconds := 0 |}
       = Ok {| year := y; month := m; day := d; hour := hour b; minute := minute b;
               second := second b; microsecond := microsecond b;
               tzinfo := tzinfo b |}.
Proof.
  intros V Hk Hmax.
  pose proof (toordinal_pos V) as Hpos.
  destruct (valid_fields V) as [_ (Hh & Hmi & Hs & Hus)].
  destruct (@ord2ymd_spec (toordinal b + k)) as (y & m & d & E & C & O); [lia|].
  exists y, m, d. repeat split; try assumption.
  unfold add. rewrite (timedelta_of_instant V). cbn [bind].
  unfold timedelta_add, timedelta_new. cbn [days seconds microseconds].
  set (o := toordinal b) in *. unfold MAXORDINAL in *.
  assert (Eus : (microsecond b + 0) / 1000000 = 0) by zdiv.
  assert (Eus' : (microsecond b + 0) mod 1000000 = microsecond b) by zdiv.
  rewrite Eus, Eus'.
  set (t := (o + k) * 86400 + 0 * 3600 + 0 * 60
            + (hour b * 3600 + minute b * 60 + second b + 0) + 0).
  assert (Ed : t / 86400 = o + k) by (subst t; zdiv).
  assert (Es : t mod 86400 = hour b * 3600 + minute b * 60 + second b)
    by (subst t; zdiv).
  rewrite Ed, Es.
  assert (Ha : (Z.abs (o + k) <=? 999999999) = true) by (apply Z.leb_le; lia).
  rewrite Ha. cbn [bind days seconds microseconds].
  assert (Hr : (0 <? o + k) && (o + k <=? 3652059) = true).
  { apply andb_true_iff. split; [apply Z.ltb_lt|apply Z.leb_le]; lia. }
  rewrite Hr, E.
  f_equal. f_equal; zdiv.
Qed.

(** Month lengths by leap flag. *)
Definition month_table_ok (leap : bool) (k : nat) : bool :=
  let m := Z.of_nat k in
  let dim := tbl DAYS_IN_MONTH m + (if (m =? 2) && leap then 1 else 0) in
  let dbm := tbl DAYS_BEFORE_MONTH m + (if (2 <? m) && leap then 1 else 0) in
  let next := if m =? 12 then 365 + (if leap then 1 else 0)
              else tbl DAYS_BEFORE_MONTH (m + 1)
                   + (if (2 <? m + 1) && leap then 1 else 0) in
  (1 <=? dim) && (dbm + dim =? next).

Lemma month_table :
  forallb (fun leap => forallb (month_table_ok leap) (seq 1 12)) [true; false] = true.
Proof. vm_compute. reflexivity. Qed.

Lemma days_in_month_flag (y m : Z) :
  days_in_month y m = tbl DAYS_IN_MONTH m + (if (m =? 2) && is_leap y then 1 else 0).
Proof.
  unfold days_in_month. destruct (Z.eqb_spec m 2) as [->|]; simpl.
  - destruct (is_leap y); reflexivity.
  - lia.
Qed.

(** The days before a month and its length add up to the days before the
    next month (or to the length of the year, for December). *)
Lemma month_step (y m : Z) :
  1 <= m <= 12 ->
  1 <= days_in_month y m
  /\ days_before_month y m + days_in_month y m
     = if m =? 12 then 365 + (if is_leap y then 1 else 0)
       else days_before_month y (m + 1).
Proof.
  intros Hm. pose proof month_table as T. rewrite forallb_forall in T.
  assert (L : In (is_leap y) [true; false]) by (destruct (is_leap y); simpl; auto).
  specialize (T _ L). rewrite forallb_forall in T.
  specialize (T (Z.to_nat m)). rewrite days_in_month_flag.
  unfold month_table_ok in T. rewrite Z2Nat.id in T by lia.
  unfold days_before_month.
  assert (I : In (Z.to_nat m) (seq 1 12)) by (apply in_seq; lia).
  specialize (T I). apply andb_true_iff in T. destruct T as [T1 T2].
  apply Z.leb_le in T1. apply Z.eqb_eq in T2. split; assumption.
Qed.

Lemma days_before_year_step (y : Z) :
  days_before_year (y + 1) = days_before_year y + 365 + (if is_leap y then 1 else 0).
Proof.
  unfold days_before_year, is_leap.
  replace (y + 1 - 1) with y by lia.
  repeat match goal with
  | |- context [ (?x =? ?z) ] => destruct (Z.eqb_spec x z)
  end; simpl; zdiv.
Qed.

Lemma days_before_year_mono (a b : Z) : a <= b -> days_before_year a <= days_before_year b.
Proof. intros H. unfold days_before_year. zdiv. Qed.

Lemma days_before_month_mono (y m m' : Z) :
  1 <= m -> m < m' -> m' <= 12 ->
  days_before_month y m + days_in_month y m <= days_before_month y m'.
Proof.
  intros H1 H2 H3.
  assert (G : forall k, (k <= 12)%nat -> forall m m', 1 <= m -> m < m' -> m' <= 12 ->
              m' - m = Z.of_nat k ->
              days_before_month y m + days_in_month y m <= days_before_month y m').
  { induction k as [|k IH]; intros Hk a b Ha Hab Hb E; [lia|].
    destruct (@month_step y a) as [_ S]; [lia|].
    replace (a =? 12) with false in S by (symmetry; apply Z.eqb_neq; lia).
    rewrite S. destruct (Z.eq_dec (a + 1) b) as [->|N]; [lia|].
    destruct (@month_step y (a + 1)) as [P _]; [lia|].
    specialize (IH ltac:(lia) (a + 1) b ltac:(lia) ltac:(lia) Hb ltac:(lia)). lia. }
  apply (G (Z.to_nat (m' - m))); lia.
Qed.

(** Ordinals of valid dates lie in their year. *)
Lemma ymd2ord_bounds (y m d : Z) :
  check_date_fields y m d = true ->
  days_before_year y + 1 <= ymd2ord y m d <= days_before_year (y + 1).
Proof.
  unfold check_date_fields, MINYEAR, MAXYEAR. rewrite !andb_true_iff, !Z.leb_le.
  intros (((((Hy1 & Hy2) & Hm1) & Hm2) & Hd1) & Hd2).
  unfold ymd2ord. rewrite days_before_year_step.
  pose proof (@days_before_month_bounds y m ltac:(lia)).
  destruct (@month_step y m) as [_ S]; [lia|].
  destruct (Z.eqb_spec m 12) as [->|N].
  - lia.
  - pose proof (@days_before_month_mono y m 12 ltac:(lia) ltac:(lia) ltac:(lia)).
    destruct (@month_step y 12) as [P S12]; [lia|].
    change (12 =? 12) with true in S12. cbv iota in S12.
    pose proof (@days_in_month_le y 12 ltac:(lia)). lia.
Qed.

Lemma ymd2ord_inj (y m d y' m' d' : Z) :
  check_date_fields y m d = true ->
  check_date_fields y' m' d' = true ->
  ymd2ord y m d = ymd2ord y' m' d' ->
  y = y' /\ m = m' /\ d = d'.
Proof.
  intros V V' E.
  pose proof (@ymd2ord_bounds y m d V) as B.
  pose proof (@ymd2ord_bounds y' m' d' V') as B'.
  assert (Ey : y = y').
  { destruct (Z.lt_trichotomy y y') as [L|[L|L]]; [|exact L|].
    - pose proof (@days_before_year_mono (y + 1) y' ltac:(lia)). lia.
    - pose proof (@days_before_year_mono (y' + 1) y ltac:(lia)). lia. }
  subst y'. split; [reflexivity|].
  unfold check_date_fields in V, V'. rewrite !andb_true_iff, !Z.leb_le in V, V'.
  destruct V as (((((_ & _) & Hm1) & Hm2) & Hd1) & Hd2).
  destruct V' as (((((_ & _) & Hm1') & Hm2') & Hd1') & Hd2').
  unfold ymd2ord in E.
  assert (Em : m = m').
  { destruct (Z.lt_trichotomy m m') as [L|[L|L]]; [|exact L|].
    - pose proof (@days_before_month_mono y m m' ltac:(lia) L ltac:(lia)). lia.
    - pose proof (@days_before_month_mono y m' m ltac:(lia) L ltac:(lia)). lia. }
  subst m'. split; [reflexivity|lia].
Qed.

(** [date.fromordinal] inverts [toordinal] on valid dates. *)
Lemma ord2ymd_ymd2ord (y m d : Z) :
  check_date_fields y m d = true -> ord2ymd (ymd2ord y m d) = (y, m, d).
Proof.
  intros V. pose proof (@ymd2ord_bounds y m d V) as B.
  assert (Hy : 1 <= y <= 9999).
  { unfold check_date_fields, MINYEAR, MAXYEAR in V.
    rewrite !andb_true_iff, !Z.leb_le in V. lia. }
  assert (R : 1 <= ymd2ord y m d <= MAXORDINAL).
  { pose proof (@days_before_year_mono 1 y ltac:(lia)).
    pose proof (@days_before_year_mono (y + 1) 10000 ltac:(lia)).
    change (days_before_year 1) with 0 in *.
    change (days_before_year 10000) with 3652059 in *.
    unfold MAXORDINAL. lia. }
  destruct (@ord2ymd_spec (ymd2ord y m d) R) as (y' & m' & d' & E & V' & O).
  destruct (@ymd2ord_inj y' m' d' y m d V' V O) as (-> & -> & ->). exact E.
Qed.

Lemma one_minute : timedelta_new 0 0 0 1 0
                   = Ok {| days := 0; seconds := 60; microseconds := 0 |}.
Proof. reflexivity. Qed.

Lemma minus_one_minute :
  timedelta_neg {| days := 0; seconds := 60; microseconds := 0 |}
  = Ok {| days := -1; seconds := 86340; microseconds := 0 |}.
Proof. reflexivity. Qed.

(** One minute before an instant at or after 00:01: the same day. *)
Lemma sub_minute_same_day (b : datetime) :
  valid b -> 1 <= hour b * 60 + minute b ->
  sub b {| days := 0; seconds := 60; microseconds := 0 |}
  = Ok {| year := year b; month := month b; day := day b;
          hour := (hour b * 60 + minute b - 1) / 60;
          minute := (hour b * 60 + minute b - 1) mod 60;
          second := second b; microsecond := microsecond b; tzinfo := tzinfo b |}.
Proof.
  intros V T. pose proof (toordinal_pos V) as Hpos.
  destruct (valid_fields V) as [(Hy & Hm & Hd) (Hh & Hmi & Hs & Hus)].
  assert (Vd : check_date_fields (year b) (month b) (day b) = true).
  { unfold check_date_fields, MINYEAR, MAXYEAR.
    rewrite !andb_true_iff, !Z.leb_le. lia. }
  pose proof (@ymd2ord_bounds (year b) (month b) (day b) Vd) as B.
  pose proof (@days_before_year_mono (year b + 1) 10000 ltac:(lia)) as Mx.
  change (days_before_year 10000) with 3652059 in Mx.
  unfold sub. rewrite minus_one_minute. cbn [bind].
  unfold add. rewrite (@timedelta_of_instant b V). cbn [bind].
  unfold timedelta_add, timedelta_new. cbn [days seconds microseconds].
  fold (toordinal b) in B. set (o := toordinal b) in *.
  assert (Eus : (microsecond b + 0) / 1000000 = 0) by zdiv.
  assert (Eus' : (microsecond b + 0) mod 1000000 = microsecond b) by zdiv.
  rewrite Eus, Eus'.
  set (t := (o + -1) * 86400 + 0 * 3600 + 0 * 60
            + (hour b * 3600 + minute b * 60 + second b + 86340) + 0).
  assert (Ed : t / 86400 = o) by (subst t; zdiv).
  assert (Es : t mod 86400 = hour b * 3600 + minute b * 60 + second b - 60)
    by (subst t; zdiv).
  rewrite Ed, Es.
  assert (Ha : (Z.abs o <=? 999999999) = true) by (apply Z.leb_le; lia).
  rewrite Ha. cbn [bind days seconds microseconds].
  assert (Hr : (0 <? o) && (o <=? MAXORDINAL) = true).
  { unfold MAXORDINAL. apply andb_true_iff.
    split; [apply Z.ltb_lt|apply Z.leb_le]; lia. }
  rewrite Hr. subst o. unfold toordinal. rewrite (@ord2ymd_ymd2ord _ _ _ Vd).
  f_equal. f_equal; zdiv.
Qed.

(** One minute before an instant of the minute 00:00: the day before. *)
Lemma sub_minute_day_before (b : datetime) (y m d : Z) :
  valid b -> hour b = 0 -> minute b = 0 ->
  check_date_fields y m d = true ->
  toordinal b = ymd2ord y m d + 1 ->
  sub b {| days := 0; seconds := 60; microseconds := 0 |}
  = Ok {| year := y; month := m; day := d; hour := 23; minute := 59;
          second := second b; microsecond := microsecond b; tzinfo := tzinfo b |}.
Proof.
  intros V H0 M0 Vd O.
  destruct (valid_fields V) as [_ (Hh & Hmi & Hs & Hus)].
  pose proof (@ymd2ord_bounds y m d Vd) as B.
  assert (Hy : 1 <= y <= 9999).
  { unfold check_date_fields, MINYEAR, MAXYEAR in Vd.
    rewrite !andb_true_iff, !Z.leb_le in Vd. lia. }
  pose proof (@days_before_year_mono 1 y ltac:(lia)) as Mn.
  change (days_before_year 1) with 0 in Mn.
  pose proof (@days_before_year_mono (y + 1) 10000 ltac:(lia)) as Mx.
  change (days_before_year 10000) with 3652059 in Mx.
  unfold sub. rewrite minus_one_minute. cbn [bind].
  unfold add. rewrite (@timedelta_of_instant b V). cbn [bind].
  unfold timedelta_add, timedelta_new. cbn [days seconds microseconds].
  rewrite O, H0, M0.
  set (o := ymd2ord y m d) in *.
  assert (Eus : (microsecond b + 0) / 1000000 = 0) by zdiv.
  assert (Eus' : (microsecond b + 0) mod 1000000 = microsecond b) by zdiv.
  rewrite Eus, Eus'.
  set (t := (o + 1 + -1) * 86400 + 0 * 3600 + 0 * 60
            + (0 * 3600 + 0 * 60 + second b + 86340) + 0).
  assert (Ed : t / 86400 = o) by (subst t; zdiv).
  assert (Es : t mod 86400 = second b + 86340) by (subst t; zdiv).
  rewrite Ed, Es.
  assert (Ha : (Z.abs o <=? 999999999) = true) by (apply Z.leb_le; lia).
  rewrite Ha. cbn [bind days seconds microseconds].
  assert (Hr : (0 <? o) && (o <=? MAXORDINAL) = true).
  { unfold MAXORDINAL. apply andb_true_iff.
    split; [apply Z.ltb_lt|apply Z.leb_le]; lia. }
  rewrite Hr. subst o. rewrite (@ord2ymd_ymd2ord _ _ _ Vd).
  f_equal. f_equal; zdiv.
Qed.

End CalendarFacts.

Import Datetime Utils.

(** A wall-clock instant in the configured zone. *)
Definition instant (y m d h mi s : Z) : datetime :=
  {| year := y; month := m; day := d; hour := h; minute := mi; second := s;
     microsecond := 0; tzinfo := Some "Europe/Istanbul"%string |}.

(** C9, as amended: for every valid [base] whose week's Sunday is not after
    9999-12-31, [end_of_week base] returns an instant of the same
    Monday-to-Sunday week (the same Monday ordinal, not before [base]'s
    date) that falls on Sunday at 23:59:00, in [base]'s zone. *)
Theorem end_of_week_sunday (base : datetime) :
  valid base ->
  (toordinal base + (6 - weekday base) <= MAXORDINAL)%Z ->
  exists e, end_of_week base = Ok e
    /\ weekday e = 6%Z
    /\ (toordinal e - weekday e = toordinal base - weekday base)%Z
    /\ (toordinal base <= toordinal e)%Z
    /\ hour e = 23%Z /\ minute e = 59%Z /\ second e = 0%Z /\ microsecond e = 0%Z
    /\ tzinfo e = tzinfo base.
Proof.
  intros V Hmax.
  assert (Hw : (0 <= weekday base <= 6)%Z) by (unfold weekday; CalendarFacts.zdiv).
  unfold end_of_week.
  rewrite CalendarFacts.timedelta_new_days by lia. cbn [bind].
  destruct (@CalendarFacts.add_days base (6 - weekday base)%Z V)
    as (y & m & d & E & C & O & A); try lia.
  rewrite A. cbn [bind]. unfold replace, datetime_new, or_field.
  cbn [year month day hour minute second microsecond tzinfo].
  rewrite C.
  change (check_time_fields 23 59 0 0) with true. cbn [andb].
  match goal with |- exists e, Ok ?x = Ok e /\ _ => set (e := x) end.
  exists e. split; [reflexivity|].
  assert (Oe : toordinal e = (toordinal base + (6 - weekday base))%Z) by exact O.
  assert (We : weekday e = 6%Z).
  { unfold weekday at 1. rewrite Oe. unfold weekday. CalendarFacts.zdiv. }
  rewrite We, Oe. repeat split; try reflexivity; lia.
Qed.

(** Wednesday 4 November 2026, 10:30:45. *)
Lemma end_of_week_sunday_witness :
  exists e, end_of_week (instant 2026 11 4 10 30 45) = Ok e
    /\ weekday e = 6%Z
    /\ (toordinal e - weekday e
        = toordinal (instant 2026 11 4 10 30 45)
          - weekday (instant 2026 11 4 10 30 45))%Z
    /\ (toordinal (instant 2026 11 4 10 30 45) <= toordinal e)%Z
    /\ hour e = 23%Z /\ minute e = 59%Z /\ second e = 0%Z /\ microsecond e = 0%Z
    /\ tzinfo e = tzinfo (instant 2026 11 4 10 30 45).
Proof.
  apply (@end_of_week_sunday (instant 2026 11 4 10 30 45)).
  - vm_compute. reflexivity.
  - vm_compute. discriminate.
Defined.

(** X4: past that bound [end_of_week] raises. For a valid [base] whose
    week's Sunday is after 9999-12-31, [base + timedelta(days=...)] is an
    [OverflowError]: the hypothesis of [end_of_week_sunday] is the exact
    domain. *)
Lemma end_of_week_out_of_range (base : datetime) :
  valid base ->
  (MAXORDINAL < toordinal base + (6 - weekday base))%Z ->
  end_of_week base = Raise OverflowError.
Proof.
  intros V Hmax.
  assert (Hw : (0 <= weekday base <= 6)%Z) by (unfold weekday; CalendarFacts.zdiv).
  pose proof (CalendarFacts.toordinal_pos V) as Hpos.
  destruct (CalendarFacts.valid_fields V) as [(Hy & Hm & Hd) (Hh & Hmi & Hs & Hus)].
  assert (Vd : check_date_fields (year base) (month base) (day base) = true).
  { unfold check_date_fields, MINYEAR, MAXYEAR.
    rewrite !andb_true_iff, !Z.leb_le. lia. }
  pose proof (@CalendarFacts.ymd2ord_bounds _ _ _ Vd) as B.
  pose proof (@CalendarFacts.days_before_year_mono (year base + 1) 10000
                ltac:(lia)) as Mx.
  change (days_before_year 10000) with 3652059%Z in Mx.
  fold (toordinal base) in B.
  unfold end_of_week.
  rewrite CalendarFacts.timedelta_new_days by lia. cbn [bind].
  unfold add. rewrite (@CalendarFacts.timedelta_of_instant base V). cbn [bind].
  unfold timedelta_add, timedelta_new. cbn [days seconds microseconds].
  set (o := toordinal base) in *. set (k := (6 - weekday base)%Z) in *.
  unfold MAXORDINAL in *.
  assert (Eus : ((microsecond base + 0) / 1000000 = 0)%Z) by CalendarFacts.zdiv.
  rewrite Eus.
  set (t := ((o + k) * 86400 + 0 * 3600 + 0 * 60
             + (hour base * 3600 + minute base * 60 + second base + 0) + 0)%Z).
  assert (Ed : (t / 86400 = o + k)%Z) by (subst t; CalendarFacts.zdiv).
  rewrite Ed.
  assert (Ha : (Z.abs (o + k) <=? 999999999)%Z = true) by (apply Z.leb_le; lia).
  rewrite Ha. cbn [bind days seconds microseconds].
  assert (Hr : ((0 <? o + k) && (o + k <=? 3652059))%Z = false).
  { apply andb_false_iff. right. apply Z.leb_gt. lia. }
  rewrite Hr. reflexivity.
Qed.

(** C9, the counterexample: Friday 9999-12-31 is a valid instant, and its
    week's Sunday is past the last representable day: [base + timedelta]
    raises [OverflowError]. *)
Lemma end_of_week_overflows :
  valid (instant 9999 12 31 12 0 0)
  /\ end_of_week (instant 9999 12 31 12 0 0) = Raise OverflowError.
Proof. split; vm_compute; reflexivity. Qed.

(** ** [end_of_month] *)

Import CalendarFacts.
Local Open Scope Z_scope.

(** The first day of the month after [base]'s. *)
Definition next_year (base : datetime) : Z :=
  if month base =? 12 then year base + 1 else year base.
Definition next_month (base : datetime) : Z :=
  if month base =? 12 then 1 else month base + 1.

Lemma next_month_valid (base : datetime) :
  valid base -> (month base = 12 -> year base < 9999) ->
  check_date_fields (next_year base) (next_month base) 1 = true
  /\ ymd2ord (next_year base) (next_month base) 1
     = ymd2ord (year base) (month base) (days_in_month (year base) (month base)) + 1
  /\ check_date_fields (year base) (month base)
                       (days_in_month (year base) (month base)) = true.
Proof.
  intros V Dec. destruct (valid_fields V) as [(Hy & Hm & Hd) _].
  unfold next_year, next_month.
  destruct (@month_step (year base) (month base) Hm) as [P S].
  assert (V0 : check_date_fields (year base) (month base)
                 (days_in_month (year base) (month base)) = true).
  { unfold check_date_fields, MINYEAR, MAXYEAR.
    rewrite !andb_true_iff, !Z.leb_le. lia. }
  destruct (Z.eqb_spec (month base) 12) as [E|N].
  - specialize (Dec E).
    destruct (@month_step (year base + 1) 1 ltac:(lia)) as [P1 _].
    split; [|split; [|exact V0]].
    + unfold check_date_fields, MINYEAR, MAXYEAR.
      rewrite !andb_true_iff, !Z.leb_le. lia.
    + unfold ymd2ord. rewrite days_before_year_step.
      assert (Z1 : days_before_month (year base + 1) 1 = 0).
      { unfold days_before_month. change (2 <? 1) with false. reflexivity. }
      rewrite Z1. lia.
  - destruct (@month_step (year base) (month base + 1) ltac:(lia)) as [P1 _].
    split; [|split; [|exact V0]].
    + unfold check_date_fields, MINYEAR, MAXYEAR.
      rewrite !andb_true_iff, !Z.leb_le. lia.
    + unfold ymd2ord. lia.
Qed.

(** The first day of the next month, at [base]'s time of day. *)
Lemma first_of_next_month (base : datetime) :
  valid base -> (month base = 12 -> year base < 9999) ->
  (if month base =? 12
   then replace base (Some (year base + 1)) (Some 1) (Some 1) None None None None
   else replace base None (Some (month base + 1)) (Some 1) None None None None)
  = Ok {| year := next_year base; month := next_month base; day := 1;
          hour := hour base; minute := minute base; second := second base;
          microsecond := microsecond base; tzinfo := tzinfo base |}.
Proof.
  intros V Dec. destruct (@next_month_valid base V Dec) as (Vn & _ & _).
  assert (Vt : check_time_fields (hour base) (minute base) (second base)
                                 (microsecond base) = true).
  { unfold valid in V. apply andb_true_iff in V. tauto. }
  unfold next_year, next_month in *.
  destruct (month base =? 12); unfold replace, datetime_new, or_field;
    rewrite Vn, Vt; reflexivity.
Qed.

(** C8: [end_of_month] does not return the last day of [base]'s month at
    23:59:00. For every valid [base] whose time of day is 00:01 or later
    (December 9999 apart, where [replace] raises), it returns the first day
    of the next month, at [base]'s hour and minute less one minute, seconds
    zero: [replace] keeps the time of day, and one minute back from there
    stays on that first day. *)
Theorem end_of_month_after_midnight (base : datetime) :
  valid base ->
  1 <= hour base * 60 + minute base ->
  (month base = 12 -> year base < 9999) ->
  end_of_month base
  = Ok {| year := next_year base; month := next_month base; day := 1;
          hour := (hour base * 60 + minute base - 1) / 60;
          minute := (hour base * 60 + minute base - 1) mod 60;
          second := 0; microsecond := 0; tzinfo := tzinfo base |}.
Proof.
  intros V T Dec. unfold end_of_month.
  rewrite (@first_of_next_month base V Dec). cbn [bind].
  rewrite one_minute. cbn [bind].
  destruct (@next_month_valid base V Dec) as (Vn & _ & _).
  destruct (valid_fields V) as [_ (Hh & Hmi & Hs & Hus)].
  set (nm := {| year := next_year base; month := next_month base; day := 1;
                hour := hour base; minute := minute base; second := second base;
                microsecond := microsecond base; tzinfo := tzinfo base |}).
  assert (Vnm : valid nm).
  { unfold valid. cbn [year month day hour minute second microsecond nm].
    rewrite Vn. unfold valid in V. apply andb_true_iff in V. tauto. }
  rewrite (@sub_minute_same_day nm Vnm T). cbn [bind].
  unfold replace, datetime_new, or_field.
  cbn [year month day hour minute second microsecond tzinfo nm].
  rewrite Vn.
  assert (Vt : check_time_fields ((hour base * 60 + minute base - 1) / 60)
                 ((hour base * 60 + minute base - 1) mod 60) 0 0 = true).
  { unfold check_time_fields. rewrite !andb_true_iff, !Z.leb_le.
    repeat split; zdiv. }
  rewrite Vt. reflexivity.
Qed.


(** 15 January 2024, 10:30:45: the result is 1 February, 10:29:00. *)
Lemma end_of_month_after_midnight_witness :
  end_of_month (instant 2024 1 15 10 30 45) = Ok (instant 2024 2 1 10 29 0).
Proof.
  apply (@end_of_month_after_midnight (instant 2024 1 15 10 30 45)).
  - vm_compute. reflexivity.
  - vm_compute. discriminate.
  - vm_compute. discriminate.
Defined.

(** X1: only in the minute after midnight does [end_of_month] return what
    its comment says. For a valid [base] at 00:00 (December 9999 apart) it
    is the last day of [base]'s month at 23:59:00, in [base]'s zone. *)
Lemma end_of_month_in_first_minute (base : datetime) :
  valid base ->
  hour base = 0 -> minute base = 0 ->
  (month base = 12 -> year base < 9999) ->
  end_of_month base
  = Ok {| year := year base; month := month base;
          day := days_in_month (year base) (month base);
          hour := 23; minute := 59; second := 0; microsecond := 0;
          tzinfo := tzinfo base |}.
Proof.
  intros V H0 M0 Dec. unfold end_of_month.
  rewrite (@first_of_next_month base V Dec). cbn [bind].
  rewrite one_minute. cbn [bind].
  destruct (@next_month_valid base V Dec) as (Vn & On & Vl).
  set (nm := {| year := next_year base; month := next_month base; day := 1;
                hour := hour base; minute := minute base; second := second base;
                microsecond := microsecond base; tzinfo := tzinfo base |}).
  assert (Vnm : valid nm).
  { unfold valid. cbn [year month day hour minute second microsecond nm].
    rewrite Vn. unfold valid in V. apply andb_true_iff in V. tauto. }
  rewrite (@sub_minute_day_before nm (year base) (month base)
             (days_in_month (year base) (month base)) Vnm H0 M0 Vl On).
  cbn [bind].
  unfold replace, datetime_new, or_field.
  cbn [year month day hour minute second microsecond tzinfo nm].
  rewrite Vl. reflexivity.
Qed.

Local Close Scope Z_scope.

Example end_of_month_at_midnight :
  end_of_month (instant 2024 2 10 0 0 30) = Ok (instant 2024 2 29 23 59 0).
Proof. vm_compute. reflexivity. Qed.

Example end_of_month_december :
  end_of_month (instant 2025 12 31 0 0 0) = Ok (instant 2025 12 31 23 59 0).
Proof. vm_compute. reflexivity. Qed.

Example end_of_week_wednesday :
  end_of_week (instant 2026 11 4 10 30 45) = Ok (instant 2026 11 8 23 59 0).
Proof. vm_compute. reflexivity. Qed.

(* ===================================================================== *)
(** * Properties of the matcher *)
(* ===================================================================== *)

Module ReFacts.

Import Re.

Section Semantics.

Variable ceq : cp -> cp -> bool.
Variable isword : cp -> bool.

Definition next (st : mstate) (c : cp) (rest : str) : mstate :=
  {| before := c :: before st; after := rest; groups := groups st |}.

(** [matches r a b]: the pattern [r] can take the matcher from [a] to [b]. *)
Inductive matches : regex -> mstate -> mstate -> Prop :=
| M_Lit c x rest st :
    after st = x :: rest -> ceq c x = true -> matches (Lit c) st (next st x rest)
| M_Cls p x rest st :
    after st = x :: rest -> p x = true -> matches (Cls p) st (next st x rest)
| M_Cat r1 r2 a b c :
    matches r1 a b -> matches r2 b c -> matches (Cat r1 r2) a c
| M_AltL r1 r2 a b : matches r1 a b -> matches (Alt r1 r2) a b
| M_AltR r1 r2 a b : matches r2 a b -> matches (Alt r1 r2) a b
| M_OptSome r a b : matches r a b -> matches (Opt r) a b
| M_OptNone r a : matches (Opt r) a a
| M_StarNil r a : matches (Star r) a a
| M_StarCons r a b c :
    matches r a b -> shorter b a = true -> matches (Star r) b c ->
    matches (Star r) a c
| M_Plus r a b c : matches r a b -> matches (Star r) b c -> matches (Plus r) a c
| M_Bound a : at_boundary isword a = true -> matches Bound a a
| M_Group n r a b : matches r a b -> matches (Group n r) a (set_group n a b).

Let run := m ceq isword.

Lemma eat_sound p st k x :
  eat p st k = Some x ->
  exists c rest, after st = c :: rest /\ p c = true /\ k (next st c rest) = Some x.
Proof.
  unfold eat. destruct (after st) as [|c rest]; [discriminate|].
  destruct (p c) eqn:E; [|discriminate].
  intros H. exists c, rest. auto.
Qed.

Lemma star_sound r1 k x :
  (forall st k' y, run r1 st k' = Some y ->
     exists st', matches r1 st st' /\ k' st' = Some y) ->
  forall fuel st,
    star (run r1) k fuel st = Some x ->
    exists st', matches (Star r1) st st' /\ k st' = Some x.
Proof.
  intros IH. induction fuel as [|f IHf]; intros st H; simpl in H.
  - exists st. split; [apply M_StarNil|assumption].
  - destruct (run r1 st _) eqn:E1.
    + injection H as <-. apply IH in E1. destruct E1 as (b & M1 & K).
      destruct (shorter b st) eqn:Sh; [|discriminate].
      apply IHf in K. destruct K as (c & MS & K).
      exists c. split; [eapply M_StarCons; eassumption|assumption].
    + exists st. split; [apply M_StarNil|assumption].
Qed.

(** Soundness: a successful run went through a match of the pattern. *)
Lemma m_sound r : forall st k x,
  run r st k = Some x -> exists st', matches r st st' /\ k st' = Some x.
Proof.
  induction r as [c|p|r1 IH1 r2 IH2|r1 IH1 r2 IH2|r1 IH1|r1 IH1|r1 IH1| |n r1 IH1];
    intros st k x H.
  - apply eat_sound in H. destruct H as (c' & rest & E & P & K).
    exists (next st c' rest). split; [now apply M_Lit|assumption].
  - apply eat_sound in H. destruct H as (c' & rest & E & P & K).
    exists (next st c' rest). split; [now apply M_Cls|assumption].
  - apply IH1 in H. destruct H as (b & M1 & H).
    apply IH2 in H. destruct H as (c & M2 & K).
    exists c. split; [eapply M_Cat; eassumption|assumption].
  - simpl in H. fold run in H. destruct (run r1 st k) eqn:E1.
    + injection H as <-. apply IH1 in E1. destruct E1 as (b & M1 & K).
      exists b. split; [now apply M_AltL|assumption].
    + apply IH2 in H. destruct H as (b & M2 & K).
      exists b. split; [now apply M_AltR|assumption].
  - simpl in H. fold run in H. destruct (run r1 st k) eqn:E1.
    + injection H as <-. apply IH1 in E1. destruct E1 as (b & M1 & K).
      exists b. split; [now apply M_OptSome|assumption].
    + exists st. split; [apply M_OptNone|assumption].
  - exact (@star_sound r1 k x IH1 _ _ H).
  - apply IH1 in H. destruct H as (b & M1 & H).
    destruct (@star_sound r1 k x IH1 _ _ H) as (c & MS & K).
    exists c. split; [eapply M_Plus; eassumption|assumption].
  - simpl in H. destruct (at_boundary isword st) eqn:B; [|discriminate].
    exists st. split; [now apply M_Bound|assumption].
  - apply IH1 in H. destruct H as (b & M1 & K).
    exists (set_group n st b). split; [now apply M_Group|assumption].
Qed.

Lemma inv_lit c a b :
  matches (Lit c) a b ->
  exists x rest, after a = x :: rest /\ ceq c x = true /\ b = next a x rest.
Proof. inversion 1; subst; eauto. Qed.

Lemma inv_cls p a b :
  matches (Cls p) a b ->
  exists x rest, after a = x :: rest /\ p x = true /\ b = next a x rest.
Proof. inversion 1; subst; eauto. Qed.

Lemma inv_cat r1 r2 a c :
  matches (Cat r1 r2) a c -> exists b, matches r1 a b /\ matches r2 b c.
Proof. inversion 1; subst; eauto. Qed.

Lemma inv_alt r1 r2 a b :
  matches (Alt r1 r2) a b -> matches r1 a b \/ matches r2 a b.
Proof. inversion 1; subst; auto. Qed.

Lemma inv_opt r a b : matches (Opt r) a b -> matches r a b \/ b = a.
Proof. inversion 1; subst; auto. Qed.

Lemma inv_star r a c :
  matches (Star r) a c ->
  c = a \/ exists b, matches r a b /\ shorter b a = true /\ matches (Star r) b c.
Proof. inversion 1; subst; eauto. Qed.

Lemma inv_plus r a c :
  matches (Plus r) a c -> exists b, matches r a b /\ matches (Star r) b c.
Proof. inversion 1; subst; eauto. Qed.

Lemma inv_bound a b : matches Bound a b -> b = a /\ at_boundary isword a = true.
Proof. inversion 1; subst; auto. Qed.

Lemma inv_group n r a c :
  matches (Group n r) a c -> exists b, matches r a b /\ c = set_group n a b.
Proof. inversion 1; subst; eauto. Qed.

Lemma star_complete r1 k :
  (forall st st' k', matches r1 st st' -> k' st' <> None -> run r1 st k' <> None) ->
  forall fuel st st',
    (List.length (after st) < fuel)%nat ->
    matches (Star r1) st st' -> k st' <> None ->
    star (run r1) k fuel st <> None.
Proof.
  intros C. induction fuel as [|f IHf]; intros st st' Hf M K; [lia|].
  simpl. apply inv_star in M. destruct M as [->|(b & M1 & Sh & MS)].
  - destruct (run r1 st _); [discriminate|assumption].
  - match goal with |- match ?e with _ => _ end <> None =>
      assert (E : e <> None) end.
    { eapply C; [eassumption|]. rewrite Sh.
      apply IHf with (st' := st'); try assumption.
      unfold shorter in Sh. apply Nat.ltb_lt in Sh. lia. }
    destruct (run r1 st _); [discriminate|contradiction].
Qed.

(** Completeness: where the pattern has a match after which [k] succeeds,
    the run succeeds. *)
Lemma m_complete r : forall st st' k,
  matches r st st' -> k st' <> None -> run r st k <> None.
Proof.
  induction r as [c|p|r1 IH1 r2 IH2|r1 IH1 r2 IH2|r1 IH1|r1 IH1|r1 IH1| |n r1 IH1];
    intros st st' k M K.
  - apply inv_lit in M. destruct M as (x & rest & E & P & ->).
    unfold run; simpl. unfold eat. rewrite E, P. exact K.
  - apply inv_cls in M. destruct M as (x & rest & E & P & ->).
    unfold run; simpl. unfold eat. rewrite E, P. exact K.
  - apply inv_cat in M. destruct M as (b & M1 & M2).
    apply (IH1 st b); [assumption|]. apply (IH2 b st'); assumption.
  - apply inv_alt in M. unfold run; simpl; fold run. destruct M as [M|M].
    + pose proof (IH1 _ _ _ M K). destruct (run r1 st k); [discriminate|contradiction].
    + destruct (run r1 st k); [discriminate|]. apply (IH2 st st'); assumption.
  - apply inv_opt in M. unfold run; simpl; fold run. destruct M as [M| ->].
    + pose proof (IH1 _ _ _ M K). destruct (run r1 st k); [discriminate|contradiction].
    + destruct (run r1 st k); [discriminate|assumption].
  - apply (@star_complete r1 k IH1) with (st' := st'); [lia|assumption|assumption].
  - apply inv_plus in M. destruct M as (b & M1 & MS).
    apply (IH1 st b); [assumption|].
    apply (@star_complete r1 k IH1) with (st' := st'); [lia|assumption|assumption].
  - apply inv_bound in M. destruct M as [-> B].
    unfold run; simpl. rewrite B. exact K.
  - apply inv_group in M. destruct M as (b & M1 & ->).
    apply (IH1 st b); [assumption|exact K].
Qed.

End Semantics.

Section More.
Variable ceq : cp -> cp -> bool.
Variable isword : cp -> bool.

Let matches := matches ceq isword.

(** [match_at] and [search] against the declarative matches. *)
Lemma match_at_some r bef aft st :
  match_at ceq isword r bef aft = Some st -> matches r (start_state bef aft) st.
Proof.
  unfold match_at. intros H. apply m_sound in H.
  destruct H as (st' & M & E). injection E as <-. exact M.
Qed.

Lemma match_at_none r bef aft :
  match_at ceq isword r bef aft = None ->
  forall st, ~ matches r (start_state bef aft) st.
Proof.
  unfold match_at. intros H st M.
  apply (@m_complete ceq isword r _ _ Some M); [discriminate|exact H].
Qed.

(** [search] finds a match at the first position that has one. *)
Lemma search_go_some r : forall aft bef b st,
  search_go ceq isword r bef aft = Some (b, st) ->
  exists pre suf, aft = pre ++ suf /\ b = rev pre ++ bef
    /\ matches r (start_state b suf) st
    /\ forall pre' suf' st', aft = pre' ++ suf' ->
         (List.length pre' < List.length pre)%nat ->
         ~ matches r (start_state (rev pre' ++ bef) suf') st'.
Proof.
  induction aft as [|c rest IH]; intros bef b st H; simpl in H.
  - destruct (match_at ceq isword r bef []) eqn:E; [|discriminate].
    injection H as <- <-. exists [], []. repeat split; auto.
    + now apply match_at_some.
    + simpl. intros; lia.
  - destruct (match_at ceq isword r bef (c :: rest)) eqn:E.
    + injection H as <- <-. exists [], (c :: rest). repeat split; auto.
      * now apply match_at_some.
      * simpl. intros; lia.
    + apply IH in H. destruct H as (pre & suf & -> & -> & M & First).
      assert (Eb : rev pre ++ c :: bef = rev (c :: pre) ++ bef)
        by (simpl; now rewrite <- app_assoc).
      exists (c :: pre), suf. split; [reflexivity|]. split; [exact Eb|].
      split; [exact M|].
      intros pre' suf' st' E' L. destruct pre' as [|c' pre'].
      * simpl in E'. subst suf'. simpl. now apply match_at_none.
      * simpl in E'. injection E' as <- E'. simpl. rewrite <- app_assoc.
        apply First; [assumption|simpl in L; lia].
Qed.

Lemma search_go_none r : forall aft bef,
  search_go ceq isword r bef aft = None ->
  forall pre suf st, aft = pre ++ suf ->
    ~ matches r (start_state (rev pre ++ bef) suf) st.
Proof.
  induction aft as [|c rest IH]; intros bef H pre suf st E; simpl in H.
  - destruct (match_at ceq isword r bef []) eqn:E0; [discriminate|].
    symmetry in E. apply app_eq_nil in E. destruct E as [-> ->].
    now apply match_at_none.
  - destruct (match_at ceq isword r bef (c :: rest)) eqn:E0; [discriminate|].
    destruct pre as [|c' pre].
    + simpl in E. subst suf. now apply match_at_none.
    + simpl in E. injection E as <- E. simpl. rewrite <- app_assoc.
      now apply IH.
Qed.

(** How a run of class characters moves the matcher. *)
Definition moved (w : str) (a b : mstate) : Prop :=
  after a = w ++ after b /\ before b = rev w ++ before a /\ groups b = groups a.

Lemma moved_nil a : moved [] a a.
Proof. repeat split. Qed.

Lemma moved_app w1 w2 a b c : moved w1 a b -> moved w2 b c -> moved (w1 ++ w2) a c.
Proof.
  intros (A1 & B1 & G1) (A2 & B2 & G2). repeat split.
  - rewrite A1, A2. now rewrite app_assoc.
  - rewrite B2, B1, rev_app_distr. now rewrite app_assoc.
  - congruence.
Qed.

Lemma moved_next a x rest : after a = x :: rest -> moved [x] a (next a x rest).
Proof. intros E. repeat split; assumption. Qed.

Lemma cls_moved p a b :
  matches (Cls p) a b -> exists x, p x = true /\ moved [x] a b.
Proof.
  intros M. apply inv_cls in M. destruct M as (x & rest & E & P & ->).
  exists x. split; [assumption|now apply moved_next].
Qed.

Lemma star_cls_moved p a c :
  matches (Star (Cls p)) a c -> exists w, forallb p w = true /\ moved w a c.
Proof.
  intros M. remember (Star (Cls p)) as r eqn:Er. revert Er.
  unfold matches in M.
  induction M; intros Er; try discriminate.
  - exists []. split; [reflexivity|apply moved_nil].
  - injection Er as ->. destruct (cls_moved M1) as (x & P & Mv).
    destruct (IHM2 eq_refl) as (w & F & Mv2).
    exists (x :: w). split; [simpl; now rewrite P|].
    change (x :: w) with ([x] ++ w). eapply moved_app; eassumption.
Qed.

Lemma plus_cls_moved p a c :
  matches (Plus (Cls p)) a c ->
  exists w, w <> [] /\ forallb p w = true /\ moved w a c.
Proof.
  intros M. apply inv_plus in M. destruct M as (b & M1 & MS).
  destruct (cls_moved M1) as (x & P & Mv).
  destruct (star_cls_moved MS) as (w & F & Mv2).
  exists (x :: w). split; [discriminate|]. split; [simpl; now rewrite P|].
  change (x :: w) with ([x] ++ w). eapply moved_app; eassumption.
Qed.

Lemma star_cls_intro p : forall w a rest,
  forallb p w = true -> after a = w ++ rest ->
  exists c, matches (Star (Cls p)) a c /\ moved w a c /\ after c = rest.
Proof.
  induction w as [|x w IH]; intros a rest F E.
  - exists a. split; [apply M_StarNil|]. split; [apply moved_nil|assumption].
  - simpl in F. apply andb_true_iff in F. destruct F as [P F].
    simpl in E.
    destruct (IH (next a x (w ++ rest)) rest F eq_refl) as (c & MS & Mv & Ec).
    exists c. split; [|split].
    + eapply M_StarCons; [apply M_Cls; eassumption| |exact MS].
      unfold shorter. simpl. rewrite E. simpl. apply Nat.ltb_lt. lia.
    + change (x :: w) with ([x] ++ w). eapply moved_app; [|exact Mv].
      now apply moved_next.
    + exact Ec.
Qed.

Lemma plus_cls_intro p w a rest :
  w <> [] -> forallb p w = true -> after a = w ++ rest ->
  exists c, matches (Plus (Cls p)) a c /\ moved w a c /\ after c = rest.
Proof.
  destruct w as [|x w]; [congruence|]. intros _ F E.
  simpl in F. apply andb_true_iff in F. destruct F as [P F]. simpl in E.
  destruct (@star_cls_intro p w (next a x (w ++ rest)) rest F eq_refl)
    as (c & MS & Mv & Ec).
  exists c. split; [|split].
  - eapply M_Plus; [apply M_Cls; eassumption|exact MS].
  - change (x :: w) with ([x] ++ w). eapply moved_app; [|exact Mv].
    now apply moved_next.
  - exact Ec.
Qed.

Lemma alts_inv rs a b :
  matches (alts rs) a b -> exists r, In r rs /\ matches r a b.
Proof.
  induction rs as [|r [|r' rs] IH]; intros M.
  - apply inv_cls in M. destruct M as (? & ? & _ & F & _). discriminate.
  - exists r. split; [now left|assumption].
  - change (alts (r :: r' :: rs)) with (Alt r (alts (r' :: rs))) in M.
    apply inv_alt in M. destruct M as [M|M].
    + exists r. split; [now left|assumption].
    + destruct (IH M) as (r0 & I & M0). exists r0. split; [now right|assumption].
Qed.

Lemma alts_intro rs : forall r a b,
  In r rs -> matches r a b -> matches (alts rs) a b.
Proof.
  induction rs as [|r0 [|r' rs] IH]; intros r a b I M.
  - destruct I.
  - destruct I as [->|[]]. exact M.
  - change (alts (r0 :: r' :: rs)) with (Alt r0 (alts (r' :: rs))).
    destruct I as [->|I].
    + now apply M_AltL.
    + apply M_AltR. eapply IH; eassumption.
Qed.

End More.

Section Literal.
Variable isword : cp -> bool.
Let matches := matches N.eqb isword.

Lemma lits_moved : forall w a b,
  w <> [] -> matches (lits w) a b -> moved w a b.
Proof.
  induction w as [|x [|y w] IH]; intros a b NE M; [congruence| |].
  - simpl in M. apply inv_lit in M. destruct M as (x' & rest & E & P & ->).
    apply N.eqb_eq in P. subst x'. now apply moved_next.
  - change (lits (x :: y :: w)) with (Cat (Lit x) (lits (y :: w))) in M.
    apply inv_cat in M. destruct M as (c & M1 & M2).
    apply inv_lit in M1. destruct M1 as (x' & rest & E & P & ->).
    apply N.eqb_eq in P. subst x'.
    change (x :: y :: w) with ([x] ++ y :: w).
    eapply moved_app; [apply moved_next; eassumption|].
    apply IH; [discriminate|exact M2].
Qed.

Lemma lits_intro : forall w a rest,
  w <> [] -> after a = w ++ rest ->
  exists c, matches (lits w) a c /\ moved w a c /\ after c = rest.
Proof.
  induction w as [|x [|y w] IH]; intros a rest NE E; [congruence| |].
  - exists (next a x rest). split; [|split].
    + simpl. apply M_Lit; [exact E|apply N.eqb_refl].
    + now apply moved_next.
    + reflexivity.
  - destruct (IH (next a x ((y :: w) ++ rest)) rest) as (c & M & Mv & Ec);
      [discriminate|reflexivity|].
    exists c. split; [|split].
    + change (lits (x :: y :: w)) with (Cat (Lit x) (lits (y :: w))).
      eapply M_Cat; [apply M_Lit; [exact E|apply N.eqb_refl]|exact M].
    + change (x :: y :: w) with ([x] ++ y :: w).
      eapply moved_app; [apply moved_next; eassumption|exact Mv].
    + exact Ec.
Qed.

End Literal.

End ReFacts.

(* ===================================================================== *)
(** * [parse_duration] *)
(* ===================================================================== *)

Import Re ReFacts TaskParser.
Local Open Scope Z_scope.

(** The units of a duration and their minutes. *)
Definition DURATION_UNITS : list (string * Z) :=
  [("dakika", 1); ("dk", 1); ("saat", 60); ("gün", 1440); ("gun", 1440)]%string.

(** The integer a run of decimal digits denotes. *)
Definition decimal_value (U : unicode) (ds : str) : Z :=
  fold_left (fun acc c => acc * 10 + match decimal U c with Some v => v | None => 0 end)
            ds 0.

(** [pair_at U s digits minutes]: [s] begins with an [<integer> <unit>] pair,
    digits, optional whitespace and a unit; the integer is written with
    [digits] digits and the pair is worth [minutes]. *)
Inductive pair_at (U : unicode) : str -> nat -> Z -> Prop :=
| pair_at_intro ds ws unit factor rest :
    ds <> [] ->
    forallb (isdigit U) ds = true ->
    forallb (isspace U) ws = true ->
    In (unit, factor) DURATION_UNITS ->
    pair_at U (ds ++ ws ++ py unit ++ rest) (List.length ds)
            (decimal_value U ds * factor).

(** No decimal digit is whitespace or a sign. *)
Definition plain_digits (U : unicode) : Prop :=
  forall c v, decimal U c = Some v ->
    isspace U c = false /\ c <> 45%N /\ c <> 43%N.

Lemma digits_value_run U : forall ds acc nd,
  forallb (isdigit U) ds = true -> (ds <> [] \/ nd = false) ->
  digits_value U ds acc nd
  = Some (fold_left (fun a c => a * 10 + match decimal U c with Some v => v | None => 0 end)
                    ds acc).
Proof.
  induction ds as [|c ds IH]; intros acc nd F H.
  - destruct H as [H| ->]; [congruence|reflexivity].
  - simpl in F. apply andb_true_iff in F. destruct F as [D F].
    unfold isdigit in D. simpl. destruct (decimal U c) as [v|]; [|discriminate].
    apply IH; auto.
Qed.

Lemma lstrip_head sp c s : sp c = false -> lstrip sp (c :: s) = c :: s.
Proof. intros H. simpl. now rewrite H. Qed.

Lemma strip_digits U ds :
  plain_digits U -> forallb (isdigit U) ds = true -> strip (isspace U) ds = ds.
Proof.
  intros PD F.
  assert (NS : forall c, In c ds -> isspace U c = false).
  { intros c I. rewrite forallb_forall in F. specialize (F c I).
    unfold isdigit in F. destruct (decimal U c) eqn:E; [|discriminate].
    now destruct (PD c z E). }
  unfold strip, rstrip.
  assert (L : lstrip (isspace U) ds = ds).
  { destruct ds as [|c r]; [reflexivity|]. apply lstrip_head. apply NS. now left. }
  rewrite L.
  destruct (rev ds) as [|c r] eqn:E.
  - simpl. apply (f_equal (@rev cp)) in E. rewrite rev_involutive in E. now rewrite E.
  - rewrite lstrip_head.
    + rewrite <- E. apply rev_involutive.
    + apply NS. apply in_rev. rewrite E. now left.
Qed.

Lemma count_digits_run U ds :
  forallb (isdigit U) ds = true -> count_digits U ds = Z.of_nat (List.length ds).
Proof.
  intros F. unfold count_digits. f_equal. f_equal.
  induction ds as [|c r IH]; [reflexivity|].
  cbn [forallb] in F. apply andb_true_iff in F. destruct F as [D F].
  cbn [filter]. rewrite D. cbn [List.length]. now rewrite IH.
Qed.

(** [int] of a run of digits: its value, unless the run is longer than
    [int_max_str_digits]. *)
Lemma py_int_digits U ds :
  plain_digits U -> ds <> [] -> forallb (isdigit U) ds = true ->
  py_int U ds
  = if int_max_str_digits <? Z.of_nat (List.length ds) then Raise ValueError
    else Ok (decimal_value U ds).
Proof.
  intros PD NE F. unfold py_int. rewrite (@strip_digits U ds PD F).
  destruct ds as [|c r]; [congruence|].
  assert (D : exists v, decimal U c = Some v).
  { simpl in F. apply andb_true_iff in F. destruct F as [D _].
    unfold isdigit in D. destruct (decimal U c); [eauto|discriminate]. }
  destruct D as (v & D). destruct (PD c v D) as (_ & N1 & N2).
  apply N.eqb_neq in N1, N2. rewrite N1, N2.
  rewrite (@digits_value_run U (c :: r) 0 true F); [|left; discriminate].
  rewrite (@count_digits_run U (c :: r) F). reflexivity.
Qed.

Lemma consumed_moved w a b : moved w a b -> consumed a b = w.
Proof.
  intros (_ & B & _). unfold consumed. rewrite B, length_app, length_rev.
  replace (List.length w + List.length (before a) - List.length (before a))%nat
    with (List.length (rev w) + 0)%nat by (rewrite length_rev; lia).
  rewrite firstn_app_2. simpl. rewrite app_nil_r. apply rev_involutive.
Qed.

Section Duration.

Variable U : unicode.
Let matches := matches N.eqb (isword U).

Lemma unit_nonempty unit factor : In (unit, factor) DURATION_UNITS -> py unit <> [].
Proof.
  intros I. simpl in I.
  repeat (destruct I as [I|I]; [injection I as <- <-; vm_compute; discriminate|]).
  destruct I.
Qed.

(** The shape of a match of [duration_re]. *)
Lemma duration_match_inv bef suf st :
  matches (duration_re U) (start_state bef suf) st ->
  exists ds ws unit factor rest,
    suf = ds ++ ws ++ py unit ++ rest
    /\ ds <> [] /\ forallb (isdigit U) ds = true
    /\ forallb (isspace U) ws = true
    /\ In (unit, factor) DURATION_UNITS
    /\ group 1 st = Some ds /\ group 2 st = Some (py unit).
Proof.
  intros M. unfold duration_re in M.
  apply inv_cat in M. destruct M as (b1 & M1 & M).
  apply inv_group in M1. destruct M1 as (b0 & M1 & ->).
  apply plus_cls_moved in M1. destruct M1 as (ds & NE & FD & Mv1).
  apply inv_cat in M. destruct M as (b2 & M2 & M).
  apply star_cls_moved in M2. destruct M2 as (ws & FW & Mv2).
  apply inv_group in M. destruct M as (b3 & M3 & ->).
  unfold words in M3. apply alts_inv in M3. destruct M3 as (r & I & M3).
  apply in_map_iff in I. destruct I as (unit & <- & I).
  assert (IU : exists factor, In (unit, factor) DURATION_UNITS).
  { simpl in I. simpl.
    repeat (destruct I as [<-|I]; [eexists; eauto 10|]). destruct I. }
  destruct IU as (factor & IU).
  apply lits_moved in M3; [|exact (@unit_nonempty unit factor IU)].
  exists ds, ws, unit, factor, (after b3).
  destruct Mv1 as (A1 & B1 & G1). destruct Mv2 as (A2 & B2 & G2).
  destruct M3 as (A3 & B3 & G3). simpl in *.
  repeat split; try assumption.
  - rewrite A1, A2, A3. reflexivity.
  - unfold group. simpl. rewrite G3, G2. simpl.
    f_equal. apply consumed_moved. repeat split; assumption.
  - unfold group. simpl. f_equal. apply consumed_moved. repeat split; assumption.
Qed.

(** Where a pair begins, [duration_re] matches. *)
Lemma pair_matches suf digits minutes bef :
  pair_at U suf digits minutes ->
  exists st, matches (duration_re U) (start_state bef suf) st.
Proof.
  intros P. destruct P as [ds ws unit factor rest NE FD FW IU].
  destruct (@plus_cls_intro N.eqb (isword U) (isdigit U) ds
              (start_state bef (ds ++ ws ++ py unit ++ rest)) (ws ++ py unit ++ rest)
              NE FD eq_refl) as (b0 & M1 & _ & A0).
  set (b1 := set_group 1 (start_state bef (ds ++ ws ++ py unit ++ rest)) b0).
  destruct (@star_cls_intro N.eqb (isword U) (isspace U) ws b1 (py unit ++ rest)
              FW A0) as (b2 & M2 & _ & A2).
  destruct (@lits_intro (isword U) (py unit) b2 rest (@unit_nonempty unit factor IU) A2)
    as (b3 & M3 & _ & _).
  exists (set_group 2 b2 b3). unfold duration_re.
  eapply M_Cat; [apply M_Group; exact M1|].
  eapply M_Cat; [exact M2|].
  apply M_Group. unfold words.
  apply alts_intro with (r := lits (py unit)); [|exact M3].
  apply in_map_iff. exists unit. split; [reflexivity|].
  simpl in IU. simpl.
  repeat (destruct IU as [IU|IU]; [injection IU as <- <-; auto 10|]). destruct IU.
Qed.

End Duration.

Lemma unit_minutes unit factor (value : Z) :
  In (unit, factor) DURATION_UNITS ->
  (if Str.eqb (py unit) (py "dakika") || Str.eqb (py unit) (py "dk")
   then Ok (Some value)
   else if Str.eqb (py unit) (py "saat") then Ok (Some (value * 60))
   else if Str.eqb (py unit) (py "gün") || Str.eqb (py unit) (py "gun")
   then Ok (Some (value * 60 * 24))
   else Ok None)
  = Ok (Some (value * factor)).
Proof.
  intros I. simpl in I.
  repeat (destruct I as [I|I];
          [injection I as <- <-;
           match goal with
           | |- (if ?b then _ else _) = _ =>
             let v := eval vm_compute in b in change b with v; cbv iota
           end;
           repeat match goal with
           | |- (if ?b then _ else _) = _ =>
             let v := eval vm_compute in b in change b with v; cbv iota
           end;
           do 2 f_equal; lia|]).
  destruct I.
Qed.

(** [parse_duration] against the pairs of the lowercased text: the pair at
    the first position that has one decides. Its minutes are returned when
    its integer has at most [int_max_str_digits] digits, and [int] raises
    [ValueError] when it has more; there is no match when no position has a
    pair. *)
Lemma parse_duration_first_pair (W : world) (text : str) :
  plain_digits (tables W) ->
  (exists pre suf digits minutes,
      lower (tables W) text = pre ++ suf
      /\ pair_at (tables W) suf digits minutes
      /\ (forall pre' suf' digits' minutes',
             lower (tables W) text = pre' ++ suf' ->
             (List.length pre' < List.length pre)%nat ->
             ~ pair_at (tables W) suf' digits' minutes')
      /\ (Z.of_nat digits <= int_max_str_digits ->
          parse_duration W text = Ok (Some minutes))
      /\ (int_max_str_digits < Z.of_nat digits ->
          parse_duration W text = Raise ValueError))
  \/ ((forall pre suf digits minutes,
          lower (tables W) text = pre ++ suf -> ~ pair_at (tables W) suf digits minutes)
      /\ parse_duration W text = Ok None).
Proof.
  intros PD. unfold parse_duration, search.
  set (U := tables W). set (t := lower U text).
  destruct (search_go N.eqb (isword U) (duration_re U) [] t) as [[b st]|] eqn:S.
  - left. apply search_go_some in S.
    destruct S as (pre & suf & Et & Eb & M & First).
    destruct (@duration_match_inv U b suf st M)
      as (ds & ws & unit & factor & rest & Es & NE & FD & FW & IU & G1 & G2).
    exists pre, suf, (List.length ds), (decimal_value U ds * factor).
    split; [exact Et|]. split; [rewrite Es; now constructor|]. split.
    + intros pre' suf' digits' minutes' E' L P.
      destruct (@pair_matches U suf' digits' minutes' (rev pre' ++ []) P) as (st' & M').
      exact (First pre' suf' st' E' L M').
    + rewrite G1, G2. rewrite (@py_int_digits U ds PD NE FD).
      split; intros Len.
      * apply Z.ltb_ge in Len. rewrite Len. cbn [bind]. now apply unit_minutes.
      * apply Z.ltb_lt in Len. rewrite Len. reflexivity.
  - right. split; [|reflexivity].
    intros pre suf digits minutes E P.
    destruct (@pair_matches U suf digits minutes (rev pre ++ []) P) as (st' & M').
    exact (@search_go_none N.eqb (isword U) (duration_re U) t [] S pre suf st' E M').
Qed.

(* ===================================================================== *)
(** * [parse_task_text] *)
(* ===================================================================== *)

Import Str Datetime Utils TaskService TelegramBot.

Lemma str_eqb_refl (s : str) : Str.eqb s s = true.
Proof. induction s as [|c s IH]; simpl; [reflexivity|]. now rewrite N.eqb_refl. Qed.

Lemma str_eqb_eq (a b : str) : Str.eqb a b = true -> a = b.
Proof.
  revert b. induction a as [|x a IH]; intros [|y b] H; simpl in H; try discriminate.
  - reflexivity.
  - apply andb_true_iff in H. destruct H as [H1 H2].
    apply N.eqb_eq in H1. f_equal; auto.
Qed.

Lemma lstrip_all_space sp s : forallb sp s = true -> lstrip sp s = [].
Proof.
  induction s as [|c s IH]; simpl; intros H; [reflexivity|].
  apply andb_true_iff in H. destruct H as [H1 H2]. rewrite H1. auto.
Qed.

Lemma strip_all_space sp s : forallb sp s = true -> strip sp s = [].
Proof. intros H. unfold strip, rstrip. now rewrite (lstrip_all_space sp s H). Qed.

Lemma last_found_app (l : list (str * datetime)) x : last_found (l ++ [x]) = Some x.
Proof.
  induction l as [|y l IH]; [reflexivity|].
  simpl. destruct (l ++ [x]) eqn:E; [destruct l; discriminate|exact IH].
Qed.

(** C10: when [search_dates] finds a date phrase and replacing every
    occurrence of the last phrase found leaves only whitespace,
    [parse_task_text] returns as title the whole message text, stripped of
    surrounding whitespace (the date phrase included, and without
    [_strip_filler]), with the instant of that phrase. *)
Theorem parse_task_text_only_a_date (W : world) (text : str) (now : datetime)
        (earlier : list (str * datetime)) (phrase : str) (d : datetime) :
  search_dates W text now = Some (earlier ++ [(phrase, d)]) ->
  forallb (isspace (tables W)) (Str.replace text phrase (py " ")) = true ->
  parse_task_text W text now
  = Ok (strip (isspace (tables W)) text, Some (with_zone W d)).
Proof.
  intros F S. unfold parse_task_text. rewrite F, last_found_app.
  rewrite (strip_all_space _ _ S). reflexivity.
Qed.

(** A [dateparser] that finds "yarın 15:00" twice in a text that holds
    nothing else. *)
Definition date_only_world : world :=
  Demo.world_with
    [("  yarın 15:00 yarın 15:00 ",
      [("yarın 15:00", instant 2026 11 5 15 0 0);
       ("yarın 15:00", instant 2026 11 5 15 0 0)])]%string.

(** The text is the phrase twice, with blanks around. *)
Lemma parse_task_text_only_a_date_witness :
  parse_task_text date_only_world (py "  yarın 15:00 yarın 15:00 ")
                  (instant 2026 11 4 10 30 45)
  = Ok (py "yarın 15:00 yarın 15:00", Some (instant 2026 11 5 15 0 0)).
Proof.
  apply (@parse_task_text_only_a_date date_only_world
           (py "  yarın 15:00 yarın 15:00 ") (instant 2026 11 4 10 30 45)
           [(py "yarın 15:00", instant 2026 11 5 15 0 0)]
           (py "yarın 15:00") (instant 2026 11 5 15 0 0)).
  - vm_compute. reflexivity.
  - vm_compute. reflexivity.
Defined.

(* ===================================================================== *)
(** * [handle_message] *)
(* ===================================================================== *)

(** The row [create_task] inserts, and the database with it. *)
Definition new_task (d : db) (title : str) (due_iso : option str) (created_iso : str)
           (source : str) (notes : option str) : task :=
  {| id := tasks_seq d + 1; title := title; due_at := due_iso;
     created_at := created_iso; status := py "pending";
     source := Some source; reminded_at := None; notes := notes |}.

Definition inserted (d : db) (row : task) : db :=
  {| tasks := tasks d ++ [row]; tasks_seq := tasks_seq d + 1;
     pending_tasks := pending_tasks d; pending_seq := pending_seq d;
     goals := goals d; goals_seq := goals_seq d; settings := settings d |}.

(** The conversion of an optional due time. *)
Definition due_value (W : world) (due : option datetime) : result (option str) :=
  match due with
  | Some due_at => bind (to_utc_iso W due_at) (fun iso => Ok (Some iso))
  | None => Ok None
  end.

Lemma ok_inv (A B : Type) (a a' : A) (b b' : B) :
  @Ok (A * B) (a, b) = Ok (a', b') -> a = a' /\ b = b'.
Proof. intros H. injection H as -> ->. auto. Qed.


Lemma create_task_inv (W : world) (d : db) (title : str) (due : option datetime)
      (source : str) (notes : option str) (now : datetime) (d2 : db) (i : Z) :
  create_task W d title due source notes now = Ok (d2, i) ->
  exists due_iso now_iso,
    due_value W due = Ok due_iso /\ to_utc_iso W now = Ok now_iso
    /\ d2 = inserted d (new_task d title due_iso now_iso source notes)
    /\ i = tasks_seq d + 1.
Proof.
  unfold create_task. fold (due_value W due).
  destruct (due_value W due) as [due_iso|e]; [|discriminate]. cbn [bind].
  destruct (to_utc_iso W now) as [now_iso|e]; [|discriminate]. cbn [bind].
  intros H. apply ok_inv in H. destruct H as [<- <-].
  exists due_iso, now_iso. auto.
Qed.

Lemma due_value_some (W : world) (due : datetime) (r : option str) :
  due_value W (Some due) = Ok r -> exists iso, to_utc_iso W due = Ok iso /\ r = Some iso.
Proof.
  unfold due_value. destruct (to_utc_iso W due) as [iso|e]; [|discriminate].
  cbn [bind]. intros H. injection H as <-. eauto.
Qed.

Section Handler.

Variable W : world.

(** ** The replies of each branch *)

Lemma date_answer_cases (d : db) (p : pending_task) (text : str) (now nw : datetime)
      (d2 : db) (r : reply) :
  date_answer W d p text now nw = Ok (d2, r) ->
  (exists t, parse_task_text W text now = Ok (t, None)
             /\ d2 = d /\ r = DateNotUnderstood)
  \/ (exists t due due_iso nw_iso,
        parse_task_text W text now = Ok (t, Some due)
        /\ to_utc_iso W due = Ok due_iso /\ to_utc_iso W nw = Ok nw_iso
        /\ d2 = clear_pending_task
                  (inserted d (new_task d (pending_title p) (Some due_iso) nw_iso
                                        (py "telegram") None))
                  (pending_id p)
        /\ r = Saved (pending_title p) due).
Proof.
  unfold date_answer. destruct (parse_task_text W text now) as [[t [due|]]|e];
    cbn [bind snd]; intros H; try discriminate.
  - destruct (create_task W d (pending_title p) (Some due) (py "telegram") None nw)
      as [[d1 i]|e] eqn:Ec; [|discriminate].
    cbn [bind fst] in H. apply ok_inv in H. destruct H as [<- <-].
    apply create_task_inv in Ec. destruct Ec as (di & ni & D & N & -> & _).
    apply due_value_some in D. destruct D as (iso & D & ->).
    right. exists t, due, iso, ni. auto.
  - apply ok_inv in H. destruct H as [<- <-]. left. exists t. auto.
Qed.







(** ** The conversation key *)

Definition CHAT_KEY : str := py "telegram_chat_id".

Definition stored_chat (d : db) : option str := get_setting (settings d) CHAT_KEY.

Lemma get_upsert (rows : list (str * str)) (k v : str) :
  get_setting (upsert rows k v) k = Some v.
Proof.
  induction rows as [|[k' v'] rows IH]; simpl.
  - now rewrite str_eqb_refl.
  - destruct (Str.eqb k' k) eqn:E; simpl; rewrite E; [reflexivity|exact IH].
Qed.

(** [_get_chat_id] only touches the settings. *)
Lemma get_chat_id_frame (d : db) (u : update) :
  tasks (fst (_get_chat_id d u)) = tasks d
  /\ tasks_seq (fst (_get_chat_id d u)) = tasks_seq d
  /\ pending_tasks (fst (_get_chat_id d u)) = pending_tasks d
  /\ pending_seq (fst (_get_chat_id d u)) = pending_seq d.
Proof.
  unfold _get_chat_id.
  destruct (get_setting (settings d) (py "telegram_chat_id")) as [[|c s]|];
    simpl; auto.
Qed.

Lemma get_chat_id_cases (d : db) (u : update) :
  (exists c s, stored_chat d = Some (c :: s) /\ _get_chat_id d u = (d, c :: s))
  \/ ((stored_chat d = None \/ stored_chat d = Some [])
      /\ _get_chat_id d u
         = (set_setting d CHAT_KEY (effective_chat u), effective_chat u)).
Proof.
  unfold stored_chat, _get_chat_id, CHAT_KEY.
  destruct (get_setting (settings d) (py "telegram_chat_id")) as [[|c s]|].
  - right. auto.
  - left. eauto.
  - right. auto.
Qed.

Lemma stored_after_set (d : db) (v : str) :
  stored_chat (set_setting d CHAT_KEY v) = Some v.
Proof. unfold stored_chat. simpl. apply get_upsert. Qed.

(** ** The pending slot *)






End Handler.









Lemma filter_length_le (A : Type) (f : A -> bool) (l : list A) :
  (List.length (filter f l) <= List.length l)%nat.
Proof.
  induction l as [|x l IH]; simpl; [lia|]. destruct (f x); simpl; lia.
Qed.

Lemma delete_request_db (W : world) (d : db) (text : str) (d2 : db) (r : reply) :
  delete_request W d text = Ok (d2, r) -> d2 = d.
Proof.
  unfold delete_request.
  destruct (re_search W id_re text) as [[b st]|].
  - destruct (py_int (tables W) (group1 st)) as [task_id|]; cbn [bind]; [|discriminate].
    destruct (sqlite_int task_id); cbn [bind]; [|discriminate].
    intros H. now apply ok_inv in H.
  - destruct (_find_task_candidates W d _ 5) as [|t [|t' l]]; intros H;
      now apply ok_inv in H.
Qed.

Lemma complete_request_db (W : world) (d : db) (text : str) (d2 : db) (r : reply) :
  complete_request W d text = Ok (d2, r) -> d2 = d.
Proof.
  unfold complete_request.
  destruct (re_search W id_re text) as [[b st]|].
  - destruct (py_int (tables W) (group1 st)) as [task_id|]; cbn [bind]; [|discriminate].
    destruct (sqlite_int task_id); cbn [bind]; [|discriminate].
    intros H. now apply ok_inv in H.
  - destruct (_find_task_candidates W d _ 5) as [|t [|t' l]]; intros H;
      now apply ok_inv in H.
Qed.

(** What [create_goal] returns differs from the database in its goals. *)
Lemma create_goal_inv (W : world) (d : db) (title : str) (year : Z) (now : datetime)
      (d2 : db) (i : Z) :
  create_goal W d title year now = Ok (d2, i) ->
  tasks d2 = tasks d /\ tasks_seq d2 = tasks_seq d
  /\ pending_tasks d2 = pending_tasks d /\ settings d2 = settings d.
Proof.
  unfold create_goal.
  destruct (to_utc_iso W now); cbn [bind]; [|discriminate].
  destruct (sqlite_int year); cbn [bind]; [|discriminate].
  intros H. apply ok_inv in H. destruct H as [<- _]. auto.
Qed.




Lemma existsb_app_true (A : Type) (f : A -> bool) (l1 l2 : list A) :
  existsb f l2 = true -> existsb f (l1 ++ l2) = true.
Proof. intros H. rewrite existsb_app, H. apply orb_true_r. Qed.

(** A match of the id pattern needs a backslash in the text. *)
Lemma id_re_needs_backslash (isw : cp -> bool) (bef suf : str) (st : mstate) :
  matches N.eqb isw id_re (start_state bef suf) st -> mem backslash suf = true.
Proof.
  unfold id_re. intros M.
  apply inv_cat in M. destruct M as (b1 & M1 & M).
  apply inv_group in M. destruct M as (b2 & M & _).
  apply inv_cat in M. destruct M as (b3 & M & _).
  apply inv_lit in M. destruct M as (x & rest & E & P & _).
  assert (B : mem backslash (after b1) = true).
  { rewrite E. unfold mem. cbn [existsb]. rewrite P. reflexivity. }
  apply inv_opt in M1. destruct M1 as [M1| ->]; [|exact B].
  apply inv_lit in M1. destruct M1 as (y & rest' & E' & _ & ->).
  cbn [start_state after next] in E', B. subst suf.
  unfold mem in *. cbn [existsb]. rewrite B. apply orb_true_r.
Qed.

Lemma id_search_none (W : world) (text : str) :
  mem backslash text = false -> re_search W id_re text = None.
Proof.
  intros NB. unfold re_search, search.
  destruct (search_go N.eqb (isword (tables W)) id_re [] text) as [[b st]|] eqn:S;
    [|reflexivity].
  apply search_go_some in S. destruct S as (pre & suf & E & _ & M & _).
  apply id_re_needs_backslash in M.
  subst text. unfold mem in *. pose proof (@existsb_app_true _ _ pre suf M) as X. change (existsb (N.eqb backslash) (pre ++ suf) = true) in X. rewrite NB in X. discriminate X.
Qed.

(** C1: an explicit id is not recognised. For every text without a
    backslash (so for every [#<id>] or bare digit token) the id pattern
    finds nothing, and a delete or completion request goes to candidate
    resolution with the residual query instead of confirming the id. *)
Theorem id_tokens_are_not_recognised (W : world) (d : db) (text : str) :
  mem backslash text = false ->
  delete_request W d text
  = (let candidates :=
       _find_task_candidates W d (_extract_action_query W text DELETE_WORDS) 5 in
     match candidates with
     | [t] => Ok (d, _send_delete_confirmation d (id t))
     | _ => Ok (d, _send_task_selection candidates (py "delete"))
     end)
  /\ complete_request W d text
     = (let candidates :=
          _find_task_candidates W d
            (_extract_action_query W text COMPLETE_ACTION_WORDS) 5 in
        match candidates with
        | [t] => Ok (d, _send_done_confirmation d (id t))
        | _ => Ok (d, _send_task_selection candidates (py "done"))
        end).
Proof.
  intros NB. unfold delete_request, complete_request.
  rewrite (id_search_none W text NB). split; reflexivity.
Qed.

(* ===================================================================== *)
(** * Concrete runs *)
(* ===================================================================== *)

(** A message of chat 42. *)
Definition message (text : string) : update :=
  {| effective_chat := py "42"; message_text := py text |}.

(** A message of another chat. *)
Definition from_chat (chat text : string) : update :=
  {| effective_chat := py chat; message_text := py text |}.

Definition open_task (i : Z) (t : string) (due : option string) : task :=
  {| id := i; title := py t; due_at := option_map py due;
     created_at := py "2026-11-01T09:00:00+00:00"; status := py "pending";
     source := Some (py "telegram"); reminded_at := None; notes := None |}.

(** Three open tasks, no pending draft. *)
Definition open_tasks : db :=
  {| tasks := [open_task 5 "Makale oku"%string None;
               open_task 7 "Danışman toplantısı"%string
                         (Some "2026-11-05T12:00:00+00:00"%string);
               open_task 9 "Tez bitti notu"%string None];
     tasks_seq := 9; pending_tasks := []; pending_seq := 0;
     goals := []; goals_seq := 0;
     settings := [(py "telegram_chat_id", py "42")] |}.

(** A [dateparser] that finds the one phrase "yarın 15:00". *)
Definition tomorrow_world : world :=
  Demo.world_with [("yarın 15:00", [("yarın 15:00", instant 2026 11 5 15 0 0)])]%string.

(** The draft of "sunum hazırla", and the database after it asked for a
    date. *)
Definition sunum_draft : pending_task :=
  {| pending_id := 1; chat_id := py "42"; pending_title := py "Sunum hazırla.";
     pending_created_at := py "2026-11-04T10:30:45" |}.

Definition awaiting_date : db :=
  {| tasks := tasks open_tasks; tasks_seq := 9;
     pending_tasks := [sunum_draft];
     pending_seq := 1; goals := []; goals_seq := 0;
     settings := [(py "telegram_chat_id", py "42")] |}.

Example arming :
  handle_message Demo.no_dates open_tasks (message "sunum hazırla")
                 (instant 2026 11 4 10 30 45) (instant 2026 11 4 10 30 46)
  = Ok (awaiting_date, AskWhen).
Proof. vm_compute. reflexivity. Qed.

(** ** C1 *)

(** "sil #5": both branches answer that nothing matches. *)
Lemma id_tokens_are_not_recognised_witness :
  delete_request Demo.no_dates open_tasks (py "sil #5") = Ok (open_tasks, NoMatch)
  /\ complete_request Demo.no_dates open_tasks (py "sil #5") = Ok (open_tasks, NoMatch).
Proof.
  apply (@id_tokens_are_not_recognised Demo.no_dates open_tasks (py "sil #5")).
  vm_compute. reflexivity.
Defined.

(** "sil #5" names task 5, which exists: the confirmation the message asks
    for is [ConfirmDelete 5], and the bot answers that nothing matches. *)
Example delete_by_id_finds_nothing :
  _send_delete_confirmation open_tasks 5 = ConfirmDelete 5 (py "Makale oku")
  /\ handle_message Demo.no_dates open_tasks (message "sil #5")
                    (instant 2026 11 4 10 30 45) (instant 2026 11 4 10 30 46)
     = Ok (open_tasks, NoMatch)
  /\ handle_message Demo.no_dates open_tasks (message "5 tamamlandı")
                    (instant 2026 11 4 10 30 45) (instant 2026 11 4 10 30 46)
     = Ok (open_tasks, NoMatch).
Proof. repeat split; vm_compute; reflexivity. Qed.

(** The id pattern matches a backslash followed by the letter d, and then
    [int] raises. *)
Example delete_backslash_d_raises :
  handle_message Demo.no_dates open_tasks (message "sil \d")
                 (instant 2026 11 4 10 30 45) (instant 2026 11 4 10 30 46)
  = Raise ValueError.
Proof. vm_compute. reflexivity. Qed.

(** ** C2 *)


(** The key is the stored chat, not the sender: chat 99 has no pending row
    of its own and sends a summary keyword while the draft of chat 42 is
    pending, and it is answered as a date answer. *)
Example summary_of_another_chat_is_a_date_answer :
  let W := Demo.no_dates in
  get_pending_task awaiting_date (py "99") = None
  /\ _is_summary_request W (py "özet") = true
  /\ handle_message W awaiting_date (from_chat "99" "özet")
                    (instant 2026 11 4 10 30 45) (instant 2026 11 4 10 30 46)
     = Ok (awaiting_date, DateNotUnderstood).
Proof. repeat split; vm_compute; reflexivity. Qed.


(** ** C3 *)



(** ** C6 *)





(** ** C4 *)

(** C4: the title "bana" is not empty, every word of it is a filler, and
    [_normalize_task_title] returns the empty string; "bana hatırlat" stores
    a pending draft with the empty title. *)
Theorem filler_only_title_is_empty :
  strip (isspace (tables Demo.no_dates)) (py "bana") = py "bana"
  /\ _normalize_task_title Demo.no_dates (py "bana") = []
  /\ _normalize_task_title Demo.no_dates [] = py "Görev."
  /\ exists d,
       handle_message Demo.no_dates open_tasks (message "bana hatırlat")
                      (instant 2026 11 4 10 30 45) (instant 2026 11 4 10 30 46)
       = Ok (d, AskWhen)
       /\ option_map pending_title (get_pending_task d (py "42")) = Some [].
Proof.
  split; [vm_compute; reflexivity|]. split; [vm_compute; reflexivity|].
  split; [vm_compute; reflexivity|].
  eexists. split; vm_compute; reflexivity.
Qed.

(** ** C5 *)

Section Split.

Variable isw : cp -> bool.
Variable sep : cp -> bool.

(** A match of [sep+] consumes at least one character. *)
Lemma plus_match_shorter (bef aft : str) (st : mstate) :
  match_at N.eqb isw (Plus (Cls sep)) bef aft = Some st ->
  (List.length (after st) < List.length aft)%nat.
Proof.
  intros H. apply match_at_some in H. apply plus_cls_moved in H.
  destruct H as (w & NE & _ & (A & _ & _)). cbn [start_state after] in A.
  rewrite A, length_app. destruct w; [congruence|simpl; lia].
Qed.

(** Where [sep+] does not match, the next character is no separator. *)
Lemma plus_no_match_head (bef : str) (c : cp) (rest : str) :
  match_at N.eqb isw (Plus (Cls sep)) bef (c :: rest) = None -> sep c = false.
Proof.
  intros H. destruct (sep c) eqn:E; [|reflexivity]. exfalso.
  destruct (@plus_cls_intro N.eqb isw sep [c] (start_state bef (c :: rest)) rest)
    as (st & M & _); [discriminate|simpl; now rewrite E|reflexivity|].
  exact (@match_at_none N.eqb isw _ _ _ H st M).
Qed.

(** The pieces [re.split] returns for [sep+] hold no separator. *)
Lemma split_go_pieces : forall fuel bef aft cur piece,
  (List.length aft < fuel)%nat ->
  forallb (fun c => negb (sep c)) cur = true ->
  In piece (split_go N.eqb isw fuel (Plus (Cls sep)) bef aft cur) ->
  forallb (fun c => negb (sep c)) piece = true.
Proof.
  induction fuel as [|f IH]; intros bef aft cur piece L C I; [lia|].
  assert (Crev : forallb (fun c => negb (sep c)) (rev cur) = true).
  { rewrite forallb_forall in *. intros x Hx. apply C. now apply in_rev. }
  simpl in I. destruct aft as [|c rest].
  - destruct I as [<-|[]]. exact Crev.
  - destruct (match_at N.eqb isw (Plus (Cls sep)) bef (c :: rest)) as [st|] eqn:E.
    + pose proof (plus_match_shorter _ _ E) as Sh.
      apply Nat.ltb_lt in Sh. rewrite Sh in I. apply Nat.ltb_lt in Sh.
      destruct I as [<-|I]; [exact Crev|].
      apply IH in I; [exact I|simpl in L, Sh; lia|reflexivity].
    + apply plus_no_match_head in E.
      apply IH in I; [exact I|simpl in L; lia|].
      simpl. now rewrite E.
Qed.

Lemma split_pieces (s piece : str) :
  In piece (split N.eqb isw (Plus (Cls sep)) s) ->
  forallb (fun c => negb (sep c)) piece = true.
Proof.
  unfold split. apply split_go_pieces; [lia|reflexivity].
Qed.

End Split.

Lemma dedup_subset (l : list str) (x : str) : In x (dedup l) -> In x l.
Proof.
  induction l as [|y l IH]; simpl; [auto|].
  destruct (existsb (Str.eqb y) l); simpl; intuition.
Qed.

(** Every token of [_tokenize] is made of the backslash, the letter w and
    the twelve Turkish letters only. *)
Lemma tokens_of_token_chars (W : world) (text token : str) :
  In token (_tokenize W text) ->
  forallb (fun c => mem c token_chars) token = true.
Proof.
  unfold _tokenize. intros I. apply dedup_subset in I.
  apply filter_In in I. destruct I as [I _].
  unfold separator_re in I. apply split_pieces in I.
  rewrite forallb_forall in *. intros c Hc. specialize (I c Hc).
  now apply negb_true_iff, negb_false_iff in I.
Qed.

(** The tokenizer the claim describes: the words of the lowercased text,
    split on non-word characters, longer than two characters. *)
Definition word_tokens (W : world) (text : str) : list str :=
  let U := tables W in
  dedup (filter (fun token => (2 <? List.length token)%nat)
                (Re.split N.eqb (isword U)
                          (Plus (Cls (fun c => negb (isword U c)))) (lower U text))).

(** The score the claim describes. *)
Definition claimed_score (W : world) (query : str) (t : task) : Z :=
  let title := lower (tables W) (TaskService.title t) in
  ((if contains title query then 3 else 0)
   + common (word_tokens W query) (word_tokens W title))%Z.

(** C5: the query "toplantısı danışman" shares two words with the title
    "Danışman toplantısı"; [_tokenize] finds no token in it, the task
    scores 0 and is dropped. *)
Theorem shared_words_score_nothing :
  let W := Demo.no_dates in
  let t := open_task 7 "Danışman toplantısı"%string None in
  let query := py "toplantısı danışman" in
  word_tokens W query = [py "toplantısı"; py "danışman"]
  /\ claimed_score W query t = 2%Z
  /\ _tokenize W query = []
  /\ score W query (_tokenize W query) t = 0%Z
  /\ find_in W [t] query 5 = [].
Proof. repeat split; vm_compute; reflexivity. Qed.

(** What does hold: an empty query returns the first rows unfiltered, and the
    substring bonus alone finds "danışman". *)
Example empty_query_returns_first_rows (W : world) (rows : list task) (limit : nat) :
  find_in W rows [] limit = firstn limit rows.
Proof. destruct rows; [now destruct limit|reflexivity]. Qed.

Example danisman_query :
  find_in Demo.no_dates
          [open_task 1 "Danışman toplantısı"%string None;
           open_task 2 "Market alışverişi"%string None] (py "danışman") 5
  = [open_task 1 "Danışman toplantısı"%string None].
Proof. vm_compute. reflexivity. Qed.

(** ** C7 *)

Lemma latin_plain_digits : plain_digits Latin.tables.
Proof.
  intros c v H. cbn [tables decimal Latin.tables] in H.
  unfold Latin.digit_value, Latin.is_digit in H.
  destruct ((48 <=? c)%N && (c <=? 57)%N) eqn:E; [|discriminate].
  apply andb_true_iff in E. destruct E as [E1 E2].
  apply N.leb_le in E1, E2.
  split; [|split; intros ->; lia].
  cbn [isspace Latin.tables]. unfold Latin.is_space.
  repeat match goal with
  | |- context [(?a <=? ?b)%N] =>
    first [ replace (a <=? b)%N with true by (symmetry; apply N.leb_le; lia)
          | replace (a <=? b)%N with false by (symmetry; apply N.leb_gt; lia) ]
  | |- context [(?a =? ?b)%N] =>
    replace (a =? b)%N with false by (symmetry; apply N.eqb_neq; lia)
  end.
  reflexivity.
Qed.

(** C7, as amended: [parse_duration] is decided by the first
    [<integer> <unit>] pair of the lowercased text. When the integer of that
    pair has at most [int_max_str_digits] (4300) digits the result is its
    minutes (the integer for minute units, times 60 for hours, times 1440
    for days); when it has more, [int] raises [ValueError]; and the result
    is no match exactly when the text has no such pair. In particular
    "2 saat" is 120, "30 dk" is 30, "1 gün" is 1440 and "banana" is no
    match. *)
Theorem parse_duration_minutes :
  (forall (W : world) (text : str),
      plain_digits (tables W) ->
      (exists pre suf digits minutes,
          lower (tables W) text = pre ++ suf
          /\ pair_at (tables W) suf digits minutes
          /\ (forall pre' suf' digits' minutes',
                 lower (tables W) text = pre' ++ suf' ->
                 (List.length pre' < List.length pre)%nat ->
                 ~ pair_at (tables W) suf' digits' minutes')
          /\ (Z.of_nat digits <= int_max_str_digits ->
              parse_duration W text = Ok (Some minutes))
          /\ (int_max_str_digits < Z.of_nat digits ->
              parse_duration W text = Raise ValueError))
      \/ ((forall pre suf digits minutes,
              lower (tables W) text = pre ++ suf ->
              ~ pair_at (tables W) suf digits minutes)
          /\ parse_duration W text = Ok None))
  /\ parse_duration Demo.no_dates (py "2 saat") = Ok (Some 120%Z)
  /\ parse_duration Demo.no_dates (py "30 dk") = Ok (Some 30%Z)
  /\ parse_duration Demo.no_dates (py "1 gün") = Ok (Some 1440%Z)
  /\ parse_duration Demo.no_dates (py "banana") = Ok None.
Proof.
  split; [exact parse_duration_first_pair|].
  repeat split; vm_compute; reflexivity.
Qed.

(** A run of the digit 1. *)
Definition ones (n : nat) : str := repeat 49%N n.

Lemma ones_lower (n : nat) :
  lower (tables Demo.no_dates) (ones n ++ py " dk") = ones n ++ py " dk".
Proof.
  induction n as [|n IH]; [vm_compute; reflexivity|].
  change (lower (tables Demo.no_dates)) with Latin.to_lower in *.
  unfold Latin.to_lower in *. cbn [ones repeat app flat_map]. fold (ones n).
  rewrite IH. reflexivity.
Qed.

Lemma ones_digits (n : nat) : forallb (isdigit (tables Demo.no_dates)) (ones n) = true.
Proof. induction n as [|n IH]; [reflexivity|]. cbn [ones repeat forallb]. exact IH. Qed.

Lemma ones_pair (n : nat) :
  (1 <= n)%nat ->
  pair_at (tables Demo.no_dates) (ones n ++ py " dk") n
          (decimal_value (tables Demo.no_dates) (ones n) * 1).
Proof.
  intros P.
  change (ones n ++ py " dk") with (ones n ++ [32%N] ++ py "dk" ++ []).
  rewrite <- (repeat_length 49%N n) at 2. fold (ones n).
  apply pair_at_intro.
  - destruct n; [lia|discriminate].
  - apply ones_digits.
  - reflexivity.
  - right. left. reflexivity.
Qed.

(** A run of digits at the head of the text is a part of the ones. *)
Lemma digits_of_ones : forall (n : nat) (ds more : str),
  ds ++ more = ones n ++ py " dk" ->
  forallb (isdigit (tables Demo.no_dates)) ds = true ->
  (List.length ds <= n)%nat
  /\ ((List.length ds < n)%nat -> exists more', more = 49%N :: more').
Proof.
  induction n as [|n IH]; intros ds more E F.
  - destruct ds as [|c ds]; [cbn; split; [lia|lia]|].
    cbn [ones repeat app] in E. injection E as -> _. discriminate F.
  - destruct ds as [|c ds].
    + cbn [app] in E. subst more. cbn [List.length]. split; [lia|].
      intros _. cbn [ones repeat app]. eauto.
    + cbn [ones repeat app] in E. injection E as -> E. fold (ones n) in E.
      cbn [forallb] in F. apply andb_true_iff in F. destruct F as [_ F].
      destruct (IH ds more E F) as [L M]. cbn [List.length]. split; [lia|].
      intros Lt. apply M. lia.
Qed.

(** [parse_duration] of [n] ones and " dk": the pair is the whole text, and
    the number of its digits decides. *)
Lemma ones_then_dk (n : nat) :
  (1 <= n)%nat ->
  (Z.of_nat n <= int_max_str_digits ->
   exists minutes, parse_duration Demo.no_dates (ones n ++ py " dk") = Ok (Some minutes))
  /\ (int_max_str_digits < Z.of_nat n ->
      parse_duration Demo.no_dates (ones n ++ py " dk") = Raise ValueError).
Proof.
  intros P.
  destruct (@parse_duration_first_pair Demo.no_dates (ones n ++ py " dk")
              latin_plain_digits)
    as [(pre & suf & digits & minutes & E & Pa & First & R & R')|[NoPair _]].
  2:{ exfalso.
      eapply (NoPair [] (ones n ++ py " dk") n); [apply ones_lower|exact (ones_pair P)]. }
  rewrite ones_lower in E, First.
  assert (pre = []) as ->.
  { destruct pre as [|c pre]; [reflexivity|]. exfalso.
    eapply (First [] (ones n ++ py " dk") n);
      [reflexivity|cbn; lia|exact (ones_pair P)]. }
  cbn [app] in E. subst suf.
  assert (digits = n) as ->.
  { inversion Pa as [ds ws unit factor rest NE FD FW IU Es Ed Em].
    destruct (digits_of_ones n ds (ws ++ py unit ++ rest) Es FD) as [Le Next].
    destruct (Nat.eq_dec (List.length ds) n) as [Eq|Ne]; [exact Eq|]. exfalso.
    destruct Next as (more' & M); [lia|].
    destruct ws as [|c ws].
    - cbn [app] in M. cbn in IU.
      repeat (destruct IU as [IU|IU];
              [injection IU as <- <-; vm_compute in M; discriminate M|]).
      destruct IU.
    - cbn [app] in M. injection M as -> _. discriminate FW. }
  split.
  - intros Short. exists minutes. now apply R.
  - exact R'.
Qed.

(** C7, the counterexample: the digit 1 written 4301 times, then " dk". The
    text is a pair, and [int] refuses its integer; with 4300 digits the
    minutes are returned. *)
Lemma long_integer_raises :
  parse_duration Demo.no_dates (ones 4301 ++ py " dk") = Raise ValueError
  /\ exists minutes,
       parse_duration Demo.no_dates (ones 4300 ++ py " dk") = Ok (Some minutes).
Proof.
  split.
  - apply (@ones_then_dk 4301); [apply Nat.leb_le; reflexivity|].
    apply Z.ltb_lt. reflexivity.
  - apply (@ones_then_dk 4300); [apply Nat.leb_le; reflexivity|].
    apply Z.leb_le. reflexivity.
Qed.

(** A text with two pairs and capital letters: the first pair counts. *)
Lemma parse_duration_minutes_witness :
  exists pre suf digits,
    lower (tables Demo.no_dates) (py "Toplantı 15 DK sonra, 2 saat sürer") = pre ++ suf
    /\ pair_at (tables Demo.no_dates) suf digits 15%Z
    /\ parse_duration Demo.no_dates (py "Toplantı 15 DK sonra, 2 saat sürer")
       = Ok (Some 15%Z).
Proof.
  destruct parse_duration_minutes as [General _].
  destruct (General Demo.no_dates (py "Toplantı 15 DK sonra, 2 saat sürer")
                    latin_plain_digits)
    as [(pre & suf & digits & minutes & E & P & _ & R & R')|[_ R]].
  - destruct (Z_le_gt_dec (Z.of_nat digits) int_max_str_digits) as [Short|Long].
    + specialize (R Short).
      assert (Em : minutes = 15%Z) by (vm_compute in R; now injection R as <-).
      subst minutes. exists pre, suf, digits. auto.
    + assert (L : int_max_str_digits < Z.of_nat digits) by lia.
      specialize (R' L). vm_compute in R'. discriminate R'.
  - vm_compute in R. discriminate R.
Defined.

(* ===================================================================== *)
(** * Further properties: [end_of_week] and [end_of_month] *)
(* ===================================================================== *)

Local Open Scope Z_scope.

(** The Sunday of ordinal [o], at 23:59:00 in zone [tz]. *)
Definition sunday_night (o : Z) (tz : option string) : datetime :=
  let '(y, m, d) := ord2ymd o in
  {| year := y; month := m; day := d; hour := 23; minute := 59; second := 0;
     microsecond := 0; tzinfo := tz |}.

Lemma weekday_range (b : datetime) : 0 <= weekday b <= 6.
Proof. unfold weekday. zdiv. Qed.

Lemma end_of_week_value (base : datetime) :
  valid base ->
  toordinal base + (6 - weekday base) <= MAXORDINAL ->
  end_of_week base
  = Ok (sunday_night (toordinal base - weekday base + 6) (tzinfo base))
  /\ valid (sunday_night (toordinal base - weekday base + 6) (tzinfo base))
  /\ toordinal (sunday_night (toordinal base - weekday base + 6) (tzinfo base))
     = toordinal base - weekday base + 6.
Proof.
  intros V Hmax.
  pose proof (weekday_range base) as Hw.
  unfold end_of_week.
  rewrite timedelta_new_days by lia. cbn [bind].
  destruct (@add_days base (6 - weekday base) V) as (y & m & d & E & Cd & O & A); try lia.
  rewrite A. cbn [bind]. unfold replace, datetime_new, or_field.
  cbn [year month day hour minute second microsecond tzinfo].
  rewrite Cd. change (check_time_fields 23 59 0 0) with true. cbn [andb].
  unfold sunday_night.
  replace (toordinal base - weekday base + 6) with (toordinal base + (6 - weekday base)) by lia.
  rewrite E. split; [reflexivity|]. split.
  - unfold valid. cbn [year month day hour minute second microsecond]. rewrite Cd. reflexivity.
  - exact O.
Qed.

(** X3: [end_of_week] depends only on the week and the zone. Two valid
    instants of the same Monday-to-Sunday week and zone get the same end
    (when that Sunday is not after 9999-12-31), and the end of the week is
    its own end: applying [end_of_week] twice is applying it once. *)
Theorem end_of_week_of_the_week (a b : datetime) :
  valid a -> valid b ->
  tzinfo a = tzinfo b ->
  toordinal a - weekday a = toordinal b - weekday b ->
  toordinal a + (6 - weekday a) <= MAXORDINAL ->
  exists e, end_of_week a = Ok e /\ end_of_week b = Ok e /\ end_of_week e = Ok e.
Proof.
  intros Va Vb Tz Wk Hmax.
  destruct (@end_of_week_value a Va Hmax) as (Ea & Ve & Oe).
  destruct (@end_of_week_value b Vb ltac:(lia)) as (Eb & _ & _).
  set (e := sunday_night (toordinal a - weekday a + 6) (tzinfo a)) in *.
  exists e. split; [exact Ea|]. split.
  - rewrite Eb, <- Wk, <- Tz. reflexivity.
  - assert (We : weekday e = 6).
    { unfold weekday. rewrite Oe. pose proof (weekday_range a). unfold weekday in *. zdiv. }
    destruct (@end_of_week_value e Ve ltac:(rewrite We, Oe; lia)) as (Ee & _ & _).
    rewrite Ee. rewrite We, Oe.
    replace (toordinal a - weekday a + 6 - 6 + 6) with (toordinal a - weekday a + 6) by lia.
    f_equal. unfold e, sunday_night.
    destruct (ord2ymd (toordinal a - weekday a + 6)) as [[y m] d]. reflexivity.
Qed.

Lemma end_of_week_of_the_week_witness :
  exists e, end_of_week (instant 2026 11 2 0 0 0) = Ok e
            /\ end_of_week (instant 2026 11 8 23 59 59) = Ok e
            /\ end_of_week e = Ok e.
Proof.
  apply (@end_of_week_of_the_week (instant 2026 11 2 0 0 0) (instant 2026 11 8 23 59 59)).
  - vm_compute. reflexivity.
  - vm_compute. reflexivity.
  - reflexivity.
  - vm_compute. reflexivity.
  - vm_compute. discriminate.
Defined.

(** Outside December 9999 [end_of_month] returns. *)
Lemma end_of_month_returns (base : datetime) :
  valid base -> (month base = 12 -> year base < 9999) ->
  exists e, end_of_month base = Ok e.
Proof.
  intros V Dec.
  destruct (valid_fields V) as [_ (Hh & Hmi & Hs & Hus)].
  unfold end_of_month.
  rewrite (@first_of_next_month base V Dec). cbn [bind].
  rewrite one_minute. cbn [bind].
  destruct (@next_month_valid base V Dec) as (Vn & On & Vl).
  set (nm := {| year := next_year base; month := next_month base; day := 1;
                hour := hour base; minute := minute base; second := second base;
                microsecond := microsecond base; tzinfo := tzinfo base |}).
  assert (Vnm : valid nm).
  { unfold valid. cbn [year month day hour minute second microsecond nm].
    rewrite Vn. unfold valid in V. apply andb_true_iff in V. tauto. }
  destruct (Z_le_gt_dec 1 (hour base * 60 + minute base)) as [T|T].
  - rewrite (@sub_minute_same_day nm Vnm T). cbn [bind].
    unfold replace, datetime_new, or_field.
    cbn [year month day hour minute second microsecond tzinfo nm].
    rewrite Vn.
    assert (Vt : check_time_fields ((hour base * 60 + minute base - 1) / 60)
                   ((hour base * 60 + minute base - 1) mod 60) 0 0 = true).
    { unfold check_time_fields. rewrite !andb_true_iff, !Z.leb_le.
      repeat split; zdiv. }
    rewrite Vt. eexists. reflexivity.
  - assert (H0 : hour base = 0) by lia. assert (M0 : minute base = 0) by lia.
    rewrite (@sub_minute_day_before nm (year base) (month base)
               (days_in_month (year base) (month base)) Vnm H0 M0 Vl On).
    cbn [bind]. unfold replace, datetime_new, or_field.
    cbn [year month day hour minute second microsecond tzinfo nm].
    rewrite Vl. eexists. reflexivity.
Qed.

(** X2: for a valid [base], [end_of_month] raises exactly when [base] lies in
    December 9999, where [replace(year=10000)] is a [ValueError]; it never
    raises [OverflowError], and everywhere else it returns an instant. *)
Theorem end_of_month_raises_only_in_last_month (base : datetime) :
  valid base ->
  (end_of_month base = Raise ValueError <-> (year base = 9999 /\ month base = 12))
  /\ end_of_month base <> Raise OverflowError.
Proof.
  intros V.
  destruct (valid_fields V) as [(Hy & Hm & Hd) _].
  destruct (Z.eq_dec (month base) 12) as [M12|M12];
    [destruct (Z.eq_dec (year base) 9999) as [Y|Y]|].
  - (* December 9999 *)
    assert (E : end_of_month base = Raise ValueError).
    { unfold end_of_month. rewrite M12. change (12 =? 12) with true. cbv iota.
      unfold replace, datetime_new, or_field. rewrite Y.
      change (check_date_fields (9999 + 1) 1 1) with false. reflexivity. }
    rewrite E. split; [tauto|discriminate].
  - destruct (@end_of_month_returns base V ltac:(lia)) as (e & E).
    rewrite E. split; [|discriminate]. split; [discriminate|]. intros [? ?]. lia.
  - destruct (@end_of_month_returns base V ltac:(lia)) as (e & E).
    rewrite E. split; [|discriminate]. split; [discriminate|]. intros [? ?]. lia.
Qed.

(* ===================================================================== *)
(** * [int] and [str] of an integer *)
(* ===================================================================== *)

(** The Unicode tables agree with ASCII on the digits and the minus sign. *)
Definition ascii_digits (U : unicode) : Prop :=
  (forall k, 0 <= k <= 9 -> decimal U (Z.to_N (48 + k)) = Some k)
  /\ (forall k, 0 <= k <= 9 -> isspace U (Z.to_N (48 + k)) = false)
  /\ isspace U 45%N = false.

Definition ascii_digit (c : cp) : bool := ((48 <=? c) && (c <=? 57))%N.

Lemma ascii_digit_of (k : Z) : 0 <= k <= 9 -> ascii_digit (Z.to_N (48 + k)) = true.
Proof.
  intros H. unfold ascii_digit. apply andb_true_iff. split; apply N.leb_le; lia.
Qed.

Lemma ascii_digit_inv (c : cp) :
  ascii_digit c = true -> exists k, 0 <= k <= 9 /\ c = Z.to_N (48 + k).
Proof.
  unfold ascii_digit. intros H. apply andb_true_iff in H. destruct H as [A B].
  apply N.leb_le in A, B. exists (Z.of_N c - 48). split; lia.
Qed.

Lemma digits_go_step fuel n acc :
  digits_go (S fuel) n acc
  = if n <? 10 then Z.to_N (48 + n mod 10) :: acc
    else digits_go fuel (n / 10) (Z.to_N (48 + n mod 10) :: acc).
Proof. reflexivity. Qed.

Lemma digits_go_digits : forall fuel n acc,
  0 <= n -> forallb ascii_digit acc = true ->
  forallb ascii_digit (digits_go fuel n acc) = true.
Proof.
  induction fuel as [|f IH]; intros n acc Hn F; [exact F|].
  rewrite digits_go_step.
  assert (D : forallb ascii_digit (Z.to_N (48 + n mod 10) :: acc) = true).
  { cbn [forallb]. rewrite ascii_digit_of by zdiv. exact F. }
  destruct (n <? 10); [exact D|]. apply IH; [zdiv|exact D].
Qed.

Lemma digits_go_keeps : forall fuel n (acc : str), acc <> [] -> digits_go fuel n acc <> [].
Proof.
  induction fuel as [|f IH]; intros n acc H; [exact H|].
  rewrite digits_go_step. destruct (n <? 10); [discriminate|]. apply IH. discriminate.
Qed.

Lemma digits_go_nonempty fuel n acc : digits_go (S fuel) n acc <> [].
Proof.
  rewrite digits_go_step. destruct (n <? 10); [discriminate|].
  apply digits_go_keeps. discriminate.
Qed.

Lemma digits_go_length : forall fuel n (acc : str),
  (List.length (digits_go fuel n acc) <= fuel + List.length acc)%nat.
Proof.
  induction fuel as [|f IH]; intros n acc; [cbn; lia|].
  rewrite digits_go_step. destruct (n <? 10); [cbn [List.length]; lia|].
  etransitivity; [apply IH|]. cbn [List.length]. lia.
Qed.

(** The integers SQLite stores and [sqlite3] binds. *)
Definition int64 (n : Z) : Prop := - 2 ^ 63 <= n < 2 ^ 63.

Lemma sqlite_int_fits (n : Z) : int64 n -> sqlite_int n = Ok n.
Proof.
  intros [Lo Hi]. unfold sqlite_int.
  apply Z.leb_le in Lo. apply Z.ltb_lt in Hi. now rewrite Lo, Hi.
Qed.


Section Digits.

Variable U : unicode.
Hypothesis AD : ascii_digits U.

Let value (a : Z) (c : cp) : Z :=
  a * 10 + match decimal U c with Some v => v | None => 0 end.

Lemma digits_go_value : forall fuel n acc,
  0 <= n < 2 ^ Z.of_nat fuel ->
  fold_left value (digits_go fuel n acc) 0 = fold_left value acc n.
Proof.
  induction fuel as [|f IH]; intros n acc Hn.
  - change (2 ^ Z.of_nat 0) with 1 in Hn. assert (n = 0) by lia. subst n. reflexivity.
  - rewrite digits_go_step.
    assert (Hp : 2 ^ Z.of_nat (S f) = 2 * 2 ^ Z.of_nat f).
    { rewrite Nat2Z.inj_succ, Z.pow_succ_r by lia. reflexivity. }
    assert (E : forall a, 0 <= a ->
              fold_left value (Z.to_N (48 + n mod 10) :: acc) a
              = fold_left value acc (a * 10 + n mod 10)).
    { intros a _. cbn [fold_left]. unfold value at 2.
      destruct AD as (A1 & _). rewrite A1 by zdiv. reflexivity. }
    destruct (Z.ltb_spec n 10) as [L|L].
    + rewrite E by lia. f_equal. zdiv.
    + rewrite IH by zdiv. rewrite E by zdiv. f_equal. zdiv.
Qed.

Lemma ascii_digit_isdigit (ds : str) :
  forallb ascii_digit ds = true -> forallb (isdigit U) ds = true.
Proof.
  intros F. apply forallb_forall. intros c I.
  rewrite forallb_forall in F. specialize (F c I).
  apply ascii_digit_inv in F. destruct F as (k & Hk & ->).
  unfold isdigit. destruct AD as (A1 & _). now rewrite A1.
Qed.

Lemma ascii_digit_plain (c : cp) :
  ascii_digit c = true -> isspace U c = false /\ c <> 45%N /\ c <> 43%N.
Proof.
  intros F. pose proof F as F'. apply ascii_digit_inv in F. destruct F as (k & Hk & ->).
  destruct AD as (_ & A2 & _). split; [now apply A2|]. split; lia.
Qed.

Lemma strip_ends (s : str) (c : cp) (r : str) (c' : cp) (r' : str) :
  s = c :: r -> rev s = c' :: r' ->
  isspace U c = false -> isspace U c' = false -> strip (isspace U) s = s.
Proof.
  intros E E' H H'. unfold strip, rstrip. rewrite E at 1. rewrite lstrip_head by exact H.
  rewrite <- E. rewrite E'. rewrite lstrip_head by exact H'. rewrite <- E'.
  apply rev_involutive.
Qed.

Lemma log2_fuel (n : Z) : 0 <= n -> 0 <= n < 2 ^ Z.of_nat (S (Z.to_nat (Z.log2 n))).
Proof.
  intros H. split; [exact H|].
  rewrite Nat2Z.inj_succ, Z2Nat.id by apply Z.log2_nonneg.
  destruct (Z.eq_dec n 0) as [->|N]; [reflexivity|].
  apply Z.log2_spec. lia.
Qed.

(** The digits of a natural number are read back by [int]. *)
Lemma digits_value_of (n : Z) :
  0 <= n ->
  let ds := digits_go (S (Z.to_nat (Z.log2 n))) n [] in
  ds <> [] /\ forallb ascii_digit ds = true
  /\ digits_value U ds 0 true = Some n.
Proof.
  intros H ds. split; [apply digits_go_nonempty|].
  assert (F : forallb ascii_digit ds = true) by (apply digits_go_digits; auto).
  split; [exact F|].
  rewrite (@digits_value_run U ds 0 true (ascii_digit_isdigit ds F)).
  - f_equal. unfold ds. apply (digits_go_value (S (Z.to_nat (Z.log2 n))) []).
    now apply log2_fuel.
  - left. apply digits_go_nonempty.
Qed.

Lemma last_digit (ds : str) :
  ds <> [] -> forallb ascii_digit ds = true ->
  exists c r, rev ds = c :: r /\ ascii_digit c = true.
Proof.
  intros NE F. destruct (rev ds) as [|c r] eqn:E.
  - apply (f_equal (@rev cp)) in E. rewrite rev_involutive in E. contradiction.
  - exists c, r. split; [reflexivity|].
    rewrite forallb_forall in F. apply F. apply in_rev. rewrite E. now left.
Qed.

(** The digits of a 64-bit integer are within the limit of [int]. *)
Lemma digits_within_limit (n : Z) :
  0 <= n <= 2 ^ 63 ->
  (int_max_str_digits
   <? count_digits U (digits_go (S (Z.to_nat (Z.log2 n))) n [])) = false.
Proof.
  intros H. apply Z.ltb_ge.
  rewrite count_digits_run
    by (apply ascii_digit_isdigit, digits_go_digits; [lia|reflexivity]).
  pose proof (digits_go_length (S (Z.to_nat (Z.log2 n))) n []) as L.
  cbn [List.length] in L.
  assert (Z.log2 n <= 63).
  { change 63 with (Z.log2 (2 ^ 63)). apply Z.log2_le_mono. lia. }
  pose proof (Z.log2_nonneg n). unfold int_max_str_digits. lia.
Qed.

(** [int(str(n)) == n] for a 64-bit [n]. *)
Lemma py_int_of_int (n : Z) : int64 n -> py_int U (of_int n) = Ok n.
Proof.
  intros I64. unfold int64 in I64.
  unfold of_int. destruct (Z.ltb_spec n 0) as [L|L].
  - destruct (@digits_value_of (- n) ltac:(lia)) as (NE & F & V).
    pose proof (@digits_within_limit (- n) ltac:(lia)) as Lim.
    set (ds := digits_go (S (Z.to_nat (Z.log2 (- n)))) (- n) []) in *.
    destruct (last_digit NE F) as (c & r & Er & Dc).
    unfold py_int.
    assert (Es : strip (isspace U) (45%N :: ds) = 45%N :: ds).
    { destruct AD as (_ & _ & A3).
      assert (exists c' r', rev (45%N :: ds) = c' :: r' /\ isspace U c' = false)
        as (c' & r' & E' & H').
      { change (rev (45%N :: ds)) with (rev ds ++ [45%N]). rewrite Er.
        exists c, (r ++ [45%N]). split; [reflexivity|].
        now apply ascii_digit_plain. }
      eapply strip_ends; eauto. }
    rewrite Es. change (45 =? 45)%N with true. cbv iota. rewrite V, Lim. f_equal. lia.
  - destruct (@digits_value_of n L) as (NE & F & V).
    pose proof (@digits_within_limit n ltac:(lia)) as Lim.
    set (ds := digits_go (S (Z.to_nat (Z.log2 n))) n []) in *.
    destruct (last_digit NE F) as (c & r & Er & Dc).
    destruct ds as [|c0 r0] eqn:Eds; [congruence|].
    assert (D0 : ascii_digit c0 = true).
    { cbn [forallb] in F. apply andb_true_iff in F. tauto. }
    destruct (ascii_digit_plain c0 D0) as (S0 & N1 & N2).
    unfold py_int.
    assert (Es : strip (isspace U) (c0 :: r0) = c0 :: r0).
    { eapply strip_ends; eauto. now apply ascii_digit_plain. }
    rewrite Es. apply N.eqb_neq in N1, N2. rewrite N1, N2. rewrite V, Lim. reflexivity.
Qed.

End Digits.

(** Every character of [str(n)] is a digit or the minus sign at its head. *)
Lemma of_int_shape (n : Z) :
  exists c r, of_int n = c :: r
    /\ (c = 45%N \/ ascii_digit c = true)
    /\ forallb ascii_digit r = true.
Proof.
  unfold of_int. destruct (Z.ltb_spec n 0) as [L|L].
  - eexists _, _. split; [reflexivity|]. split; [now left|].
    apply digits_go_digits; [lia|reflexivity].
  - pose proof (@digits_go_digits (S (Z.to_nat (Z.log2 n))) n [] L eq_refl) as F.
    pose proof (@digits_go_nonempty (Z.to_nat (Z.log2 n)) n []) as NE.
    destruct (digits_go (S (Z.to_nat (Z.log2 n))) n []) as [|c r]; [congruence|].
    cbn [forallb] in F. apply andb_true_iff in F.
    exists c, r. split; [reflexivity|]. split; [right|]; tauto.
Qed.

(* ===================================================================== *)
(** * The buttons and [handle_callback] *)
(* ===================================================================== *)

Ltac pyc :=
  repeat match goal with
  | |- context [py ?s] =>
    let v := eval vm_compute in (py s) in change (py s) with v
  end.

(** Comparisons of two character codes, evaluated. *)
Ltac codes :=
  repeat match goal with
  | |- context [N.eqb (Npos ?a) (Npos ?b)] =>
    let v := eval vm_compute in (N.eqb (Npos a) (Npos b)) in
    change (N.eqb (Npos a) (Npos b)) with v
  end;
  cbn [andb orb].

Lemma head_differs (c x : cp) :
  c = 45%N \/ ascii_digit c = true ->
  x <> 45%N -> ascii_digit x = false -> (c =? x)%N = false.
Proof.
  intros [->|D] N1 N2; apply N.eqb_neq; [congruence|].
  intros ->. congruence.
Qed.

Ltac heads Hc :=
  repeat match goal with
  | |- context [N.eqb ?c (Npos ?x)] =>
    rewrite (@head_differs c (Npos x) Hc ltac:(discriminate) ltac:(reflexivity))
  end;
  cbn [andb orb].

Lemma split_max_no_sep (sep : cp) : forall (p q : str) (k : nat),
  forallb (fun c => negb (c =? sep)%N) p = true ->
  split_max sep (p ++ sep :: q) (S k) = p :: split_max sep q k.
Proof.
  induction p as [|c p IH]; intros q k F.
  - cbn [app split_max]. now rewrite N.eqb_refl.
  - cbn [forallb] in F. apply andb_true_iff in F. destruct F as [N F].
    apply negb_true_iff in N.
    cbn [app split_max]. rewrite N. now rewrite IH.
Qed.

Lemma split_max_last (sep : cp) (s : str) : split_max sep s 0 = [s].
Proof. destruct s; reflexivity. Qed.

Lemma of_int_no_colon (n : Z) :
  forallb (fun c => negb (c =? colon)%N) (of_int n) = true.
Proof.
  destruct (of_int_shape n) as (c & r & E & Hc & Hr). rewrite E.
  cbn [forallb]. apply andb_true_iff. split.
  - unfold colon. rewrite (@head_differs c 58%N Hc); [reflexivity|discriminate|reflexivity].
  - apply forallb_forall. intros x I. rewrite forallb_forall in Hr.
    specialize (Hr x I). apply negb_true_iff. unfold colon.
    apply (@head_differs x 58%N); [now right|discriminate|reflexivity].
Qed.

Section Buttons.

Variable W : world.
Variable C : clock.
Hypothesis AD : ascii_digits (tables W).

Lemma press_delete (d : db) (task_id : Z) (now : datetime) :
  int64 task_id ->
  handle_callback W C d (py "delete:" ++ of_int task_id) now
  = (let '(d', found) := delete_task d task_id in
     Ok (d', if found then Deleted task_id else Missing)).
Proof.
  intros I64.
  destruct (of_int_shape task_id) as (c & r & E & Hc & Hr).
  unfold handle_callback, picked_id. rewrite E. pyc.
  cbn [app Str.eqb startswith]. codes. heads Hc.
  unfold colon. cbn [split_max]. codes. cbn [nth].
  rewrite <- E. rewrite (py_int_of_int AD I64). cbn [bind].
  rewrite (sqlite_int_fits I64). reflexivity.
Qed.

Lemma press_done (d : db) (task_id : Z) (now : datetime) :
  int64 task_id ->
  handle_callback W C d (py "done:" ++ of_int task_id) now
  = (let '(d', found) := mark_done d task_id in
     Ok (d', if found then MarkedDone task_id else Missing)).
Proof.
  intros I64.
  destruct (of_int_shape task_id) as (c & r & E & Hc & Hr).
  unfold handle_callback, picked_id. rewrite E. pyc.
  cbn [app Str.eqb startswith]. codes. heads Hc.
  unfold colon. cbn [split_max]. codes. cbn [nth].
  rewrite <- E. rewrite (py_int_of_int AD I64). cbn [bind].
  rewrite (sqlite_int_fits I64). reflexivity.
Qed.

Lemma press_delete_pick (d : db) (task_id : Z) (now : datetime) :
  int64 task_id ->
  handle_callback W C d (py "delete_pick:" ++ of_int task_id) now
  = Ok (d, Asked (_send_delete_confirmation d task_id)).
Proof.
  intros I64.
  destruct (of_int_shape task_id) as (c & r & E & Hc & Hr).
  unfold handle_callback, picked_id. rewrite E. pyc.
  cbn [app Str.eqb startswith]. codes. heads Hc.
  unfold colon. cbn [split_max]. codes. cbn [nth].
  rewrite <- E. rewrite (py_int_of_int AD I64). cbn [bind].
  rewrite (sqlite_int_fits I64). reflexivity.
Qed.

Lemma press_done_pick (d : db) (task_id : Z) (now : datetime) :
  int64 task_id ->
  handle_callback W C d (py "done_pick:" ++ of_int task_id) now
  = Ok (d, Asked (_send_done_confirmation d task_id)).
Proof.
  intros I64.
  destruct (of_int_shape task_id) as (c & r & E & Hc & Hr).
  unfold handle_callback, picked_id. rewrite E. pyc.
  cbn [app Str.eqb startswith]. codes. heads Hc.
  unfold colon. cbn [split_max]. codes. cbn [nth].
  rewrite <- E. rewrite (py_int_of_int AD I64). cbn [bind].
  rewrite (sqlite_int_fits I64). reflexivity.
Qed.

Lemma press_cancel (d : db) (now : datetime) :
  handle_callback W C d (py "delete:cancel") now = Ok (d, Cancelled)
  /\ handle_callback W C d (py "done:cancel") now = Ok (d, Cancelled).
Proof. split; reflexivity. Qed.

Lemma press_snooze (d : db) (task_id minutes : Z) (now : datetime) :
  int64 task_id -> int64 minutes ->
  handle_callback W C d (py "snooze:" ++ of_int task_id ++ py ":" ++ of_int minutes) now
  = snooze_by W C d task_id minutes now.
Proof.
  intros I64 M64.
  destruct (of_int_shape task_id) as (c & r & E & Hc & Hr).
  unfold handle_callback.
  assert (Sp : split_max colon (py "snooze:" ++ of_int task_id ++ py ":" ++ of_int minutes) 2
               = [py "snooze"; of_int task_id; of_int minutes]).
  { change (py "snooze:") with (py "snooze" ++ [colon]).
    rewrite <- app_assoc. cbn [app].
    rewrite split_max_no_sep by reflexivity.
    change (py ":" ++ of_int minutes) with (colon :: of_int minutes).
    rewrite split_max_no_sep by apply of_int_no_colon.
    now rewrite split_max_last. }
  rewrite Sp. rewrite (py_int_of_int AD I64), (py_int_of_int AD M64).
  rewrite E. pyc.
  cbn [app Str.eqb startswith]. codes. heads Hc. reflexivity.
Qed.

End Buttons.

(* ===================================================================== *)
(** * The [tasks] table *)
(* ===================================================================== *)

(** The primary key of [tasks]: the ids are distinct, and none is above the
    largest one handed out. *)
Definition ids_ok (d : db) : Prop :=
  NoDup (map id (tasks d)) /\ Forall (fun t => id t <= tasks_seq d) (tasks d).

Lemma update_where_id_ids (i : Z) (f : task -> task) (rows : list task) :
  (forall t, id (f t) = id t) ->
  map id (update_where_id i f rows) = map id rows.
Proof.
  intros Hf. unfold update_where_id. rewrite map_map. apply map_ext.
  intros t. destruct (id t =? i); [apply Hf|reflexivity].
Qed.

Lemma ids_ok_update (d : db) (i : Z) (f : task -> task) :
  (forall t, id (f t) = id t) ->
  ids_ok d -> ids_ok (with_tasks d (update_where_id i f (tasks d))).
Proof.
  intros Hf (ND & B). split; cbn [tasks tasks_seq with_tasks].
  - now rewrite update_where_id_ids.
  - unfold update_where_id. rewrite Forall_map.
    eapply Forall_impl; [|exact B]. intros t Ht. cbv beta.
    destruct (id t =? i); [rewrite Hf|]; exact Ht.
Qed.

(** The ids of the rows a DELETE leaves are still distinct. *)
Lemma ids_of_kept_rows (keep : task -> bool) (rows : list task) :
  NoDup (map id rows) -> NoDup (map id (filter keep rows)).
Proof.
  induction rows as [|t rows IH]; intros D; [constructor|].
  cbn [map] in D. inversion D as [|i others Fresh Rest]; subst.
  cbn [filter]. destruct (keep t); [|auto].
  cbn [map]. constructor; [|auto].
  intros Again. apply Fresh. apply in_map_iff in Again.
  destruct Again as (t' & Same & Kept).
  apply filter_In in Kept. apply in_map_iff. exists t'. tauto.
Qed.

Lemma mark_done_cases (d : db) (i : Z) :
  (get_task d i = None /\ mark_done d i = (d, false))
  \/ (exists t, get_task d i = Some t
        /\ mark_done d i
           = (with_tasks d
                (update_where_id i
                   (fun t => {| id := id t; title := title t; due_at := due_at t;
                                created_at := created_at t; status := py "done";
                                source := source t; reminded_at := reminded_at t;
                                notes := notes t |})
                   (tasks d)), true)).
Proof.
  unfold mark_done, get_task. destruct (find _ _) as [t|]; [right|left]; eauto.
Qed.

Lemma delete_task_cases (d : db) (i : Z) :
  (get_task d i = None /\ delete_task d i = (d, false))
  \/ (exists t, get_task d i = Some t
        /\ delete_task d i
           = (with_tasks d (filter (fun t => negb (id t =? i)) (tasks d)), true)).
Proof.
  unfold delete_task, get_task. destruct (find _ _) as [t|]; [right|left]; eauto.
Qed.

(** What [snooze_task] returns when it returns. *)
Lemma snooze_task_cases (W : world) (d : db) (i : Z) (due : datetime) (d' : db)
      (found : bool) :
  snooze_task W d i due = Ok (d', found) ->
  (get_task d i = None /\ d' = d /\ found = false)
  \/ (exists t iso,
        get_task d i = Some t /\ to_utc_iso W due = Ok iso /\ found = true
        /\ d' = with_tasks d
                  (update_where_id i
                     (fun t => {| id := id t; title := title t; due_at := Some iso;
                                  created_at := created_at t; status := status t;
                                  source := source t; reminded_at := None;
                                  notes := notes t |})
                     (tasks d))).
Proof.
  unfold snooze_task, get_task. destruct (find _ _) as [t|].
  - destruct (to_utc_iso W due) as [iso|]; cbn [bind]; [|discriminate].
    intros H. apply ok_inv in H. destruct H as [<- <-]. right. exists t, iso. auto.
  - intros H. apply ok_inv in H. destruct H as [<- <-]. left. auto.
Qed.

(** X15: the primary key of [tasks] is an invariant. When the ids are
    distinct and none is above the largest id handed out, they still are
    after [create_task], [mark_done], [delete_task], [snooze_task] and
    [set_reminded] (for [create_task] and [snooze_task], which convert a
    time to UTC first, whenever they return). *)
Theorem task_ids_stay_unique (W : world) (d : db) :
  ids_ok d ->
  (forall title due source notes now d' i,
      create_task W d title due source notes now = Ok (d', i) -> ids_ok d')
  /\ (forall i, ids_ok (fst (mark_done d i)))
  /\ (forall i, ids_ok (fst (delete_task d i)))
  /\ (forall i due d' found, snooze_task W d i due = Ok (d', found) -> ids_ok d')
  /\ (forall i iso, ids_ok (set_reminded d i iso)).
Proof.
  intros OK. pose proof OK as (ND & B). split; [|split; [|split; [|split]]].
  - intros title due source notes now d' i H.
    apply create_task_inv in H. destruct H as (di & ni & _ & _ & -> & _). split.
    + cbn [inserted tasks]. rewrite map_app. cbn [map id new_task].
      apply NoDup_app; [exact ND|repeat constructor; intros []|].
      intros x I [<-|[]]. apply in_map_iff in I. destruct I as (t & E & I).
      rewrite Forall_forall in B. specialize (B t I). lia.
    + cbn [inserted tasks tasks_seq]. apply Forall_app. split.
      * eapply Forall_impl; [|exact B]. cbv beta. intros; lia.
      * repeat constructor. cbn [id new_task]. lia.
  - intros i.
    destruct (mark_done_cases d i) as [(_ & ->)|(t & _ & ->)]; cbn [fst]; [exact OK|].
    now apply ids_ok_update.
  - intros i.
    destruct (delete_task_cases d i) as [(_ & ->)|(t & _ & ->)]; cbn [fst]; [exact OK|].
    split.
    + cbn [tasks with_tasks]. now apply ids_of_kept_rows.
    + cbn [tasks with_tasks tasks_seq]. apply Forall_forall. intros t' I.
      apply filter_In in I. rewrite Forall_forall in B. now apply B.
  - intros i due d' found H.
    apply snooze_task_cases in H.
    destruct H as [(_ & -> & _)|(t & iso & _ & _ & _ & ->)]; [exact OK|].
    now apply ids_ok_update.
  - intros i iso. now apply ids_ok_update.
Qed.

(** ** Lookups after an update *)

Lemma find_id_in (rows : list task) (i : Z) (t : task) :
  find (fun t => id t =? i) rows = Some t -> In t rows /\ id t = i.
Proof.
  intros F. apply find_some in F. destruct F as [I E]. apply Z.eqb_eq in E. tauto.
Qed.

Lemma find_unique (rows : list task) (t : task) :
  NoDup (map id rows) -> In t rows -> find (fun x => id x =? id t) rows = Some t.
Proof.
  induction rows as [|x rows IH]; intros ND I; [destruct I|].
  cbn [map] in ND. inversion ND as [|y ys N ND']; subst.
  cbn [find]. destruct I as [->|I].
  - now rewrite Z.eqb_refl.
  - destruct (Z.eqb_spec (id x) (id t)) as [E|_]; [|auto].
    exfalso. apply N. rewrite E. now apply in_map.
Qed.

Lemma find_update_other (rows : list task) (i j : Z) (f : task -> task) :
  (forall t, id (f t) = id t) -> j <> i ->
  find (fun t => id t =? j) (update_where_id i f rows)
  = find (fun t => id t =? j) rows.
Proof.
  intros Hf N. induction rows as [|x rows IH]; [reflexivity|].
  cbn [update_where_id map find]. fold (update_where_id i f rows).
  destruct (Z.eqb_spec (id x) i) as [E|E].
  - rewrite Hf. rewrite E. destruct (Z.eqb_spec i j) as [E'|_]; [congruence|exact IH].
  - destruct (id x =? j); [reflexivity|exact IH].
Qed.

Lemma find_update_same (rows : list task) (i : Z) (f : task -> task) (t : task) :
  (forall t, id (f t) = id t) ->
  find (fun t => id t =? i) rows = Some t ->
  find (fun t => id t =? i) (update_where_id i f rows) = Some (f t).
Proof.
  intros Hf. induction rows as [|x rows IH]; [discriminate|].
  cbn [update_where_id map find]. fold (update_where_id i f rows).
  destruct (Z.eqb_spec (id x) i) as [E|E].
  - rewrite Hf, E, Z.eqb_refl. congruence.
  - destruct (Z.eqb_spec (id x) i); [contradiction|exact IH].
Qed.

Lemma find_filter_other (rows : list task) (i j : Z) :
  j <> i ->
  find (fun t => id t =? j) (filter (fun t => negb (id t =? i)) rows)
  = find (fun t => id t =? j) rows.
Proof.
  intros N. induction rows as [|x rows IH]; [reflexivity|].
  cbn [filter find]. destruct (Z.eqb_spec (id x) i) as [E|E]; cbn [negb].
  - destruct (Z.eqb_spec (id x) j) as [E'|_]; [congruence|exact IH].
  - cbn [find]. destruct (id x =? j); [reflexivity|exact IH].
Qed.

Lemma find_filter_same (rows : list task) (i : Z) :
  find (fun t => id t =? i) (filter (fun t => negb (id t =? i)) rows) = None.
Proof.
  induction rows as [|x rows IH]; [reflexivity|].
  cbn [filter]. destruct (Z.eqb_spec (id x) i) as [E|E]; cbn [negb]; [exact IH|].
  cbn [find]. destruct (Z.eqb_spec (id x) i); [contradiction|exact IH].
Qed.

(** ** Sorting and truncating keep rows of the table *)

Lemma in_firstn (A : Type) (n : nat) (l : list A) (x : A) : In x (firstn n l) -> In x l.
Proof.
  revert l. induction n as [|n IH]; intros [|a l] H; cbn [firstn] in H; try destruct H.
  - subst. now left.
  - right. auto.
Qed.

Lemma in_insert_sorted (A : Type) (le : A -> A -> bool) (x y : A) (l : list A) :
  In y (insert_sorted le x l) <-> y = x \/ In y l.
Proof.
  induction l as [|b l IH]; cbn [insert_sorted].
  - cbn [In]. intuition.
  - destruct (le x b); cbn [In]; [intuition|]. rewrite IH. cbn [In]. intuition.
Qed.

Lemma in_stable_sort (A : Type) (le : A -> A -> bool) (l : list A) (y : A) :
  In y (stable_sort le l) <-> In y l.
Proof.
  induction l as [|a l IH]; [reflexivity|].
  cbn [stable_sort fold_right]. fold (stable_sort le l).
  rewrite in_insert_sorted, IH. cbn [In]. intuition.
Qed.

Lemma length_insert_sorted (A : Type) (le : A -> A -> bool) (x : A) (l : list A) :
  List.length (insert_sorted le x l) = S (List.length l).
Proof.
  induction l as [|b l IH]; [reflexivity|].
  cbn [insert_sorted]. destruct (le x b); cbn [List.length]; [reflexivity|now rewrite IH].
Qed.

Lemma length_stable_sort (A : Type) (le : A -> A -> bool) (l : list A) :
  List.length (stable_sort le l) = List.length l.
Proof.
  induction l as [|a l IH]; [reflexivity|].
  cbn [stable_sort fold_right]. fold (stable_sort le l).
  now rewrite length_insert_sorted, IH.
Qed.

(** ** Counting *)

Definition has_status (s : str) (t : task) : bool := Str.eqb (status t) s.

Lemma count_tasks_length (d : db) (s : str) :
  count_tasks d s = Z.of_nat (List.length (filter (has_status s) (tasks d))).
Proof. reflexivity. Qed.

(** Rewriting the one row of id [i] moves the counts by that row. *)
Lemma count_after_update (rows : list task) (i : Z) (f : task -> task) (t : task)
      (p : task -> bool) :
  NoDup (map id rows) -> In t rows -> id t = i ->
  Z.of_nat (List.length (filter p (update_where_id i f rows)))
  = Z.of_nat (List.length (filter p rows))
    - (if p t then 1 else 0) + (if p (f t) then 1 else 0).
Proof.
  intros ND I E. induction rows as [|x rows IH]; [destruct I|].
  cbn [map] in ND. inversion ND as [|y ys N ND']; subst.
  cbn [update_where_id map filter]. fold (update_where_id (id t) f rows).
  destruct I as [->|I].
  - rewrite Z.eqb_refl.
    assert (Same : update_where_id (id t) f rows = rows).
    { unfold update_where_id. rewrite <- (map_id rows) at 2. apply map_ext_in.
      intros a Ia. destruct (Z.eqb_spec (id a) (id t)) as [Ea|_]; [|reflexivity].
      exfalso. apply N. rewrite <- Ea. now apply in_map. }
    rewrite Same.
    destruct (p t), (p (f t)); cbn [List.length]; lia.
  - destruct (Z.eqb_spec (id x) (id t)) as [Ex|_].
    + exfalso. apply N. rewrite Ex. now apply in_map.
    + specialize (IH ND' I).
      destruct (p x); cbn [List.length]; lia.
Qed.

Lemma count_after_delete (rows : list task) (i : Z) (t : task) (p : task -> bool) :
  NoDup (map id rows) -> In t rows -> id t = i ->
  Z.of_nat (List.length (filter p (filter (fun t => negb (id t =? i)) rows)))
  = Z.of_nat (List.length (filter p rows)) - (if p t then 1 else 0).
Proof.
  intros ND I E. induction rows as [|x rows IH]; [destruct I|].
  cbn [map] in ND. inversion ND as [|y ys N ND']; subst.
  cbn [filter]. destruct I as [->|I].
  - rewrite Z.eqb_refl. cbn [negb].
    assert (Same : filter (fun t0 => negb (id t0 =? id t)) rows = rows).
    { apply forallb_filter_id. apply forallb_forall. intros a Ia.
      apply negb_true_iff. apply Z.eqb_neq. intros Ea. apply N. rewrite <- Ea.
      now apply in_map. }
    rewrite Same. destruct (p t); cbn [List.length]; lia.
  - destruct (Z.eqb_spec (id x) (id t)) as [Ex|_].
    + exfalso. apply N. rewrite Ex. now apply in_map.
    + cbn [negb filter]. specialize (IH ND' I).
      destruct (p x); cbn [List.length]; lia.
Qed.

Lemma pending_is_not_done : Str.eqb (py "done") (py "pending") = false.
Proof. reflexivity. Qed.

(** X16: [mark_done] on an open task moves exactly that task: it returns
    [True], the count of pending tasks falls by one and the count of done
    tasks rises by one, the task keeps its title and due time under status
    [done], it is no longer listed among the pending ones, and every other
    task is as before. *)
Theorem mark_done_moves_one_task (d : db) (i : Z) (t : task) :
  ids_ok d ->
  get_task d i = Some t ->
  status t = py "pending" ->
  let d' := fst (mark_done d i) in
  snd (mark_done d i) = true
  /\ count_tasks d' (py "pending") = count_tasks d (py "pending") - 1
  /\ count_tasks d' (py "done") = count_tasks d (py "done") + 1
  /\ (exists t', get_task d' i = Some t' /\ status t' = py "done"
                 /\ title t' = title t /\ due_at t' = due_at t)
  /\ (forall limit, ~ In i (map id (list_tasks d' (py "pending") limit)))
  /\ (forall j, j <> i -> get_task d' j = get_task d j).
Proof.
  intros (ND & B) G P d'.
  destruct (mark_done_cases d i) as [(G' & _)|(t0 & G' & E)]; [congruence|].
  assert (t0 = t) by congruence. subst t0.
  unfold d'. rewrite E. cbn [fst snd].
  set (f := fun t => {| id := id t; title := title t; due_at := due_at t;
                        created_at := created_at t; status := py "done";
                        source := source t; reminded_at := reminded_at t;
                        notes := notes t |}) in *.
  assert (Hf : forall x, id (f x) = id x) by reflexivity.
  destruct (find_id_in _ _ G) as (I & Ei).
  split; [reflexivity|].
  split; [|split; [|split; [|split]]].
  - unfold count_tasks. cbn [tasks with_tasks].
    rewrite (@count_after_update (tasks d) i f t _ ND I Ei).
    cbn [status f]. rewrite P. change (Str.eqb (py "pending") (py "pending")) with true.
    change (Str.eqb (py "done") (py "pending")) with false. lia.
  - unfold count_tasks. cbn [tasks with_tasks].
    rewrite (@count_after_update (tasks d) i f t _ ND I Ei).
    cbn [status f]. rewrite P. change (Str.eqb (py "pending") (py "done")) with false.
    change (Str.eqb (py "done") (py "done")) with true. lia.
  - exists (f t). split; [|repeat split].
    unfold get_task. cbn [tasks with_tasks]. now apply find_update_same.
  - intros limit I'. apply in_map_iff in I'. destruct I' as (x & Ex & Ix).
    unfold list_tasks in Ix. apply in_firstn in Ix.
    apply in_stable_sort in Ix. apply filter_In in Ix. destruct Ix as [Ix Sx].
    cbn [tasks with_tasks] in Ix. unfold update_where_id in Ix.
    apply in_map_iff in Ix. destruct Ix as (y & Ey & Iy).
    destruct (Z.eqb_spec (id y) i) as [Eyi|Nyi].
    + subst x. cbn [status f] in Sx. discriminate Sx.
    + subst x. contradiction.
  - intros j N. unfold get_task. cbn [tasks with_tasks]. now apply find_update_other.
Qed.

(** X17: after [delete_task] no task has the id, every other id resolves
    as before, the call returns [True] exactly when the task existed, the
    count of its status falls by one, a missing id changes nothing, and the
    AUTOINCREMENT counter is kept, so the id is not handed out again. *)
Theorem delete_task_removes_one_task (d : db) (i : Z) :
  ids_ok d ->
  let d' := fst (delete_task d i) in
  get_task d' i = None
  /\ (forall j, j <> i -> get_task d' j = get_task d j)
  /\ (snd (delete_task d i) = true <-> get_task d i <> None)
  /\ (forall t s, get_task d i = Some t ->
        count_tasks d' s = count_tasks d s - (if Str.eqb (status t) s then 1 else 0))
  /\ (get_task d i = None -> d' = d)
  /\ tasks_seq d' = tasks_seq d.
Proof.
  intros (ND & B) d'.
  destruct (delete_task_cases d i) as [(G & E)|(t & G & E)]; unfold d'; rewrite E;
    cbn [fst snd].
  - split; [exact G|]. split; [reflexivity|]. split; [|split; [|split]].
    + rewrite G. split; [discriminate|congruence].
    + intros t s G'. congruence.
    + reflexivity.
    + reflexivity.
  - split; [|split; [|split; [|split; [|split]]]].
    + unfold get_task. cbn [tasks with_tasks]. apply find_filter_same.
    + intros j N. unfold get_task. cbn [tasks with_tasks]. now apply find_filter_other.
    + rewrite G. split; [discriminate|reflexivity].
    + intros t' s G'. assert (t' = t) by congruence. subst t'.
      destruct (find_id_in _ _ G) as (I & Ei).
      unfold count_tasks. cbn [tasks with_tasks].
      now rewrite (@count_after_delete (tasks d) i t _ ND I Ei).
    + congruence.
    + reflexivity.
Qed.

(* ===================================================================== *)
(** * [reminder_job] *)
(* ===================================================================== *)

(** Every row of id [i] has been reminded. *)
Definition marked (d : db) (i : Z) : Prop :=
  forall t, In t (tasks d) -> id t = i -> reminded_at t <> None.

(** What [set_reminded] leaves of a row. *)
Definition core (t : task) : Z * str * option str * str :=
  (id t, title t, due_at t, status t).

Lemma set_reminded_marks (d : db) (i : Z) (iso : str) : marked (set_reminded d i iso) i.
Proof.
  intros t I E. cbn [set_reminded tasks with_tasks] in I. unfold update_where_id in I.
  apply in_map_iff in I. destruct I as (x & Ex & Ix).
  destruct (Z.eqb_spec (id x) i) as [Exi|Nxi]; subst t; [discriminate|contradiction].
Qed.

Lemma set_reminded_keeps_marks (d : db) (i j : Z) (iso : str) :
  marked d i -> marked (set_reminded d j iso) i.
Proof.
  intros M t I E. cbn [set_reminded tasks with_tasks] in I. unfold update_where_id in I.
  apply in_map_iff in I. destruct I as (x & Ex & Ix).
  destruct (id x =? j); subst t; [discriminate|now apply (M x)].
Qed.

Lemma set_reminded_unmarked (d : db) (j : Z) (iso : str) (t : task) :
  In t (tasks (set_reminded d j iso)) -> reminded_at t = None -> In t (tasks d).
Proof.
  intros I R. cbn [set_reminded tasks with_tasks] in I. unfold update_where_id in I.
  apply in_map_iff in I. destruct I as (x & Ex & Ix).
  destruct (id x =? j); subst t; [discriminate|exact Ix].
Qed.

Lemma set_reminded_core (d : db) (j : Z) (iso : str) :
  map core (tasks (set_reminded d j iso)) = map core (tasks d).
Proof.
  cbn [set_reminded tasks with_tasks]. unfold update_where_id. rewrite map_map.
  apply map_ext. intros t. destruct (id t =? j); reflexivity.
Qed.

Lemma set_reminded_rest (d : db) (j : Z) (iso : str) :
  pending_tasks (set_reminded d j iso) = pending_tasks d
  /\ goals (set_reminded d j iso) = goals d
  /\ settings (set_reminded d j iso) = settings d
  /\ tasks_seq (set_reminded d j iso) = tasks_seq d.
Proof. repeat split. Qed.

Section Reminders.

Variable W : world.
Variable C : clock.

Lemma remind_each_spec (chat iso : str) : forall (due : list task) (d d' : db)
    (sent : list reminder) (raised : option exn),
  remind_each W C d chat iso due = (d', sent, raised) ->
  (forall m, In m sent -> marked d' (id (about m)) /\ to_chat m = chat
                          /\ keyboard m = reminder_keyboard (about m))
  /\ (forall i, marked d i -> marked d' i)
  /\ (forall t, In t (tasks d') -> reminded_at t = None -> In t (tasks d))
  /\ map core (tasks d') = map core (tasks d)
  /\ (exists later, due = map (@about) sent ++ later /\ (raised = None -> later = []))
  /\ pending_tasks d' = pending_tasks d /\ goals d' = goals d /\ settings d' = settings d.
Proof.
  induction due as [|t rest IH]; intros d d' sent raised E.
  - cbn [remind_each] in E. injection E as <- <- <-.
    split; [intros m []|]. split; [tauto|]. split; [tauto|]. split; [reflexivity|].
    split; [exists []; split; reflexivity|]. repeat split.
  - cbn [remind_each] in E.
    match type of E with
    | match ?x with _ => _ end = _ => destruct x as [due_text|e] eqn:T
    end.
    + destruct (remind_each W C (set_reminded d (id t) iso) chat iso rest)
        as [[d1 sent1] raised1] eqn:R.
      injection E as <- <- <-.
      destruct (IH _ _ _ _ R) as (S1 & K1 & U1 & C1 & (later & L1 & L2) & P1 & G1 & T1).
      split; [|split; [|split; [|split; [|split]]]].
      * intros m [<-|I]; [|now apply S1].
        cbn [about to_chat keyboard]. split; [|split; reflexivity].
        apply K1. apply set_reminded_marks.
      * intros i M. apply K1. now apply set_reminded_keeps_marks.
      * intros x I Rx. eapply set_reminded_unmarked; eauto.
      * rewrite C1. apply set_reminded_core.
      * exists later. split; [|exact L2]. cbn [map about app]. now rewrite L1.
      * rewrite P1, G1, T1. repeat split.
    + injection E as <- <- <-.
      split; [intros m []|]. split; [tauto|]. split; [tauto|]. split; [reflexivity|].
      split; [exists (t :: rest); split; [reflexivity|discriminate]|]. repeat split.
Qed.

Lemma due_in_table (d : db) (iso : str) (t : task) :
  In t (due_tasks_for_reminder d iso)
  <-> In t (tasks d) /\ status t = py "pending"
      /\ reminded_at t = None
      /\ exists x, due_at t = Some x /\ Str.ltb iso x = false.
Proof.
  unfold due_tasks_for_reminder. rewrite in_stable_sort, filter_In.
  split.
  - intros (I & H). apply andb_true_iff in H. destruct H as [S D].
    apply str_eqb_eq in S.
    destruct (due_at t) as [x|] eqn:Ed; [|discriminate].
    destruct (reminded_at t) eqn:Er; [discriminate|].
    apply negb_true_iff in D. repeat split; eauto.
  - intros (I & S & R & x & Ed & L). split; [exact I|].
    rewrite S, Ed, R, L. reflexivity.
Qed.

(** X14: [reminder_job] reminds once. A task it sent a reminder for is not
    due for a reminder afterwards, at any time; the reminders go, in order,
    to the tasks due at the clock's time in UTC, all to the stored chat;
    when the job ends without an exception every due task got its reminder
    and none is due any more; when the clock's conversion to UTC raises, or
    without a stored chat, nothing is sent and nothing is marked; and only
    [reminded_at] changes: ids, titles, due times and statuses, the pending
    drafts, the goals and the settings are as before. *)
Theorem reminder_job_reminds_once (d d' : db) (now : datetime)
        (sent : list reminder) (raised : option exn) :
  reminder_job W C d now = (d', sent, raised) ->
  (forall m later_iso, In m sent ->
      ~ In (id (about m)) (map id (due_tasks_for_reminder d' later_iso)))
  /\ (forall now_iso, to_utc_iso W now = Ok now_iso ->
        (exists later, due_tasks_for_reminder d now_iso = map (@about) sent ++ later)
        /\ (forall chat, stored_chat d = Some chat -> chat <> [] ->
              (forall m, In m sent -> to_chat m = chat)
              /\ (raised = None ->
                    map (@about) sent = due_tasks_for_reminder d now_iso
                    /\ due_tasks_for_reminder d' now_iso = [])))
  /\ (forall e, to_utc_iso W now = Raise e -> d' = d /\ sent = [] /\ raised = Some e)
  /\ ((stored_chat d = None \/ stored_chat d = Some []) -> d' = d /\ sent = [])
  /\ map core (tasks d') = map core (tasks d)
  /\ pending_tasks d' = pending_tasks d /\ goals d' = goals d /\ settings d' = settings d.
Proof.
  intros E. unfold reminder_job in E.
  unfold stored_chat, CHAT_KEY.
  destruct (to_utc_iso W now) as [now_iso|e] eqn:N.
  2:{ injection E as <- <- <-.
      split; [intros m ? []|]. split; [discriminate|].
      split; [intros e' H; injection H as <-; auto|]. repeat split. }
  destruct (due_tasks_for_reminder d now_iso) as [|t0 due0] eqn:Due.
  - injection E as <- <- <-.
    split; [intros m ? []|].
    split.
    { intros iso H. injection H as <-. split; [exists []; now rewrite Due|].
      intros chat Ec NE. split; [intros m []|]. intros _. now rewrite Due. }
    split; [discriminate|]. repeat split.
  - destruct (get_setting (settings d) (py "telegram_chat_id")) as [[|c s]|] eqn:G.
    + injection E as <- <- <-.
      split; [intros m ? []|].
      split.
      { intros iso H. injection H as <-. split; [exists (t0 :: due0); now rewrite Due|].
        intros chat Ec NE; congruence. }
      split; [discriminate|]. repeat split.
    + destruct (remind_each_spec _ _ _ _ E)
        as (S1 & K1 & U1 & C1 & (later & L1 & L2) & P1 & G1 & T1).
      split; [|split; [|split; [|split; [|split]]]].
      * intros m later_iso I J. apply in_map_iff in J. destruct J as (t & Et & It).
        apply due_in_table in It. destruct It as (It & _ & R & _).
        destruct (S1 m I) as (M & _). exact (M t It Et R).
      * intros iso H. injection H as <-. rewrite Due. split; [exists later; exact L1|].
        intros chat Ec NE. injection Ec as <-. split.
        -- intros m I. now destruct (S1 m I).
        -- intros ->. specialize (L2 eq_refl). subst later. rewrite app_nil_r in L1.
           split; [now rewrite L1|].
           destruct (due_tasks_for_reminder d' now_iso) as [|t l] eqn:Due'; [reflexivity|].
           exfalso.
           assert (It : In t (due_tasks_for_reminder d' now_iso)) by (rewrite Due'; now left).
           apply due_in_table in It. destruct It as (It & St & R & x & Ex & Lx).
           pose proof (U1 t It R) as I0.
           assert (D0 : In t (due_tasks_for_reminder d now_iso)).
           { apply due_in_table. repeat split; eauto. }
           rewrite Due, L1 in D0. apply in_map_iff in D0. destruct D0 as (m & Em & Im).
           destruct (S1 m Im) as (M & _). rewrite Em in M. exact (M t It eq_refl R).
      * discriminate.
      * intros [H|H]; discriminate H.
      * exact C1.
      * repeat split; assumption.
    + injection E as <- <- <-.
      split; [intros m ? []|].
      split.
      { intros iso H. injection H as <-. split; [exists (t0 :: due0); now rewrite Due|].
        intros chat Ec NE; congruence. }
      split; [discriminate|]. repeat split.
Qed.

End Reminders.

(* ===================================================================== *)
(** * Keywords *)
(* ===================================================================== *)

Import Config Db PaperService PaperScanner StatsService DemoLibrary.

(** ** [str.split] and [str.join] *)

(** [s.split(sep)] without a limit. *)
Fixpoint split_all (sep : cp) (s : str) : list str :=
  match s with
  | [] => [[]]
  | c :: rest =>
    if (c =? sep)%N then [] :: split_all sep rest
    else
      match split_all sep rest with
      | piece :: pieces => (c :: piece) :: pieces
      | [] => [[c]]
      end
  end.

Lemma split_all_nonempty (sep : cp) (s : str) : split_all sep s <> [].
Proof.
  destruct s as [|c r]; cbn [split_all]; [discriminate|].
  destruct (c =? sep)%N; [discriminate|]. destruct (split_all sep r); discriminate.
Qed.

Lemma split_max_enough (sep : cp) : forall (s : str) (k : nat),
  (List.length s <= k)%nat -> split_max sep s k = split_all sep s.
Proof.
  induction s as [|c r IH]; intros k L; [reflexivity|].
  cbn [List.length] in L. destruct k as [|k]; [lia|].
  cbn [split_max split_all].
  rewrite (IH k) by lia. rewrite (IH (S k)) by lia. reflexivity.
Qed.

Lemma split_on_all (sep : cp) (s : str) : split_on sep s = split_all sep s.
Proof. unfold split_on. now apply split_max_enough. Qed.

Definition free_of (sep : cp) (s : str) : Prop := ~ In sep s.

Lemma split_all_free (sep : cp) (s : str) : free_of sep s -> split_all sep s = [s].
Proof.
  induction s as [|c r IH]; intros F; [reflexivity|].
  cbn [split_all]. destruct (N.eqb_spec c sep) as [E|N].
  - exfalso. apply F. now left.
  - rewrite IH; [reflexivity|]. intros I. apply F. now right.
Qed.

Lemma split_all_app (sep : cp) (p q : str) :
  free_of sep p -> split_all sep (p ++ sep :: q) = p :: split_all sep q.
Proof.
  induction p as [|c r IH]; intros F.
  - cbn [app split_all]. now rewrite N.eqb_refl.
  - cbn [app split_all]. destruct (N.eqb_spec c sep) as [E|N].
    + exfalso. apply F. now left.
    + rewrite IH; [reflexivity|]. intros I. apply F. now right.
Qed.

(** Splitting what [join] built gives the parts back. *)
Lemma split_join (sep : cp) (parts : list str) :
  parts <> [] -> Forall (free_of sep) parts ->
  split_all sep (join [sep] parts) = parts.
Proof.
  induction parts as [|p rest IH]; intros NE F; [congruence|].
  inversion F as [|x xs Fp Fr]; subst.
  destruct rest as [|q rest].
  - cbn [join]. now apply split_all_free.
  - change (join [sep] (p :: q :: rest)) with (p ++ sep :: join [sep] (q :: rest)).
    rewrite split_all_app by exact Fp. f_equal. apply IH; [discriminate|exact Fr].
Qed.

(** The pieces of a split hold no separator. *)
Lemma split_all_pieces (sep : cp) (s : str) :
  Forall (free_of sep) (split_all sep s).
Proof.
  induction s as [|c r IH]; cbn [split_all].
  - repeat constructor. intros [].
  - destruct (N.eqb_spec c sep) as [E|N].
    + constructor; [intros []|exact IH].
    + destruct (split_all sep r) as [|p ps]; [repeat constructor|].
      * intros [E|[]]. congruence.
      * inversion IH as [|x xs Fp Fr]; subst. constructor; [|exact Fr].
        intros [E|I]; [congruence|now apply Fp].
Qed.

(** ** [str.strip] *)

Section Strip.

Variable sp : cp -> bool.

(** Neither end is whitespace. *)
Definition trimmed (s : str) : Prop :=
  match s, rev s with
  | c :: _, c' :: _ => sp c = false /\ sp c' = false
  | _, _ => True
  end.

Lemma lstrip_suffix (s : str) : exists p, s = p ++ lstrip sp s /\ forallb sp p = true.
Proof.
  induction s as [|c r (p & E & F)].
  - exists []. split; reflexivity.
  - cbn [lstrip]. destruct (sp c) eqn:S.
    + exists (c :: p). split; [cbn [app]; now rewrite <- E|].
      cbn [forallb]. now rewrite S, F.
    + exists []. split; reflexivity.
Qed.

Lemma lstrip_head_clean (s : str) (c : cp) (r : str) :
  lstrip sp s = c :: r -> sp c = false.
Proof.
  induction s as [|x s IH]; cbn [lstrip]; [discriminate|].
  destruct (sp x) eqn:S; [exact IH|]. intros E. injection E as <- _. exact S.
Qed.

Lemma lstrip_fixed (s : str) :
  match s with c :: _ => sp c = false | [] => True end -> lstrip sp s = s.
Proof. destruct s as [|c r]; [reflexivity|]. intros H. cbn [lstrip]. now rewrite H. Qed.

Lemma rstrip_prefix (s : str) : exists q, s = rstrip sp s ++ q /\ forallb sp q = true.
Proof.
  unfold rstrip. destruct (lstrip_suffix (rev s)) as (p & E & F).
  exists (rev p). split.
  - apply (f_equal (@rev cp)) in E. rewrite rev_involutive, rev_app_distr in E. exact E.
  - rewrite forallb_forall in *. intros x I. apply F. now apply in_rev.
Qed.

Lemma strip_middle (s : str) :
  exists p q, s = p ++ strip sp s ++ q /\ forallb sp p = true /\ forallb sp q = true.
Proof.
  destruct (lstrip_suffix s) as (p & E & F).
  destruct (rstrip_prefix (lstrip sp s)) as (q & E' & F').
  exists p, q. unfold strip. rewrite <- E'. auto.
Qed.

Lemma strip_trimmed (s : str) : trimmed (strip sp s).
Proof.
  unfold trimmed. destruct (strip sp s) as [|c r] eqn:E; [exact I|].
  destruct (rev (c :: r)) as [|c' r'] eqn:E'; [exact I|].
  split.
  - (* the head survives rstrip, so it is the head of lstrip *)
    destruct (rstrip_prefix (lstrip sp s)) as (q & Eq & _).
    unfold strip in E. rewrite E in Eq. cbn [app] in Eq.
    exact (lstrip_head_clean s Eq).
  - unfold strip, rstrip in E. rewrite <- E in E'. rewrite rev_involutive in E'.
    exact (lstrip_head_clean _ E').
Qed.

Lemma strip_fixed (s : str) : trimmed s -> strip sp s = s.
Proof.
  unfold trimmed, strip, rstrip. intros T.
  destruct s as [|c r]; [reflexivity|].
  destruct (rev (c :: r)) as [|c' r'] eqn:E.
  - apply (f_equal (@rev cp)) in E. rewrite rev_involutive in E. discriminate.
  - destruct T as [T1 T2]. rewrite (lstrip_fixed (c :: r) T1).
    rewrite E. rewrite (lstrip_fixed (c' :: r') T2). rewrite <- E. apply rev_involutive.
Qed.

Lemma strip_idem (s : str) : strip sp (strip sp s) = strip sp s.
Proof. apply strip_fixed, strip_trimmed. Qed.

Lemma strip_in (s : str) (x : cp) : In x (strip sp s) -> In x s.
Proof.
  destruct (strip_middle s) as (p & q & E & _). intros I. rewrite E.
  apply in_or_app. right. apply in_or_app. now left.
Qed.

End Strip.

(** ** Keywords *)

(** A keyword as [_split_keywords] returns them: not empty, no whitespace
    at either end, no comma. *)
Definition clean_keyword (U : unicode) (kw : str) : Prop :=
  kw <> [] /\ strip (isspace U) kw = kw /\ ~ In comma kw.

Lemma split_keywords_clean (U : unicode) (value kw : str) :
  In kw (_split_keywords U value) -> clean_keyword U kw.
Proof.
  unfold _split_keywords. intros I. apply in_map_iff in I.
  destruct I as (piece & E & I). apply filter_In in I. destruct I as [I NE].
  rewrite split_on_all in I. subst kw. split; [|split].
  - destruct (strip (isspace U) piece); [discriminate|discriminate].
  - apply strip_idem.
  - intros J. apply strip_in in J.
    pose proof (split_all_pieces comma value) as F.
    rewrite Forall_forall in F. exact (F piece I J).
Qed.

Lemma split_keywords_of_clean (U : unicode) (kws : list str) :
  Forall (clean_keyword U) kws ->
  _split_keywords U (join (py ",") kws) = kws.
Proof.
  intros F. unfold _split_keywords. rewrite split_on_all.
  destruct kws as [|k kws].
  - reflexivity.
  - change (py ",") with [comma]. rewrite split_join.
    + rewrite forallb_filter_id.
      * rewrite <- (map_id (k :: kws)) at 2. apply map_ext_in.
        intros a Ia. rewrite Forall_forall in F. now destruct (F a Ia) as (_ & S & _).
      * apply forallb_forall. intros a Ia. rewrite Forall_forall in F.
        destruct (F a Ia) as (NE & S & _). rewrite S. destruct a; [congruence|reflexivity].
    + discriminate.
    + eapply Forall_impl; [|exact F]. intros a (_ & _ & N). exact N.
Qed.

(** X19: every keyword [_split_keywords] returns is non-empty, has no
    whitespace at either end and holds no comma; joining the keywords with
    commas and splitting again gives the same list. *)
Theorem split_keywords_round_trip (U : unicode) (value : str) :
  Forall (clean_keyword U) (_split_keywords U value)
  /\ _split_keywords U (join (py ",") (_split_keywords U value))
     = _split_keywords U value.
Proof.
  assert (F : Forall (clean_keyword U) (_split_keywords U value)).
  { apply Forall_forall. intros kw. apply split_keywords_clean. }
  split; [exact F|]. now apply split_keywords_of_clean.
Qed.

(* ===================================================================== *)
(** * [ensure_defaults] *)
(* ===================================================================== *)

Lemma str_eqb_neq (a b : str) : a <> b -> Str.eqb a b = false.
Proof.
  intros N. destruct (Str.eqb a b) eqn:E; [|reflexivity].
  apply str_eqb_eq in E. contradiction.
Qed.

Lemma get_upsert_other (rows : list (str * str)) (k v k' : str) :
  k' <> k -> get_setting (upsert rows k v) k' = get_setting rows k'.
Proof.
  intros N. induction rows as [|[k0 v0] rows IH]; cbn [upsert get_setting].
  - rewrite (@str_eqb_neq k k') by congruence. reflexivity.
  - destruct (Str.eqb k0 k) eqn:E; cbn [get_setting].
    + apply str_eqb_eq in E. subst k0.
      rewrite (@str_eqb_neq k k') by congruence. reflexivity.
    + destruct (Str.eqb k0 k'); [reflexivity|exact IH].
Qed.

(** A value that is there survives the writing of a key that has none. *)
Lemma set_missing_keeps (d : db) (k v k' v' : str) :
  get_setting (settings d) k = None ->
  get_setting (settings d) k' = Some v' ->
  get_setting (settings (set_setting d k v)) k' = Some v'.
Proof.
  intros Nk G. cbn [set_setting settings].
  rewrite get_upsert_other; [exact G|]. intros ->. congruence.
Qed.

Lemma get_after_set (d : db) (k v : str) :
  get_setting (settings (set_setting d k v)) k = Some v.
Proof. cbn [set_setting settings]. apply get_upsert. Qed.

(** One step of [ensure_defaults]. *)
Definition default_to (d : db) (k v : str) : db :=
  match get_setting (settings d) k with
  | None => set_setting d k v
  | Some _ => d
  end.

Lemma default_to_keeps (d : db) (k v k' v' : str) :
  get_setting (settings d) k' = Some v' ->
  get_setting (settings (default_to d k v)) k' = Some v'.
Proof.
  intros G. unfold default_to. destruct (get_setting (settings d) k) eqn:E; [exact G|].
  now apply set_missing_keeps.
Qed.

Lemma default_to_has (d : db) (k v : str) :
  exists v', get_setting (settings (default_to d k v)) k = Some v'.
Proof.
  unfold default_to. destruct (get_setting (settings d) k) eqn:E.
  - rewrite E. eauto.
  - rewrite get_after_set. eauto.
Qed.

Lemma default_to_done (d : db) (k v v' : str) :
  get_setting (settings d) k = Some v' -> default_to d k v = d.
Proof. intros G. unfold default_to. now rewrite G. Qed.

Lemma default_to_missing (d : db) (k v : str) :
  get_setting (settings d) k = None ->
  get_setting (settings (default_to d k v)) k = Some v.
Proof. intros G. unfold default_to. rewrite G. apply get_after_set. Qed.

Lemma default_to_tables (d : db) (k v : str) :
  tasks (default_to d k v) = tasks d
  /\ pending_tasks (default_to d k v) = pending_tasks d
  /\ goals (default_to d k v) = goals d.
Proof. unfold default_to. destruct (get_setting _ _); repeat split. Qed.

(** The chat id of the configuration, when it has one. *)
Definition default_chat (d : db) (cfg : config) : db :=
  match telegram_chat_id cfg with
  | Some (c :: s) => default_to d (py "telegram_chat_id") (c :: s)
  | _ => d
  end.

Lemma ensure_defaults_steps (d : db) (cfg : config) :
  ensure_defaults d cfg
  = default_chat
      (default_to (default_to d (py "thesis_topic") (thesis_topic cfg))
                  (py "paper_keywords") (join (py ",") (paper_keywords cfg)))
      cfg.
Proof. reflexivity. Qed.

Lemma default_chat_keeps (d : db) (cfg : config) (k' v' : str) :
  get_setting (settings d) k' = Some v' ->
  get_setting (settings (default_chat d cfg)) k' = Some v'.
Proof.
  intros G. unfold default_chat. destruct (telegram_chat_id cfg) as [[|c s]|]; try exact G.
  now apply default_to_keeps.
Qed.

(** X21: [ensure_defaults] never overwrites: every setting that has a value
    keeps it, a missing thesis topic gets the configured one, running it a
    second time changes nothing, and the tasks and pending drafts are not
    touched. *)
Theorem ensure_defaults_keeps_settings (d : db) (cfg : config) :
  (forall key value, get_setting (settings d) key = Some value ->
      get_setting (settings (ensure_defaults d cfg)) key = Some value)
  /\ (get_setting (settings d) (py "thesis_topic") = None ->
      get_setting (settings (ensure_defaults d cfg)) (py "thesis_topic")
      = Some (thesis_topic cfg))
  /\ ensure_defaults (ensure_defaults d cfg) cfg = ensure_defaults d cfg
  /\ tasks (ensure_defaults d cfg) = tasks d
  /\ pending_tasks (ensure_defaults d cfg) = pending_tasks d.
Proof.
  rewrite !ensure_defaults_steps.
  set (d1 := default_to d (py "thesis_topic") (thesis_topic cfg)).
  set (d2 := default_to d1 (py "paper_keywords") (join (py ",") (paper_keywords cfg))).
  split; [|split; [|split; [|split]]].
  - intros key value G. apply default_chat_keeps. apply default_to_keeps.
    now apply default_to_keeps.
  - intros G. apply default_chat_keeps. apply default_to_keeps.
    now apply default_to_missing.
  - destruct (default_to_has d (py "thesis_topic") (thesis_topic cfg)) as (v1 & G1).
    fold d1 in G1.
    destruct (default_to_has d1 (py "paper_keywords") (join (py ",") (paper_keywords cfg)))
      as (v2 & G2).
    fold d2 in G2.
    assert (G1' : get_setting (settings (default_chat d2 cfg)) (py "thesis_topic") = Some v1).
    { apply default_chat_keeps. now apply default_to_keeps. }
    assert (G2' : get_setting (settings (default_chat d2 cfg)) (py "paper_keywords") = Some v2).
    { now apply default_chat_keeps. }
    rewrite (@default_to_done _ _ (thesis_topic cfg) _ G1').
    rewrite (@default_to_done _ _ (join (py ",") (paper_keywords cfg)) _ G2').
    unfold default_chat at 1. destruct (telegram_chat_id cfg) as [[|c s]|] eqn:T; try reflexivity.
    assert (exists v3, get_setting (settings (default_chat d2 cfg)) (py "telegram_chat_id")
                       = Some v3) as (v3 & G3).
    { unfold default_chat. rewrite T. apply default_to_has. }
    now rewrite (@default_to_done _ _ (c :: s) _ G3).
  - assert (T2 : tasks d2 = tasks d).
    { unfold d2, d1. now rewrite !(proj1 (default_to_tables _ _ _)). }
    unfold default_chat. destruct (telegram_chat_id cfg) as [[|c s]|]; try exact T2.
    now rewrite (proj1 (default_to_tables _ _ _)).
  - assert (T2 : pending_tasks d2 = pending_tasks d).
    { unfold d2, d1. now rewrite !(proj1 (proj2 (default_to_tables _ _ _))). }
    unfold default_chat. destruct (telegram_chat_id cfg) as [[|c s]|]; try exact T2.
    now rewrite (proj1 (proj2 (default_to_tables _ _ _))).
Qed.

(** X20: the keywords survive the settings table. With configured keywords
    as [_split_keywords] makes them: on a database without the setting,
    [ensure_defaults] stores them and [_load_keywords] returns the configured
    list; on a database that has a value, that value wins. *)
Theorem stored_keywords_are_loaded_back (W : world) (cfg : config) (d : db) :
  Forall (clean_keyword (tables W)) (paper_keywords cfg) ->
  (get_setting (settings d) (py "paper_keywords") = None ->
   _load_keywords W cfg (ensure_defaults d cfg) = paper_keywords cfg)
  /\ (forall c s, get_setting (settings d) (py "paper_keywords") = Some (c :: s) ->
      _load_keywords W cfg (ensure_defaults d cfg)
      = _split_keywords (tables W) (c :: s)).
Proof.
  intros F. rewrite ensure_defaults_steps.
  set (d1 := default_to d (py "thesis_topic") (thesis_topic cfg)).
  split.
  - intros G.
    assert (G1 : get_setting (settings d1) (py "paper_keywords") = None).
    { unfold d1, default_to.
      destruct (get_setting (settings d) (py "thesis_topic")); [exact G|].
      cbn [set_setting settings]. rewrite get_upsert_other; [exact G|].
      vm_compute. discriminate. }
    pose proof (@default_to_missing d1 (py "paper_keywords")
                  (join (py ",") (paper_keywords cfg)) G1) as G2.
    pose proof (@default_chat_keeps _ cfg _ _ G2) as G3.
    unfold _load_keywords. rewrite G3.
    destruct (join (py ",") (paper_keywords cfg)) as [|c s] eqn:J.
    + (* nothing to split: the configured list is empty *)
      destruct (paper_keywords cfg) as [|k ks] eqn:K; [reflexivity|].
      exfalso. rewrite Forall_forall in F.
      destruct (F k (or_introl eq_refl)) as (NE & _).
      destruct ks; cbn [join] in J; [congruence|].
      destruct k; [congruence|discriminate].
    + rewrite <- J. now apply split_keywords_of_clean.
  - intros c s G.
    assert (G3 : get_setting
                   (settings (default_chat
                      (default_to d1 (py "paper_keywords")
                                  (join (py ",") (paper_keywords cfg))) cfg))
                   (py "paper_keywords") = Some (c :: s)).
    { apply default_chat_keeps. apply default_to_keeps. now apply default_to_keeps. }
    unfold _load_keywords. now rewrite G3.
Qed.

(* ===================================================================== *)
(** * The library and [scan_papers] *)
(* ===================================================================== *)

Section Library.

Variable float : Type.

(** The key of [UNIQUE(source, source_id)]. *)
Definition origin (p : paper float) : str * str := (paper_source p, source_id p).

(** The constraints of [papers]: the pairs [(source, source_id)] are
    distinct, the ids are distinct, and none is above the largest rowid
    handed out, which is not negative. *)
Definition shelf_ok (l : library float) : Prop :=
  NoDup (map origin (papers l))
  /\ NoDup (map (@paper_id float) (papers l))
  /\ Forall (fun p => paper_id p <= papers_seq l) (papers l)
  /\ 0 <= papers_seq l.

Lemma known_in (l : library float) (source sid : str) :
  known l source sid = true <-> In (source, sid) (map origin (papers l)).
Proof.
  unfold known. rewrite existsb_exists. split.
  - intros (p & I & H). apply andb_true_iff in H. destruct H as [A B].
    apply str_eqb_eq in A, B. apply in_map_iff. exists p. split; [|exact I].
    unfold origin. congruence.
  - intros I. apply in_map_iff in I. destruct I as (p & E & I).
    exists p. split; [exact I|]. unfold origin in E. injection E as <- <-.
    now rewrite !str_eqb_refl.
Qed.

Lemma update_analysis_origins (l : library float) (i : Z) (score : option float)
      (summary tags : option str) :
  map origin (papers (update_analysis l i score summary tags)) = map origin (papers l)
  /\ map (@paper_id float) (papers (update_analysis l i score summary tags))
     = map (@paper_id float) (papers l)
  /\ papers_seq (update_analysis l i score summary tags) = papers_seq l
  /\ reads (update_analysis l i score summary tags) = reads l
  /\ List.length (papers (update_analysis l i score summary tags))
     = List.length (papers l).
Proof.
  cbn [update_analysis papers papers_seq reads]. repeat split.
  - rewrite map_map. apply map_ext. intros p. destruct (paper_id p =? i); reflexivity.
  - rewrite map_map. apply map_ext. intros p. destruct (paper_id p =? i); reflexivity.
  - apply length_map.
Qed.

Lemma shelf_ok_update (l : library float) (i : Z) (score : option float)
      (summary tags : option str) :
  shelf_ok l -> shelf_ok (update_analysis l i score summary tags).
Proof.
  intros (U & I & B & P).
  destruct (update_analysis_origins l i score summary tags) as (E1 & E2 & E3 & _ & _).
  unfold shelf_ok. rewrite E1, E2, E3. repeat split; try assumption.
  apply Forall_forall. intros p Ip.
  assert (Iid : In (paper_id p) (map (@paper_id float) (papers l))).
  { rewrite <- E2. now apply in_map. }
  apply in_map_iff in Iid. destruct Iid as (q & Eq & Iq).
  rewrite Forall_forall in B. rewrite <- Eq. now apply B.
Qed.

(** What [store_paper] does, by cases. *)
Lemma store_paper_cases (l : library float) (source : str) (sid : option str)
      (title : str) (abstract url authors published_at : option str) (fetched_at : str) :
  (store_paper l source sid title abstract url authors published_at fetched_at = (l, None)
   /\ (sid = None \/ exists x, sid = Some x /\ known l source x = true))
  \/ (exists x row,
        sid = Some x /\ known l source x = false
        /\ store_paper l source sid title abstract url authors published_at fetched_at
           = ({| papers := papers l ++ [row]; papers_seq := papers_seq l + 1;
                 reads := reads l; reads_seq := reads_seq l |}, Some (papers_seq l + 1))
        /\ origin row = (source, x) /\ paper_id row = papers_seq l + 1
        /\ paper_status row = py "new").
Proof.
  unfold store_paper. destruct sid as [x|]; [|left; auto].
  destruct (known l source x) eqn:K; [left; eauto|].
  right. exists x. eexists. split; [reflexivity|]. split; [exact K|].
  split; [reflexivity|]. repeat split.
Qed.

Lemma shelf_ok_store (l : library float) (source : str) (sid : option str)
      (title : str) (abstract url authors published_at : option str) (fetched_at : str) :
  shelf_ok l ->
  shelf_ok (fst (store_paper l source sid title abstract url authors published_at
                             fetched_at)).
Proof.
  intros OK. pose proof OK as (U & I & B & P).
  destruct (store_paper_cases l source sid title abstract url authors published_at
                              fetched_at)
    as [(E & _)|(x & row & Es & K & E & Eo & Ei & _)]; rewrite E; cbn [fst]; [exact OK|].
  unfold shelf_ok. cbn [papers papers_seq]. rewrite !map_app. cbn [map].
  rewrite Eo, Ei. split; [|split; [|split]].
  - apply NoDup_app; [exact U|repeat constructor; intros []|].
    intros y Iy [<-|[]]. apply known_in in Iy. congruence.
  - apply NoDup_app; [exact I|repeat constructor; intros []|].
    intros y Iy [<-|[]]. apply in_map_iff in Iy. destruct Iy as (q & Eq & Iq).
    rewrite Forall_forall in B. specialize (B q Iq). lia.
  - apply Forall_app. split.
    + eapply Forall_impl; [|exact B]. cbv beta. intros; lia.
    + repeat constructor. lia.
  - lia.
Qed.

End Library.

Section Scan.

Variable float : Type.
Variable W : world.
Variable cfg : config.

(** The state of the loops of [scan_papers]: the counters stay in order. *)
Definition counted (l0 : library float) (budget0 : Z) (p : progress float) : Prop :=
  shelf_ok (shelf p)
  /\ 0 <= analyzed p <= new_papers p
  /\ Z.of_nat (List.length (papers (shelf p)))
     = Z.of_nat (List.length (papers l0)) + new_papers p
  /\ analysis_budget p = budget0 - analyzed p
  /\ (0 < analyzed p -> analyzed p <= budget0)
  /\ (forall source sid, known l0 source sid = true -> known (shelf p) source sid = true)
  /\ reads (shelf p) = reads l0.

Lemma known_store_mono (l : library float) (source : str) (sid : option str)
      (title : str) (abstract url authors published_at : option str) (fetched_at : str)
      (s x : str) :
  known l s x = true ->
  known (fst (store_paper l source sid title abstract url authors published_at fetched_at))
        s x = true.
Proof.
  intros K.
  destruct (store_paper_cases l source sid title abstract url authors published_at
                              fetched_at)
    as [(E & _)|(y & row & Es & Ky & E & Eo & Ei & _)]; rewrite E; cbn [fst]; [exact K|].
  apply known_in. cbn [papers]. rewrite map_app. apply in_or_app. left.
  now apply known_in.
Qed.

Lemma known_update (l : library float) (i : Z) (score : option float)
      (summary tags : option str) (s x : str) :
  known (update_analysis l i score summary tags) s x = known l s x.
Proof.
  apply eq_true_iff_eq. rewrite !known_in.
  now rewrite (proj1 (update_analysis_origins l i score summary tags)).
Qed.

Variable S : services float.

Lemma scan_entry_step (d : db) (source fetched_at : str) (p : progress float) (e : entry) :
  let p' := scan_entry S cfg d source fetched_at p e in
  (forall l0 b0, counted l0 b0 p -> counted l0 b0 p')
  /\ (shelf_ok (shelf p) ->
      shelf_ok (shelf p') /\ new_papers p <= new_papers p' <= new_papers p + 1)
  /\ (forall x, entry_source_id e = Some x -> known (shelf p') source x = true)
  /\ (forall s x, known (shelf p) s x = true -> known (shelf p') s x = true)
  /\ ((entry_source_id e = None
       \/ exists x, entry_source_id e = Some x /\ known (shelf p) source x = true) ->
      p' = p).
Proof.
  intros p'. unfold p', scan_entry.
  destruct (store_paper_cases (shelf p) source (entry_source_id e) (entry_title e)
              (entry_abstract e) (entry_url e) (entry_authors e)
              (entry_published_at e) fetched_at)
    as [(E & Why)|(x & row & Es & K & E & Eo & Ei & _)].
  - rewrite E. split; [auto|]. split; [intros; split; [assumption|lia]|].
    split; [|split; [auto|auto]].
    intros x Ex. destruct Why as [N|(y & Ey & Ky)]; congruence.
  - pose proof (@shelf_ok_store float (shelf p) source (entry_source_id e) (entry_title e)
                  (entry_abstract e) (entry_url e) (entry_authors e)
                  (entry_published_at e) fetched_at) as OKs.
    pose proof (fun s y => @known_store_mono (shelf p) source (entry_source_id e)
                  (entry_title e) (entry_abstract e) (entry_url e) (entry_authors e)
                  (entry_published_at e) fetched_at s y) as Mono.
    rewrite E in *. cbn [fst] in OKs, Mono.
    set (l1 := {| papers := papers (shelf p) ++ [row]; papers_seq := papers_seq (shelf p) + 1;
                  reads := reads (shelf p); reads_seq := reads_seq (shelf p) |}) in *.
    assert (K1 : known l1 source x = true).
    { apply known_in. cbn [l1 papers]. rewrite map_app. apply in_or_app. right.
      cbn [map]. rewrite Eo. now left. }
    assert (L1 : Z.of_nat (List.length (papers l1))
                 = Z.of_nat (List.length (papers (shelf p))) + 1).
    { cbn [l1 papers]. rewrite length_app. cbn [List.length]. lia. }
    split; [|split; [|split; [|split]]].
    + intros l0 b0 (OK & A & L & Bu & Bd & Kn & R).
      pose proof OK as (_ & _ & _ & P0).
      destruct (Z.eqb_spec (papers_seq (shelf p) + 1) 0) as [Z0|_]; [lia|].
      destruct (Z.ltb_spec 0 (analysis_budget p)) as [Pos|NPos].
      * destruct (analyze_paper S _ _ _ _ _) as [[[score summary] tags]|].
        -- unfold counted. cbn [shelf new_papers analyzed analysis_budget].
           destruct (update_analysis_origins l1 (papers_seq (shelf p) + 1) score summary tags)
             as (_ & _ & _ & Er & El).
           split; [apply shelf_ok_update; auto|]. split; [lia|].
           split; [rewrite El; lia|]. split; [lia|]. split; [lia|].
           split; [|rewrite Er; exact R].
           intros s y Ky. rewrite known_update. apply Mono. now apply Kn.
        -- unfold counted. cbn [shelf new_papers analyzed analysis_budget].
           split; [now apply OKs|]. split; [lia|]. split; [lia|]. split; [lia|].
           split; [lia|]. split; [|exact R].
           intros s y Ky. apply Mono. now apply Kn.
      * unfold counted. cbn [shelf new_papers analyzed analysis_budget].
        split; [now apply OKs|]. split; [lia|]. split; [lia|]. split; [lia|].
        split; [lia|]. split; [|exact R].
        intros s y Ky. apply Mono. now apply Kn.
    + intros OK. pose proof OK as (_ & _ & _ & P0).
      destruct (Z.eqb_spec (papers_seq (shelf p) + 1) 0) as [Z0|_]; [lia|].
      destruct (0 <? analysis_budget p);
        [destruct (analyze_paper S _ _ _ _ _) as [[[score summary] tags]|]|];
        cbn [new_papers shelf]; (split; [|lia]); auto.
      now apply shelf_ok_update, OKs.
    + intros y Ey. assert (y = x) by congruence. subst y.
      destruct (papers_seq (shelf p) + 1 =? 0); [exact K1|].
      destruct (0 <? analysis_budget p);
        [destruct (analyze_paper S _ _ _ _ _) as [[[score summary] tags]|]|];
        cbn [shelf]; try exact K1. now rewrite known_update.
    + intros s y Ky.
      destruct (papers_seq (shelf p) + 1 =? 0); [now apply Mono|].
      destruct (0 <? analysis_budget p);
        [destruct (analyze_paper S _ _ _ _ _) as [[[score summary] tags]|]|];
        cbn [shelf]; try (now apply Mono). rewrite known_update. now apply Mono.
    + intros [N|(y & Ey & Ky)]; congruence.
Qed.

Lemma scan_fold (d : db) (source fetched_at : str) : forall (es : list entry)
    (p : progress float),
  let p' := fold_left (scan_entry S cfg d source fetched_at) es p in
  (forall l0 b0, counted l0 b0 p -> counted l0 b0 p')
  /\ (shelf_ok (shelf p) ->
      shelf_ok (shelf p')
      /\ new_papers p <= new_papers p' <= new_papers p + Z.of_nat (List.length es))
  /\ (forall e x, In e es -> entry_source_id e = Some x -> known (shelf p') source x = true)
  /\ (forall s x, known (shelf p) s x = true -> known (shelf p') s x = true)
  /\ ((forall e x, In e es -> entry_source_id e = Some x ->
                   known (shelf p) source x = true) -> p' = p).
Proof.
  induction es as [|e es IH]; intros p p'.
  - cbn [fold_left] in p'. unfold p'.
    split; [auto|]. split; [intros OK; split; [exact OK|cbn [List.length]; lia]|].
    split; [intros e x []|]. split; auto.
  - cbn [fold_left] in p'.
    destruct (scan_entry_step d source fetched_at p e) as (C1 & N1 & K1 & M1 & F1).
    destruct (IH (scan_entry S cfg d source fetched_at p e)) as (C2 & N2 & K2 & M2 & F2).
    fold p' in C2, N2, K2, M2, F2.
    split; [auto|]. split; [|split; [|split]].
    + intros OK. destruct (N1 OK) as (OK1 & B1). destruct (N2 OK1) as (OK2 & B2).
      split; [exact OK2|]. cbn [List.length]. lia.
    + intros e' x [<-|I] Ex; [apply M2; now apply K1|eapply K2; eauto].
    + auto.
    + intros All.
      assert (Ep : scan_entry S cfg d source fetched_at p e = p).
      { apply F1. destruct (entry_source_id e) as [x|] eqn:Ex; [right|now left].
        exists x. split; [reflexivity|]. apply (All e x); [now left|exact Ex]. }
      unfold p'. rewrite Ep. destruct (IH p) as (_ & _ & _ & _ & F3). apply F3.
      intros e' x I Ex. apply (All e' x); [now right|exact Ex].
Qed.

End Scan.

Section ScanPapers.

Variable float : Type.
Variable W : world.
Variable cfg : config.

(** The entries [scan_papers] gets from the two searches. *)
Definition max_results : Z :=
  if 0 <? max_papers_per_day cfg then max_papers_per_day cfg else 200.

Definition arxiv_feed (S : services float) (d : db) : list entry :=
  match fetch_arxiv S (_load_keywords W cfg d) max_results with
  | Some papers => papers
  | None => []
  end.

Definition semantic_feed (S : services float) (d : db) : list entry :=
  match fetch_semantic_scholar S (_load_keywords W cfg d) max_results
                               (semantic_scholar_api_key cfg) with
  | Some papers => papers
  | None => []
  end.

Definition start (l : library float) : progress float :=
  {| shelf := l; new_papers := 0; analyzed := 0;
     analysis_budget := max_papers_per_day cfg; calls := O |}.

Lemma scan_papers_folds (S : services float) (d : db) (l : library float) (now : datetime)
      (iso : str) :
  to_utc_iso W now = Ok iso ->
  scan_papers W S cfg d l now
  = Ok (let p :=
          fold_left (scan_entry S cfg d (py "semantic_scholar") iso)
                    (semantic_feed S d)
                    (fold_left (scan_entry S cfg d (py "arxiv") iso)
                               (arxiv_feed S d) (start l)) in
        (set_setting d (py "last_scan") iso, shelf p, (new_papers p, analyzed p))).
Proof. intros N. unfold scan_papers. rewrite N. reflexivity. Qed.

Lemma counted_start (l : library float) :
  shelf_ok l -> counted l (max_papers_per_day cfg) (start l).
Proof.
  intros OK. unfold counted, start. cbn [shelf new_papers analyzed analysis_budget].
  split; [exact OK|]. split; [lia|]. split; [lia|]. split; [lia|]. split; [lia|].
  split; [auto|reflexivity].
Qed.

(** X22: the counters of [scan_papers]. The scan returns when the clock's
    conversion to UTC does (and raises with it otherwise, before anything is
    fetched). On a table that satisfies its constraints, the analysed papers
    are at most the new ones and at most the daily limit (none when the
    limit is not positive), the new ones at most the entries fetched;
    [papers] grows by exactly the new papers and still satisfies its
    constraints, [reads] is untouched, and [last_scan] holds the time of the
    scan. *)
Theorem scan_papers_counts (S : services float) (d : db) (l : library float)
        (now : datetime) :
  shelf_ok l ->
  (forall e, to_utc_iso W now = Raise e -> scan_papers W S cfg d l now = Raise e)
  /\ forall iso, to_utc_iso W now = Ok iso ->
     exists d' l' new done,
       scan_papers W S cfg d l now = Ok (d', l', (new, done))
       /\ 0 <= done <= new
       /\ done <= Z.max 0 (max_papers_per_day cfg)
       /\ new <= Z.of_nat (List.length (arxiv_feed S d) + List.length (semantic_feed S d))
       /\ Z.of_nat (List.length (papers l')) = Z.of_nat (List.length (papers l)) + new
       /\ shelf_ok l'
       /\ reads l' = reads l
       /\ get_setting (settings d') (py "last_scan") = Some iso
       /\ tasks d' = tasks d.
Proof.
  intros OK. split.
  { intros e N. unfold scan_papers. now rewrite N. }
  intros iso N. rewrite (scan_papers_folds S d l now N). cbv zeta.
  set (p1 := fold_left (scan_entry S cfg d (py "arxiv") iso) (arxiv_feed S d) (start l)).
  set (p2 := fold_left (scan_entry S cfg d (py "semantic_scholar") iso)
                       (semantic_feed S d) p1).
  destruct (scan_fold cfg S d (py "arxiv") iso (arxiv_feed S d) (start l))
    as (C1 & N1 & _).
  destruct (scan_fold cfg S d (py "semantic_scholar") iso (semantic_feed S d) p1)
    as (C2 & N2 & _).
  fold p1 in C1, N1. fold p2 in C2, N2.
  pose proof (C2 _ _ (C1 _ _ (counted_start OK))) as (OK2 & A & L & Bu & Bd & _ & R).
  destruct (N1 OK) as (OK1 & B1). destruct (N2 OK1) as (_ & B2).
  cbn [start new_papers] in B1.
  exists (set_setting d (py "last_scan") iso), (shelf p2), (new_papers p2), (analyzed p2).
  split; [reflexivity|].
  split; [exact A|]. split; [lia|]. split; [lia|]. split; [exact L|].
  split; [exact OK2|]. split; [exact R|]. split; [|reflexivity].
  cbn [set_setting settings]. apply get_upsert.
Qed.

(** X23: a paper is stored once. When the searches return the same entries
    again, the second [scan_papers] reports no new and no analysed paper and
    leaves the library as the first scan left it, whatever the analysis
    would answer. *)
Theorem second_scan_stores_nothing (S S' : services float) (d : db) (l : library float)
        (now now' : datetime) (iso iso' : str) :
  arxiv_feed S' d = arxiv_feed S d ->
  semantic_feed S' d = semantic_feed S d ->
  to_utc_iso W now = Ok iso ->
  to_utc_iso W now' = Ok iso' ->
  exists d1 l1 counts,
    scan_papers W S cfg d l now = Ok (d1, l1, counts)
    /\ scan_papers W S' cfg d1 l1 now'
       = Ok (set_setting d1 (py "last_scan") iso', l1, (0, 0)).
Proof.
  intros Fa Fs N N'. rewrite (scan_papers_folds S d l now N). cbv zeta.
  set (p1 := fold_left (scan_entry S cfg d (py "arxiv") iso) (arxiv_feed S d) (start l)).
  set (p2 := fold_left (scan_entry S cfg d (py "semantic_scholar") iso)
                       (semantic_feed S d) p1).
  set (d1 := set_setting d (py "last_scan") iso).
  exists d1, (shelf p2), (new_papers p2, analyzed p2). split; [reflexivity|].
  destruct (scan_fold cfg S d (py "arxiv") iso (arxiv_feed S d) (start l))
    as (_ & _ & K1 & _ & _).
  destruct (scan_fold cfg S d (py "semantic_scholar") iso (semantic_feed S d) p1)
    as (_ & _ & K2 & M2 & _).
  fold p1 in K1. fold p2 in K2, M2.
  assert (Kw : _load_keywords W cfg d1 = _load_keywords W cfg d).
  { unfold _load_keywords, d1. cbn [set_setting settings].
    rewrite get_upsert_other; [reflexivity|]. vm_compute. discriminate. }
  assert (Fa' : arxiv_feed S' d1 = arxiv_feed S d).
  { rewrite <- Fa. unfold arxiv_feed. now rewrite Kw. }
  assert (Fs' : semantic_feed S' d1 = semantic_feed S d).
  { rewrite <- Fs. unfold semantic_feed. now rewrite Kw. }
  rewrite (scan_papers_folds S' d1 (shelf p2) now' N'). cbv zeta. rewrite Fa', Fs'.
  destruct (scan_fold cfg S' d1 (py "arxiv") iso' (arxiv_feed S d) (start (shelf p2)))
    as (_ & _ & _ & _ & F1).
  rewrite F1.
  - destruct (scan_fold cfg S' d1 (py "semantic_scholar") iso' (semantic_feed S d)
                        (start (shelf p2)))
      as (_ & _ & _ & _ & F2).
    rewrite F2; [reflexivity|].
    intros e x I Ex. cbn [start shelf]. eapply K2; eauto.
  - intros e x I Ex. cbn [start shelf]. apply M2. eapply K1; eauto.
Qed.

End ScanPapers.

Section Reading.

Variable float : Type.

Lemma mark_read_cases (l : library float) (i : Z) (iso : str) :
  (get_paper l i = None /\ mark_read l i iso = None)
  \/ (exists p l', get_paper l i = Some p /\ mark_read l i iso = Some l'
        /\ reads l' = reads l ++ [{| read_id := reads_seq l + 1; read_paper_id := i;
                                     read_at := iso |}]
        /\ map (@origin float) (papers l') = map (@origin float) (papers l)
        /\ map (@paper_id float) (papers l') = map (@paper_id float) (papers l)
        /\ papers_seq l' = papers_seq l
        /\ (exists p', get_paper l' i = Some p' /\ paper_status p' = py "read"
                       /\ paper_title p' = paper_title p)).
Proof.
  unfold mark_read, get_paper.
  destruct (find (fun p => paper_id p =? i) (papers l)) as [p|] eqn:F.
  - right.
    assert (X : existsb (fun p => paper_id p =? i) (papers l) = true).
    { apply existsb_exists. apply find_some in F. exists p. exact F. }
    rewrite X. eexists p, _. split; [reflexivity|]. split; [reflexivity|].
    cbn [reads papers papers_seq]. split; [reflexivity|].
    split; [|split; [|split; [reflexivity|]]].
    + rewrite map_map. apply map_ext. intros q. destruct (paper_id q =? i); reflexivity.
    + rewrite map_map. apply map_ext. intros q. destruct (paper_id q =? i); reflexivity.
    + clear X. induction (papers l) as [|q qs IH]; [discriminate|].
      cbn [find] in F. cbn [map find].
      destruct (paper_id q =? i) eqn:E.
      * injection F as <-. cbn [paper_id]. rewrite E. eexists. repeat split.
      * rewrite E. now apply IH.
  - left. split; [reflexivity|].
    assert (X : existsb (fun p => paper_id p =? i) (papers l) = false).
    { destruct (existsb _ _) eqn:X; [|reflexivity].
      apply existsb_exists in X. destruct X as (q & I & E).
      pose proof (find_none _ _ F q I) as N. cbv beta in N. congruence. }
    now rewrite X.
Qed.

End Reading.

(* ===================================================================== *)
(** * [get_read_streak] *)
(* ===================================================================== *)

(** Latest first. *)
Fixpoint descending (l : list Z) : Prop :=
  match l with
  | [] => True
  | x :: rest => (forall y, In y rest -> y <= x) /\ descending rest
  end.

Definition later_first (a b : Z) : bool := b <=? a.

Lemma insert_descending (x : Z) (l : list Z) :
  descending l -> descending (insert_sorted later_first x l).
Proof.
  induction l as [|y l IH]; intros D.
  - cbn. split; [intros ? []|exact I].
  - destruct D as [B D]. cbn [insert_sorted]. unfold later_first at 1.
    destruct (Z.leb_spec y x) as [L|L].
    + split; [|split; assumption]. intros z [<-|Iz]; [exact L|]. specialize (B z Iz). lia.
    + split; [|auto]. intros z Iz. apply in_insert_sorted in Iz.
      destruct Iz as [->|Iz]; [lia|auto].
Qed.

Lemma sort_descending (l : list Z) : descending (stable_sort later_first l).
Proof.
  induction l as [|x l IH]; [exact I|].
  cbn [stable_sort fold_right]. fold (stable_sort later_first l).
  now apply insert_descending.
Qed.

Lemma in_distinct (l : list Z) (y : Z) : In y (distinct l) <-> In y l.
Proof.
  induction l as [|x l IH]; [reflexivity|].
  cbn [distinct]. destruct (existsb (Z.eqb x) l) eqn:E.
  - rewrite IH. cbn [In]. split; [auto|]. intros [<-|H]; [|exact H].
    apply existsb_exists in E. destruct E as (z & Iz & Ez). apply Z.eqb_eq in Ez.
    now subst z.
  - cbn [In]. rewrite IH. reflexivity.
Qed.

(** The loop on days sorted latest first: the run of consecutive days that
    ends at [expected]. *)
Lemma count_streak_run : forall (dates : list Z) (expected streak k : Z),
  descending dates ->
  0 <= k -> 1 <= expected - k -> expected <= MAXORDINAL ->
  (forall j, 0 <= j < k -> In (expected - j) dates) ->
  ~ In (expected - k) dates ->
  count_streak dates expected streak = Ok (streak + k).
Proof.
  induction dates as [|x dates IH]; intros e s k D K0 K1 Mx Run Stop.
  - cbn [count_streak].
    destruct (Z.eq_dec k 0) as [->|N]; [f_equal; lia|].
    destruct (Run 0 ltac:(lia)).
  - destruct D as [B D]. cbn [count_streak].
    destruct (Z.eqb_spec x e) as [E|NE].
    + subst x.
      assert (Kp : 1 <= k).
      { destruct (Z.eq_dec k 0) as [->|N]; [|lia].
        exfalso. apply Stop. left. lia. }
      unfold day_before.
      assert (R : (0 <? e - 1) && (e - 1 <=? MAXORDINAL) = true).
      { apply andb_true_iff. split; [apply Z.ltb_lt|apply Z.leb_le]; lia. }
      rewrite R. cbn [bind].
      rewrite (IH (e - 1) (s + 1) (k - 1)); try lia; try assumption.
      * f_equal. lia.
      * intros j Hj. destruct (Run (j + 1) ltac:(lia)) as [Ej|Ij]; [lia|].
        replace (e - 1 - j) with (e - (j + 1)) by lia. exact Ij.
      * replace (e - 1 - (k - 1)) with (e - k) by lia.
        intros Ik. apply Stop. now right.
    + destruct (Z.ltb_spec x e) as [L|L].
      * (* gap *)
        destruct (Z.eq_dec k 0) as [->|N]; [f_equal; lia|].
        exfalso. destruct (Run 0 ltac:(lia)) as [E0|I0]; [lia|].
        specialize (B _ I0). lia.
      * apply IH; try assumption.
        -- intros j Hj. destruct (Run j Hj) as [Ej|Ij]; [lia|exact Ij].
        -- intros Ik. apply Stop. now right.
Qed.

(** The loop returns when no day is the first day of the calendar, and counts
    [expected] when it is there. *)
Lemma count_streak_returns : forall (dates : list Z) (expected streak : Z),
  descending dates ->
  (forall y, In y dates -> 2 <= y <= MAXORDINAL) ->
  exists k, count_streak dates expected streak = Ok k
            /\ streak <= k /\ (In expected dates -> streak + 1 <= k).
Proof.
  induction dates as [|x dates IH]; intros e s D Rg.
  - exists s. cbn [count_streak]. split; [reflexivity|]. split; [lia|intros []].
  - destruct D as [B D]. cbn [count_streak].
    assert (Rg' : forall y, In y dates -> 2 <= y <= MAXORDINAL)
      by (intros y Iy; apply Rg; now right).
    destruct (Z.eqb_spec x e) as [E|NE].
    + subst x. pose proof (Rg e (or_introl eq_refl)) as Re.
      unfold day_before.
      assert (R : (0 <? e - 1) && (e - 1 <=? MAXORDINAL) = true).
      { apply andb_true_iff. split; [apply Z.ltb_lt|apply Z.leb_le]; lia. }
      rewrite R. cbn [bind].
      destruct (IH (e - 1) (s + 1) D Rg') as (k & Ek & Lk & _).
      exists k. split; [exact Ek|]. split; lia.
    + destruct (Z.ltb_spec x e) as [L|L].
      * exists s. split; [reflexivity|]. split; [lia|].
        intros [E|I']; [lia|]. specialize (B _ I'). lia.
      * destruct (IH e s D Rg') as (k & Ek & Lk & Ik).
        exists k. split; [exact Ek|]. split; [exact Lk|].
        intros [E|I']; [lia|auto].
Qed.

Section Streak.

Variable float : Type.
Variable W : world.
Variable C : clock.

(** The local day of each timestamp. *)
Variable day_of : str -> Z.

Definition days_read (l : library float) : list Z :=
  map (fun r => day_of (read_at r)) (reads l).

(** Every [read_at] of the table is understood, as the day [day_of] says. *)
Definition understood (l : library float) : Prop :=
  forall r, In r (reads l) ->
    exists x, LocalTime.from_iso_to_local W C (read_at r) = Ok x
              /\ toordinal x = day_of (read_at r).

Lemma local_dates_understood : forall rows : list str,
  (forall s, In s rows ->
     exists x, LocalTime.from_iso_to_local W C s = Ok x /\ toordinal x = day_of s) ->
  local_dates W C rows = Ok (map day_of rows).
Proof.
  induction rows as [|s rows IH]; intros H; [reflexivity|].
  cbn [local_dates]. destruct (H s (or_introl eq_refl)) as (x & E & D).
  rewrite E. cbn [bind]. rewrite IH by (intros; apply H; now right).
  cbn [bind map]. now rewrite D.
Qed.

(** [get_read_streak] is the loop on the days read, latest first. *)
Lemma get_read_streak_loop (l : library float) (now : datetime) :
  understood l ->
  exists dates,
    descending dates
    /\ (forall y, In y dates <-> In y (days_read l))
    /\ get_read_streak W C l now
       = match dates with
         | [] => Ok 0
         | _ => count_streak dates (toordinal now) 0
         end.
Proof.
  intros U. unfold get_read_streak.
  set (rows := stable_sort (fun a b => negb (Str.ltb a b)) (map (@read_at) (reads l))).
  assert (Ir : forall s, In s rows <-> In s (map (@read_at) (reads l))).
  { intros s. apply in_stable_sort. }
  assert (Ur : forall s, In s rows ->
             exists x, LocalTime.from_iso_to_local W C s = Ok x /\ toordinal x = day_of s).
  { intros s I. apply Ir in I. apply in_map_iff in I. destruct I as (r & <- & I). auto. }
  exists (stable_sort later_first (distinct (map day_of rows))).
  split; [apply sort_descending|]. split.
  - intros y. rewrite in_stable_sort, in_distinct. unfold days_read.
    rewrite !in_map_iff. split.
    + intros (s & E & I). apply Ir in I. apply in_map_iff in I.
      destruct I as (r & <- & I). eauto.
    + intros (r & E & I). exists (read_at r). split; [exact E|].
      apply Ir. now apply in_map.
  - destruct rows as [|s rows'] eqn:Er.
    + reflexivity.
    + rewrite <- Er in *. rewrite (@local_dates_understood rows Ur). cbn [bind].
      destruct (stable_sort (fun a b => b <=? a) (distinct (map day_of rows))) eqn:Es;
        unfold later_first; rewrite Es; reflexivity.
Qed.

(** X25: the reading streak is the run of consecutive days that ends today.
    When every [read_at] is understood, the [k] days up to today each have a
    read and the day before them has none, [get_read_streak] returns [k]; in
    particular 0 when nothing was read today, whatever was read before. *)
Theorem read_streak_is_the_run_ending_today (l : library float) (now : datetime) (k : Z) :
  valid now ->
  understood l ->
  0 <= k < toordinal now ->
  (forall j, 0 <= j < k -> In (toordinal now - j) (days_read l)) ->
  ~ In (toordinal now - k) (days_read l) ->
  get_read_streak W C l now = Ok k.
Proof.
  intros V U K Run Stop.
  destruct (@get_read_streak_loop l now U) as (dates & D & Id & E).
  rewrite E.
  assert (Mx : toordinal now <= MAXORDINAL).
  { destruct (valid_fields V) as [(Hy & Hm & Hd) _].
    assert (Vd : check_date_fields (year now) (month now) (day now) = true).
    { unfold check_date_fields, MINYEAR, MAXYEAR.
      rewrite !andb_true_iff, !Z.leb_le. lia. }
    pose proof (@ymd2ord_bounds _ _ _ Vd) as B.
    pose proof (@days_before_year_mono (year now + 1) 10000 ltac:(lia)) as M.
    change (days_before_year 10000) with 3652059 in M.
    unfold toordinal, MAXORDINAL. lia. }
  assert (R : count_streak dates (toordinal now) 0 = Ok (0 + k)).
  { apply count_streak_run; try lia; try assumption.
    - intros j Hj. apply Id. now apply Run.
    - intros I. apply Stop. now apply Id. }
  destruct dates as [|x dates'].
  - destruct (Z.eq_dec k 0) as [->|N]; [reflexivity|].
    exfalso. pose proof (Run 0 ltac:(lia)) as R0. apply Id in R0. destruct R0.
  - rewrite R. f_equal.
Qed.

(** X26: after [mark_read] with a time on today's date, [get_read_streak]
    returns at least 1 (the reads being understood, and none on the first
    day of the calendar). *)
Theorem reading_today_starts_a_streak (l l' : library float) (i : Z) (iso : str)
        (now : datetime) :
  mark_read l i iso = Some l' ->
  understood l' ->
  (forall y, In y (days_read l') -> 2 <= y <= MAXORDINAL) ->
  day_of iso = toordinal now ->
  exists k, get_read_streak W C l' now = Ok k /\ 1 <= k.
Proof.
  intros M U Rg Today.
  destruct (mark_read_cases l i iso) as [(_ & N)|(p & l1 & _ & E & Er & _)]; [congruence|].
  assert (l1 = l') by congruence. subst l1.
  destruct (@get_read_streak_loop l' now U) as (dates & D & Id & Eg).
  assert (It : In (toordinal now) dates).
  { apply Id. unfold days_read. rewrite Er, map_app. apply in_or_app. right.
    cbn [map read_at]. left. exact Today. }
  destruct (@count_streak_returns dates (toordinal now) 0 D) as (k & Ek & _ & Lk).
  { intros y Iy. apply Rg. now apply Id. }
  exists k. rewrite Eg. destruct dates as [|x dates']; [destruct It|].
  split; [exact Ek|]. specialize (Lk It). lia.
Qed.

End Streak.

(* ===================================================================== *)
(** * Titles, candidates and the chat *)
(* ===================================================================== *)

(** ** _truncate *)

Lemma rstrip_length (sp : cp -> bool) (s : str) :
  (List.length (rstrip sp s) <= List.length s)%nat.
Proof.
  destruct (rstrip_prefix sp s) as (q & E & _).
  rewrite E at 2. rewrite length_app. lia.
Qed.

(** X5: for a limit of at least 1, [_truncate] returns at most [limit]
    characters; a text that fits is returned unchanged; a longer one becomes
    a proper prefix of the text followed by the ellipsis. *)
Theorem truncate_fits (W : world) (text : str) (limit : Z) :
  (1 <= limit)%Z ->
  (Z.of_nat (List.length (_truncate W text limit)) <= limit)%Z
  /\ ((Z.of_nat (List.length text) <= limit)%Z -> _truncate W text limit = text)
  /\ ((limit < Z.of_nat (List.length text))%Z ->
      exists kept dropped,
        _truncate W text limit = kept ++ py "…"
        /\ text = kept ++ dropped /\ dropped <> []).
Proof.
  intros L. unfold _truncate.
  destruct (Z.leb_spec (Z.of_nat (List.length text)) limit) as [Fits|Long].
  - split; [exact Fits|]. split; [reflexivity|lia].
  - unfold slice_to. destruct (Z.ltb_spec (limit - 1) 0) as [N|_]; [lia|].
    set (cut := firstn (Z.to_nat (limit - 1)) text).
    assert (Lc : List.length cut = Z.to_nat (limit - 1)).
    { unfold cut. rewrite length_firstn. lia. }
    pose proof (rstrip_length (isspace (tables W)) cut) as Lr.
    split; [|split; [lia|]].
    + rewrite length_app. change (List.length (py "…")) with 1%nat. lia.
    + intros _. destruct (rstrip_prefix (isspace (tables W)) cut) as (q & E & _).
      exists (rstrip (isspace (tables W)) cut), (q ++ skipn (Z.to_nat (limit - 1)) text).
      split; [reflexivity|]. split.
      * rewrite app_assoc, <- E. unfold cut. symmetry. apply firstn_skipn.
      * intros Z0. apply app_eq_nil in Z0. destruct Z0 as [_ Z0].
        apply (f_equal (@List.length cp)) in Z0. rewrite length_skipn in Z0.
        cbn [List.length] in Z0. lia.
Qed.

Lemma truncate_fits_witness :
  (Z.of_nat (List.length (_truncate Demo.no_dates (py "Danışman toplantısı için sunum hazırla") 32))
   <= 32)%Z
  /\ ((Z.of_nat (List.length (py "Danışman toplantısı için sunum hazırla")) <= 32)%Z ->
      _truncate Demo.no_dates (py "Danışman toplantısı için sunum hazırla") 32
      = py "Danışman toplantısı için sunum hazırla")
  /\ ((32 < Z.of_nat (List.length (py "Danışman toplantısı için sunum hazırla")))%Z ->
      exists kept dropped,
        _truncate Demo.no_dates (py "Danışman toplantısı için sunum hazırla") 32
        = kept ++ py "…"
        /\ py "Danışman toplantısı için sunum hazırla" = kept ++ dropped /\ dropped <> []).
Proof.
  apply (@truncate_fits Demo.no_dates (py "Danışman toplantısı için sunum hazırla") 32).
  lia.
Defined.

(** ** _normalize_task_title *)

Definition closing (c : cp) : Prop := c = 46%N \/ c = 33%N \/ c = 63%N.

Lemma mem_closing (c : cp) : mem c (py ".!?") = true -> closing c.
Proof.
  change (py ".!?") with [46%N; 33%N; 63%N]. unfold mem. cbn [existsb].
  rewrite !orb_true_iff, !N.eqb_eq. unfold closing. intuition discriminate.
Qed.

(** X6: what [_normalize_task_title] returns is empty or ends in one of
    [.], [!], [?]; for a title of whitespace only it is the placeholder
    "Görev.". *)
Theorem normalized_title_is_closed (W : world) (title : str) :
  let t := _normalize_task_title W title in
  (t = [] \/ exists body c, t = body ++ [c] /\ closing c)
  /\ (forallb (isspace (tables W)) title = true -> t = py "Görev.").
Proof.
  cbv zeta. split.
  - unfold _normalize_task_title.
    destruct (strip (isspace (tables W)) title) as [|c0 r0].
    + right. exists (py "Görev"), 46%N. split; [reflexivity|]. now left.
    + match goal with
      | |- context [rev ?x] => set (cleaned := x)
      end.
      destruct (rev cleaned) as [|c r] eqn:E.
      * left. apply (f_equal (@rev cp)) in E. rewrite rev_involutive in E. exact E.
      * right. destruct (mem c (py ".!?")) eqn:M.
        -- exists (rev r), c. split; [|now apply mem_closing].
           apply (f_equal (@rev cp)) in E. rewrite rev_involutive in E. exact E.
        -- exists cleaned, 46%N. split; [reflexivity|now left].
  - intros S. unfold _normalize_task_title. now rewrite (strip_all_space _ _ S).
Qed.

(** ** _find_task_candidates *)

(** X7: [_find_task_candidates] returns at most [limit] rows and at most 50,
    and every one is a row of [tasks] whose status is [pending]: a finished
    task is never offered for deletion or completion. *)
Theorem candidates_are_open_tasks (W : world) (d : db) (query : str) (limit : nat) :
  let found := _find_task_candidates W d query limit in
  (List.length found <= limit)%nat
  /\ (List.length found <= 50)%nat
  /\ forall t, In t found -> In t (tasks d) /\ status t = py "pending".
Proof.
  cbv zeta. unfold _find_task_candidates.
  set (rows := list_tasks d (py "pending") 50).
  assert (R50 : (List.length rows <= 50)%nat) by apply firstn_le_length.
  assert (Rin : forall t, In t rows -> In t (tasks d) /\ status t = py "pending").
  { intros t I. unfold rows, list_tasks in I. apply in_firstn in I.
    apply in_stable_sort in I. apply filter_In in I. destruct I as [I S].
    split; [exact I|now apply str_eqb_eq]. }
  unfold find_in. destruct rows as [|t0 rows'] eqn:Er.
  - cbn [List.length]. split; [lia|]. split; [lia|]. intros t [].
  - rewrite <- Er in *. clear Er.
    destruct query as [|q0 q'].
    + split; [apply firstn_le_length|]. split.
      * rewrite length_firstn. lia.
      * intros t I. apply Rin. now apply in_firstn in I.
    + set (scored := filter (fun st => (0 <? fst st)%Z)
                            (map (fun t => (score W (q0 :: q') (_tokenize W (q0 :: q')) t, t))
                                 rows)).
      assert (Ls : (List.length scored <= List.length rows)%nat).
      { unfold scored. etransitivity; [apply filter_length_le|]. now rewrite length_map. }
      rewrite length_map. split; [apply firstn_le_length|]. split.
      * rewrite length_firstn, length_stable_sort. lia.
      * intros t I. apply in_map_iff in I. destruct I as ([s t'] & E & I).
        cbn [snd] in E. subst t'. apply in_firstn in I. apply in_stable_sort in I.
        unfold scored in I. apply filter_In in I. destruct I as [I _].
        apply in_map_iff in I. destruct I as (t1 & E1 & I1).
        injection E1 as _ <-. now apply Rin.
Qed.

Section Frame.

Variable W : world.

(** What a message does to the [tasks] table: nothing, or one new row. *)
Definition adds_at_most_one (d d' : db) (r : reply) : Prop :=
  (exists title due due_iso row,
      r = Saved title due
      /\ to_utc_iso W due = Ok due_iso
      /\ tasks d' = tasks d ++ [row]
      /\ TaskService.title row = title
      /\ due_at row = Some due_iso
      /\ status row = py "pending"
      /\ id row = (tasks_seq d + 1)%Z)
  \/ ((forall title due, r <> Saved title due) /\ tasks d' = tasks d).

Lemma confirmation_not_saved (d : db) (i : Z) title due :
  _send_delete_confirmation d i <> Saved title due
  /\ _send_done_confirmation d i <> Saved title due.
Proof.
  unfold _send_delete_confirmation, _send_done_confirmation.
  destruct (get_task d i); split; discriminate.
Qed.

Lemma selection_not_saved (l : list task) (a : str) title due :
  _send_task_selection l a <> Saved title due.
Proof. unfold _send_task_selection. destruct l; discriminate. Qed.

Lemma delete_request_reply (d : db) (text : str) (d2 : db) (r : reply) title due :
  delete_request W d text = Ok (d2, r) -> r <> Saved title due.
Proof.
  unfold delete_request. intros H.
  destruct (re_search W id_re text) as [[b st]|].
  - destruct (py_int (tables W) (group1 st)) as [task_id|]; cbn [bind] in H; [|discriminate].
    destruct (sqlite_int task_id); cbn [bind] in H; [|discriminate].
    apply ok_inv in H. destruct H as [_ <-]. apply confirmation_not_saved.
  - destruct (_find_task_candidates W d _ 5) as [|t [|t' l]];
      apply ok_inv in H; destruct H as [_ <-];
      try apply selection_not_saved; apply confirmation_not_saved.
Qed.

Lemma complete_request_reply (d : db) (text : str) (d2 : db) (r : reply) title due :
  complete_request W d text = Ok (d2, r) -> r <> Saved title due.
Proof.
  unfold complete_request. intros H.
  destruct (re_search W id_re text) as [[b st]|].
  - destruct (py_int (tables W) (group1 st)) as [task_id|]; cbn [bind] in H; [|discriminate].
    destruct (sqlite_int task_id); cbn [bind] in H; [|discriminate].
    apply ok_inv in H. destruct H as [_ <-]. apply confirmation_not_saved.
  - destruct (_find_task_candidates W d _ 5) as [|t [|t' l]];
      apply ok_inv in H; destruct H as [_ <-];
      try apply selection_not_saved; apply confirmation_not_saved.
Qed.

Lemma small_talk_not_saved (lowered : str) title due : small_talk lowered <> Saved title due.
Proof.
  unfold small_talk.
  destruct (contains_any lowered GREETING_WORDS); [discriminate|].
  destruct (contains_any lowered THANKS_WORDS); [discriminate|].
  destruct (contains_any lowered WHO_WORDS); discriminate.
Qed.

Lemma plain_tasks (d : db) (text lowered : str) (nw : datetime) (d2 : db) (r : reply) :
  plain W d text lowered nw = Ok (d2, r) ->
  (forall title due, r <> Saved title due) /\ tasks d2 = tasks d.
Proof.
  unfold plain. intros H.
  destruct (contains_any lowered LIST_WORDS).
  { apply ok_inv in H. destruct H as [<- <-]. split; [discriminate|reflexivity]. }
  assert (O : forall d2 r, Ok (d, small_talk lowered) = Ok (d2, r) ->
              (forall title due, r <> Saved title due) /\ tasks d2 = tasks d).
  { intros d3 r3 H3. apply ok_inv in H3. destruct H3 as [<- <-].
    split; [intros; apply small_talk_not_saved|reflexivity]. }
  destruct (contains lowered (py "hedef")); [|now apply O].
  destruct (re_search W year_re text) as [[b st]|]; [|now apply O].
  destruct (py_int (tables W) (group1 st)) as [year|]; cbn [bind] in H; [|discriminate].
  destruct (strip (isspace (tables W)) (Str.replace text (group1 st) []))
    as [|c0 title]; [now apply O|].
  destruct (create_goal W d (c0 :: title) year nw) as [[dg ig]|] eqn:G;
    cbn [bind fst] in H; [|discriminate].
  apply ok_inv in H. destruct H as [<- <-]. split; [discriminate|].
  now apply create_goal_inv in G.
Qed.

Lemma categorized_tasks (d : db) (chat text : str) (now nw : datetime)
      (d2 : db) (r : reply) :
  categorized W d chat text now nw = Ok (d2, r) -> adds_at_most_one d d2 r.
Proof.
  unfold categorized. intros H.
  destruct (_is_summary_request W text).
  { apply ok_inv in H. destruct H as [<- <-]. right. split; [discriminate|reflexivity]. }
  destruct (contains_any (lower (tables W) text) TEMPLATE_WORDS).
  { apply ok_inv in H. destruct H as [<- <-]. right. split; [discriminate|reflexivity]. }
  destruct (_is_delete_request W text).
  { right. split; [intros; eapply delete_request_reply; eauto|].
    now rewrite (delete_request_db _ _ _ H). }
  destruct (_is_complete_request W text).
  { right. split; [intros; eapply complete_request_reply; eauto|].
    now rewrite (complete_request_db _ _ _ H). }
  destruct (looks_like_task W text); [|right; eapply plain_tasks; eauto].
  unfold task_like in H.
  destruct (parse_task_text W text now) as [[t [due|]]|]; cbn [bind fst snd] in H;
    [| |discriminate].
  - destruct (create_task W d _ (Some due) _ None nw) as [[dc ic]|] eqn:Ec;
      cbn [bind fst] in H; [|discriminate].
    apply ok_inv in H. destruct H as [<- <-].
    apply create_task_inv in Ec. destruct Ec as (di & ni & D & _ & -> & _).
    apply due_value_some in D. destruct D as (iso & D & ->).
    left. eexists _, due, iso, _. split; [reflexivity|]. split; [exact D|].
    cbn [inserted tasks]. split; [reflexivity|]. repeat split.
  - destruct (to_utc_iso W now); cbn [bind] in H; [|discriminate].
    apply ok_inv in H. destruct H as [<- <-]. right. split; [discriminate|reflexivity].
Qed.

(** X9: a text message never removes or rewrites a task. When
    [handle_message] returns, either the reply is [Saved title due] and
    [tasks] has exactly one new row at its end, a pending task with that
    title, that due time and a fresh id, or the reply is something else and
    [tasks] is unchanged. *)
Theorem handle_message_never_removes_a_task (d : db) (u : update) (now nw : datetime)
        (d' : db) (r : reply) :
  handle_message W d u now nw = Ok (d', r) -> adds_at_most_one d d' r.
Proof.
  unfold handle_message. intros H.
  destruct (_get_chat_id d u) as [d1 chat] eqn:G.
  pose proof (get_chat_id_frame d u) as (T1 & S1 & _). rewrite G in T1, S1.
  cbn [fst] in T1, S1.
  assert (Lift : adds_at_most_one d1 d' r -> adds_at_most_one d d' r).
  { unfold adds_at_most_one. rewrite T1, S1. auto. }
  apply Lift.
  destruct (get_pending_task d1 chat) as [p|].
  - apply date_answer_cases in H.
    destruct H as [(t & _ & -> & ->)|(t & due & iso & ni & _ & D & _ & -> & ->)].
    + right. split; [discriminate|reflexivity].
    + left. eexists _, due, iso, _. split; [reflexivity|]. split; [exact D|].
      cbn [clear_pending_task inserted tasks].
      split; [reflexivity|]. repeat split.
  - now apply categorized_tasks in H.
Qed.

End Frame.

(** X8: the bot keeps the first chat. After [_get_chat_id] has run once for
    an update with a chat id, every later call, for whatever update, returns
    the same chat id and leaves the database as it is; the call itself
    touches neither [tasks] nor [pending_tasks]. *)
Theorem first_chat_is_kept (d : db) (u : update) :
  effective_chat u <> [] ->
  let d1 := fst (_get_chat_id d u) in
  let chat := snd (_get_chat_id d u) in
  chat <> []
  /\ (forall u', _get_chat_id d1 u' = (d1, chat))
  /\ tasks d1 = tasks d /\ pending_tasks d1 = pending_tasks d.
Proof.
  intros NE. cbv zeta.
  pose proof (get_chat_id_frame d u) as (T & _ & P & _).
  split; [|split; [|split; assumption]].
  - destruct (get_chat_id_cases d u) as [(c & s & G & Eg)|[G Eg]]; rewrite Eg; cbn [snd];
      [discriminate|exact NE].
  - intros u'.
    destruct (get_chat_id_cases d u) as [(c & s & G & Eg)|[G Eg]]; rewrite Eg;
      cbn [fst snd].
    + destruct (get_chat_id_cases d u') as [(c' & s' & G' & Eg')|[G' Eg']].
      * rewrite Eg'. rewrite G in G'. injection G' as <- <-. reflexivity.
      * rewrite G in G'. destruct G' as [G'|G']; discriminate G'.
    + destruct (get_chat_id_cases (set_setting d CHAT_KEY (effective_chat u)) u')
        as [(c' & s' & G' & Eg')|[G' Eg']].
      * rewrite Eg'. rewrite stored_after_set in G'. injection G' as G'.
        now rewrite G'.
      * rewrite stored_after_set in G'. destruct G' as [G'|G']; [discriminate|].
        injection G' as G'. contradiction.
Qed.

(* ===================================================================== *)
(** * Keyboards, snoozing and reading *)
(* ===================================================================== *)

Section Keyboards.

Variable W : world.
Variable C : clock.
Hypothesis AD : ascii_digits (tables W).

(** X10: the buttons are read back. With tables that are ASCII on the
    digits and an id SQLite can store: pressing the first button under a
    delete confirmation for [task_id] runs [delete_task] on that id and the
    second cancels; under a completion question the first runs [mark_done]
    on it; under a reminder the buttons run [mark_done] on the reminded task
    and snooze it by 60 minutes. *)
Theorem action_buttons_act_on_their_task (d : db) (task_id : Z) (now : datetime) :
  int64 task_id ->
  map (fun b => handle_callback W C d (callback_data b) now)
      (List.concat (delete_keyboard task_id))
  = [(let '(d', found) := delete_task d task_id in
      Ok (d', if found then Deleted task_id else Missing));
     Ok (d, Cancelled)]
  /\ map (fun b => handle_callback W C d (callback_data b) now)
         (List.concat (done_keyboard task_id))
     = [(let '(d', found) := mark_done d task_id in
         Ok (d', if found then MarkedDone task_id else Missing));
        Ok (d, Cancelled)]
  /\ forall t,
       int64 (id t) ->
       map (fun b => handle_callback W C d (callback_data b) now)
           (List.concat (reminder_keyboard t))
       = [(let '(d', found) := mark_done d (id t) in
           Ok (d', if found then MarkedDone (id t) else Missing));
          snooze_by W C d (id t) 60 now].
Proof.
  intros I64.
  destruct (press_cancel W C d now) as (Cd & Cn).
  split; [|split].
  - cbn [delete_keyboard List.concat app map callback_data].
    now rewrite (@press_delete W C AD d task_id now I64), Cd.
  - cbn [done_keyboard List.concat app map callback_data].
    now rewrite (@press_done W C AD d task_id now I64), Cn.
  - intros t T64. cbn [reminder_keyboard List.concat app map callback_data].
    rewrite (@press_done W C AD d (id t) now T64).
    change (py ":60") with (py ":" ++ of_int 60).
    rewrite (@press_snooze W C AD d (id t) 60 now T64); [reflexivity|].
    unfold int64. lia.
Qed.

(** X11: in the keyboard of [_send_task_selection] the button of each task
    leads to the confirmation question for that task's id, a delete
    confirmation when the action is "delete" and a completion question
    otherwise, and the last button cancels (the tasks are rows of the
    table: their ids are ids SQLite can store). *)
Theorem pick_buttons_ask_about_their_task (d : db) (tasks : list task) (action : str)
        (now : datetime) :
  (forall t, In t tasks -> int64 (id t)) ->
  map (map (fun b => handle_callback W C d (callback_data b) now))
      (selection_keyboard W tasks action)
  = map (fun t =>
           [Ok (d, Asked (if Str.eqb action (py "delete")
                          then _send_delete_confirmation d (id t)
                          else _send_done_confirmation d (id t)))])
        tasks
    ++ [[Ok (d, Cancelled)]].
Proof.
  intros I64.
  destruct (press_cancel W C d now) as (Cd & Cn).
  unfold selection_keyboard. rewrite map_app, map_map. f_equal.
  - apply map_ext_in. intros t I. cbn [map callback_data].
    destruct (Str.eqb action (py "delete")).
    + change (py "delete" ++ py "_pick:" ++ of_int (id t))
        with (py "delete_pick:" ++ of_int (id t)).
      now rewrite (@press_delete_pick W C AD d (id t) now (I64 t I)).
    + change (py "done" ++ py "_pick:" ++ of_int (id t))
        with (py "done_pick:" ++ of_int (id t)).
      now rewrite (@press_done_pick W C AD d (id t) now (I64 t I)).
  - cbn [map callback_data]. destruct (Str.eqb action (py "delete")).
    + change (py "delete" ++ py ":cancel") with (py "delete:cancel"). now rewrite Cd.
    + change (py "done" ++ py ":cancel") with (py "done:cancel"). now rewrite Cn.
Qed.

End Keyboards.

Section Snooze.

Variable W : world.
Variable C : clock.

(** X13: when snoozing task [i] by [minutes] succeeds, the new due time is
    the task's local due time (the clock, when it has none) plus that many
    minutes, it is what the answer shows and what is stored, in UTC text;
    [reminded_at] is cleared, title and status are kept, other tasks are
    untouched; and a pending task is then due for a reminder from that time
    on. *)
Theorem snoozed_task_is_reminded_again (d d' : db) (i minutes : Z) (now : datetime)
        (t : task) (a : answer) :
  get_task d i = Some t ->
  snooze_by W C d i minutes now = Ok (d', a) ->
  exists base td new_due new_iso t',
    (match due_at t with
     | Some (c :: s) => LocalTime.from_iso_to_local W C (c :: s)
     | _ => Ok now
     end = Ok base)
    /\ timedelta_new 0 0 0 minutes 0 = Ok td
    /\ add base td = Ok new_due
    /\ to_utc_iso W new_due = Ok new_iso
    /\ a = NewTime i new_due
    /\ get_task d' i = Some t'
    /\ due_at t' = Some new_iso
    /\ reminded_at t' = None
    /\ status t' = status t /\ title t' = title t /\ id t' = i
    /\ (forall j, j <> i -> get_task d' j = get_task d j)
    /\ (status t = py "pending" ->
        forall iso, Str.ltb iso new_iso = false ->
                    In t' (due_tasks_for_reminder d' iso)).
Proof.
  intros G H. unfold snooze_by in H.
  destruct (sqlite_int i); cbn [bind] in H; [|discriminate].
  rewrite G in H.
  match type of H with
  | bind ?x _ = _ => destruct x as [base|e] eqn:B
  end; cbn [bind] in H; [|discriminate].
  destruct (timedelta_new 0 0 0 minutes 0) as [td|e] eqn:T; cbn [bind] in H; [|discriminate].
  destruct (add base td) as [new_due|e] eqn:A; cbn [bind] in H; [|discriminate].
  destruct (snooze_task W d i new_due) as [[ds found]|e] eqn:Sn; cbn [bind fst] in H;
    [|discriminate].
  apply ok_inv in H. destruct H as [<- <-].
  apply snooze_task_cases in Sn.
  destruct Sn as [(G0 & _)|(t0 & new_iso & _ & N & _ & ->)]; [congruence|].
  set (f := fun t0 : task =>
              {| id := id t0; title := title t0; due_at := Some new_iso;
                 created_at := created_at t0; status := status t0; source := source t0;
                 reminded_at := None; notes := notes t0 |}).
  assert (Hf : forall x, id (f x) = id x) by reflexivity.
  destruct (find_id_in _ _ G) as (I & Ei).
  assert (G' : get_task (with_tasks d (update_where_id i f (tasks d))) i = Some (f t)).
  { unfold get_task. cbn [tasks with_tasks]. now apply find_update_same. }
  exists base, td, new_due, new_iso, (f t).
  split; [first [reflexivity|exact B]|]. split; [first [reflexivity|exact T]|].
  split; [first [reflexivity|exact A]|]. split; [exact N|].
  split; [reflexivity|]. split; [exact G'|].
  split; [reflexivity|]. split; [reflexivity|]. split; [reflexivity|].
  split; [reflexivity|]. split; [exact Ei|]. split.
  - intros j Nj. unfold get_task. cbn [tasks with_tasks]. now apply find_update_other.
  - intros P iso L. apply due_in_table. unfold get_task in G'.
    destruct (find_id_in _ _ G') as (I' & _).
    split; [exact I'|]. split; [exact P|]. split; [reflexivity|].
    exists new_iso. split; [reflexivity|exact L].
Qed.

End Snooze.

Section MarkRead.

Variable float : Type.

(** X24: [mark_read] fails exactly when no paper has the id (the foreign key
    of [reads]), and then writes nothing; otherwise it appends one row to
    [reads] with the given time, the paper's status becomes [read], no paper
    is added or removed, and the constraints of [papers] still hold. *)
Theorem mark_read_needs_the_paper (l : library float) (i : Z) (iso : str) :
  (mark_read l i iso = None <-> get_paper l i = None)
  /\ forall l', mark_read l i iso = Some l' ->
       reads l' = reads l ++ [{| read_id := reads_seq l + 1; read_paper_id := i;
                                 read_at := iso |}]
       /\ (exists p', get_paper l' i = Some p' /\ paper_status p' = py "read")
       /\ List.length (papers l') = List.length (papers l)
       /\ (shelf_ok l -> shelf_ok l').
Proof.
  destruct (mark_read_cases l i iso)
    as [(G & M)|(p & l1 & G & M & Er & Eo & Ei & Es & (p' & G' & S' & _))].
  - rewrite G, M. split; [tauto|]. intros l' H. discriminate H.
  - rewrite G, M. split; [split; discriminate|].
    intros l' H. injection H as <-. split; [exact Er|]. split; [eauto|]. split.
    + apply (f_equal (@List.length _)) in Ei. now rewrite !length_map in Ei.
    + intros (U & I & B & P). unfold shelf_ok. rewrite Eo, Ei, Es.
      repeat split; try assumption.
      apply Forall_forall. intros q Iq.
      assert (Iid : In (paper_id q) (map (@paper_id float) (papers l))).
      { rewrite <- Ei. now apply in_map. }
      apply in_map_iff in Iid. destruct Iid as (q0 & Eq & Iq0).
      rewrite Forall_forall in B. rewrite <- Eq. now apply B.
Qed.

End MarkRead.

(* ===================================================================== *)
(** * Windows of tasks and the id commands *)
(* ===================================================================== *)

(** ** The order of timestamps *)

Lemma ltb_irrefl (a : str) : Str.ltb a a = false.
Proof.
  induction a as [|x a IH]; [reflexivity|].
  cbn [Str.ltb]. rewrite N.ltb_irrefl, N.eqb_refl, IH. reflexivity.
Qed.

Lemma ltb_asym : forall a b : str, Str.ltb a b = true -> Str.ltb b a = false.
Proof.
  induction a as [|x a IH]; intros [|y b] H; cbn [Str.ltb] in *; try discriminate;
    try reflexivity.
  apply orb_true_iff in H. apply orb_false_iff.
  destruct H as [H|H].
  - apply N.ltb_lt in H. split; [apply N.ltb_ge; lia|].
    apply andb_false_iff. left. apply N.eqb_neq. lia.
  - apply andb_true_iff in H. destruct H as [E L]. apply N.eqb_eq in E. subst y.
    split; [apply N.ltb_irrefl|]. rewrite N.eqb_refl. cbn [andb]. now apply IH.
Qed.

Lemma ltb_total : forall a b : str,
  Str.ltb a b = false -> Str.ltb b a = false -> a = b.
Proof.
  induction a as [|x a IH]; intros [|y b] H1 H2; cbn [Str.ltb] in *; try discriminate;
    try reflexivity.
  apply orb_false_iff in H1, H2. destruct H1 as [A1 B1]. destruct H2 as [A2 B2].
  apply N.ltb_ge in A1, A2. assert (x = y) by lia. subst y.
  rewrite N.eqb_refl in B1, B2. cbn [andb] in B1, B2. f_equal. now apply IH.
Qed.

(** [a <= b] and [b <= c] give [a <= c]. *)
Lemma leb_trans : forall a b c : str,
  Str.ltb b a = false -> Str.ltb c b = false -> Str.ltb c a = false.
Proof.
  induction a as [|x a IH]; intros [|y b] [|z c] H1 H2; cbn [Str.ltb] in *;
    try discriminate; try reflexivity.
  apply orb_false_iff in H1, H2. destruct H1 as [A1 B1]. destruct H2 as [A2 B2].
  apply N.ltb_ge in A1, A2. apply orb_false_iff. split; [apply N.ltb_ge; lia|].
  destruct (N.eqb_spec z x) as [E|N]; [|reflexivity]. subst z. cbn [andb].
  assert (y = x) by lia. subst y. rewrite N.eqb_refl in B1, B2. cbn [andb] in B1, B2.
  now apply (IH b c).
Qed.

(** ** Rows in due order *)

(** Each row is due no later than the rows after it. *)
Fixpoint in_due_order (l : list task) : Prop :=
  match l with
  | [] => True
  | t :: rest => (forall t', In t' rest -> due_order t t' = true) /\ in_due_order rest
  end.

Definition dated (t : task) : Prop := due_at t <> None.

Lemma insert_in_due_order (t : task) (l : list task) :
  dated t -> Forall dated l -> in_due_order l ->
  in_due_order (insert_sorted due_order t l).
Proof.
  intros Dt Dl. unfold dated in Dt. induction l as [|y l IH]; intros S.
  - cbn. split; [intros ? []|exact I].
  - destruct S as [B S]. inversion Dl as [|? ? Dy Dl']; subst. unfold dated in Dy.
    specialize (IH Dl').
    cbn [insert_sorted]. destruct (due_order t y) eqn:E.
    + split; [|split; assumption]. intros t' [<-|I']; [exact E|].
      specialize (B t' I'). unfold due_order in *.
      destruct (due_at t) as [a|]; [|reflexivity].
      destruct (due_at y) as [b|]; [|congruence].
      destruct (due_at t') as [c|]; [|reflexivity].
      apply negb_true_iff in E, B. apply negb_true_iff.
      now apply (leb_trans a b c).
    + split; [|auto]. intros t' I'. apply in_insert_sorted in I'.
      destruct I' as [->|I']; [|auto].
      unfold due_order in *.
      destruct (due_at y) as [b|]; [|congruence].
      destruct (due_at t) as [a|]; [|discriminate].
      apply negb_false_iff in E. apply negb_true_iff. now apply ltb_asym.
Qed.

Lemma sort_in_due_order (l : list task) :
  Forall dated l -> in_due_order (stable_sort due_order l).
Proof.
  induction l as [|t l IH]; intros D; [exact I|].
  inversion D as [|? ? Dt Dl]; subst.
  cbn [stable_sort fold_right]. fold (stable_sort due_order l).
  apply insert_in_due_order; [exact Dt| |auto].
  apply Forall_forall. intros x Ix. apply in_stable_sort in Ix.
  rewrite Forall_forall in Dl. auto.
Qed.

(** X18: [list_tasks_between] returns exactly the pending tasks whose due
    time is in the window, both ends included, as many rows as the table
    has of them, in ascending order of due time; when the window's end is
    before its start it returns nothing. *)
Theorem tasks_between_are_a_sorted_window (d : db) (start_iso end_iso : str) :
  let listed := list_tasks_between d start_iso end_iso in
  (forall t, In t listed <->
     In t (tasks d) /\ status t = py "pending"
     /\ exists due, due_at t = Some due
                    /\ Str.ltb due start_iso = false /\ Str.ltb end_iso due = false)
  /\ in_due_order listed
  /\ List.length listed
     = List.length (filter (fun t => Str.eqb (status t) (py "pending")
                                     && match due_at t with
                                        | Some x => between x start_iso end_iso
                                        | None => false
                                        end) (tasks d))
  /\ (Str.ltb end_iso start_iso = true -> listed = []).
Proof.
  cbv zeta. unfold list_tasks_between.
  set (keep := fun t : task =>
                 Str.eqb (status t) (py "pending")
                 && match due_at t with
                    | Some x => between x start_iso end_iso
                    | None => false
                    end).
  assert (K : forall t, keep t = true <->
                status t = py "pending"
                /\ exists due, due_at t = Some due
                     /\ Str.ltb due start_iso = false /\ Str.ltb end_iso due = false).
  { intros t. unfold keep, between. split.
    - intros H. apply andb_true_iff in H. destruct H as [S B].
      apply str_eqb_eq in S. split; [exact S|].
      destruct (due_at t) as [x|]; [|discriminate]. exists x.
      apply andb_true_iff in B. destruct B as [B1 B2].
      apply negb_true_iff in B1, B2. auto.
    - intros (S & due & E & B1 & B2). rewrite S, E, B1, B2. reflexivity. }
  split; [|split; [|split]].
  - intros t. rewrite in_stable_sort, filter_In, K. reflexivity.
  - apply sort_in_due_order. apply Forall_forall. intros t I.
    apply filter_In in I. destruct I as [_ I]. apply K in I.
    destruct I as (_ & due & E & _). unfold dated. congruence.
  - apply length_stable_sort.
  - intros L.
    assert (N : filter keep (tasks d) = []).
    { destruct (filter keep (tasks d)) as [|t l] eqn:F; [reflexivity|].
      exfalso. assert (I : In t (filter keep (tasks d))) by (rewrite F; now left).
      apply filter_In in I. destruct I as [_ I]. apply K in I.
      destruct I as (_ & due & _ & B1 & B2).
      pose proof (leb_trans _ _ _ B1 B2) as T. congruence. }
    now rewrite N.
Qed.

(** ** /done and /delete *)

Section IdCommands.

Variable W : world.
Hypothesis AD : ascii_digits (tables W).




End IdCommands.

(* ===================================================================== *)
(** * Concrete runs of the further properties *)
(* ===================================================================== *)

Lemma end_of_month_in_first_minute_witness :
  end_of_month (instant 2024 2 10 0 0 30) = Ok (instant 2024 2 29 23 59 0).
Proof.
  apply (@end_of_month_in_first_minute (instant 2024 2 10 0 0 30)).
  - vm_compute. reflexivity.
  - reflexivity.
  - reflexivity.
  - vm_compute. discriminate.
Defined.

Lemma end_of_month_raises_only_in_last_month_witness :
  (end_of_month (instant 9999 12 15 10 0 0) = Raise ValueError
   <-> (year (instant 9999 12 15 10 0 0) = 9999
        /\ month (instant 9999 12 15 10 0 0) = 12))
  /\ end_of_month (instant 9999 12 15 10 0 0) <> Raise OverflowError.
Proof.
  apply (@end_of_month_raises_only_in_last_month (instant 9999 12 15 10 0 0)).
  vm_compute. reflexivity.
Defined.

Lemma end_of_week_out_of_range_witness :
  end_of_week (instant 9999 12 27 8 0 0) = Raise OverflowError.
Proof.
  apply (@end_of_week_out_of_range (instant 9999 12 27 8 0 0)).
  - vm_compute. reflexivity.
  - vm_compute. reflexivity.
Defined.

(** The Latin tables are ASCII on the digits. *)
Lemma latin_ascii_digits : ascii_digits Latin.tables.
Proof.
  split; [|split; [|reflexivity]];
    intros k Hk;
    assert (E : k = 0 \/ k = 1 \/ k = 2 \/ k = 3 \/ k = 4 \/ k = 5 \/ k = 6 \/ k = 7
                \/ k = 8 \/ k = 9) by lia;
    repeat (destruct E as [->|E]; [reflexivity|]); subst k; reflexivity.
Qed.

Lemma action_buttons_act_on_their_task_witness :
  map (fun b => handle_callback Demo.no_dates DemoClock.wall_clock open_tasks
                                (callback_data b) (instant 2026 11 4 10 30 45))
      (List.concat (delete_keyboard 7))
  = [(let '(d', found) := delete_task open_tasks 7 in
      Ok (d', if found then Deleted 7 else Missing));
     Ok (open_tasks, Cancelled)]
  /\ map (fun b => handle_callback Demo.no_dates DemoClock.wall_clock open_tasks
                                   (callback_data b) (instant 2026 11 4 10 30 45))
         (List.concat (done_keyboard 7))
     = [(let '(d', found) := mark_done open_tasks 7 in
         Ok (d', if found then MarkedDone 7 else Missing));
        Ok (open_tasks, Cancelled)]
  /\ forall t,
       int64 (id t) ->
       map (fun b => handle_callback Demo.no_dates DemoClock.wall_clock open_tasks
                                     (callback_data b) (instant 2026 11 4 10 30 45))
           (List.concat (reminder_keyboard t))
       = [(let '(d', found) := mark_done open_tasks (id t) in
           Ok (d', if found then MarkedDone (id t) else Missing));
          snooze_by Demo.no_dates DemoClock.wall_clock open_tasks (id t) 60
                    (instant 2026 11 4 10 30 45)].
Proof.
  apply (@action_buttons_act_on_their_task Demo.no_dates DemoClock.wall_clock).
  - exact latin_ascii_digits.
  - unfold int64. lia.
Defined.

Lemma pick_buttons_ask_about_their_task_witness :
  map (map (fun b => handle_callback Demo.no_dates DemoClock.wall_clock open_tasks
                                     (callback_data b) (instant 2026 11 4 10 30 45)))
      (selection_keyboard Demo.no_dates (tasks open_tasks) (py "delete"))
  = map (fun t =>
           [Ok (open_tasks,
                Asked (if Str.eqb (py "delete") (py "delete")
                       then _send_delete_confirmation open_tasks (id t)
                       else _send_done_confirmation open_tasks (id t)))])
        (tasks open_tasks)
    ++ [[Ok (open_tasks, Cancelled)]].
Proof.
  apply (@pick_buttons_ask_about_their_task Demo.no_dates DemoClock.wall_clock).
  - exact latin_ascii_digits.
  - intros t I. unfold int64. cbn in I.
    repeat (destruct I as [<-|I]; [cbn [id open_task]; lia|]). destruct I.
Defined.

(** Pressing [Sil] under "#7 silinsin mi?" deletes task 7 and nothing else. *)
Example press_delete_seven :
  handle_callback Demo.no_dates DemoClock.wall_clock open_tasks (py "delete:7")
                  (instant 2026 11 4 10 30 45)
  = Ok (with_tasks open_tasks
          [open_task 5 "Makale oku"%string None; open_task 9 "Tez bitti notu"%string None],
        Deleted 7).
Proof. vm_compute. reflexivity. Qed.

(** "1 saat ertele" under the reminder of task 7 moves it from 12:00 to
    13:00. *)
Example press_snooze_seven :
  exists d,
    handle_callback Demo.no_dates DemoClock.wall_clock
                    (with_tasks open_tasks
                       [open_task 7 "Danışman toplantısı"%string
                                  (Some "2026-11-05T12:00:00"%string)])
                    (py "snooze:7:60") (instant 2026 11 4 10 30 45)
    = Ok (d, NewTime 7 (instant 2026 11 5 13 0 0))
    /\ option_map (@due_at) (get_task d 7) = Some (Some (py "2026-11-05T13:00:00")).
Proof. eexists. split; vm_compute; reflexivity. Qed.

Lemma open_tasks_ids_ok : ids_ok open_tasks.
Proof.
  split.
  - cbn. repeat constructor; cbn; intuition discriminate.
  - cbn. repeat constructor; cbn; lia.
Qed.

Lemma task_ids_stay_unique_witness :
  (forall title due source notes now d' i,
      create_task Demo.no_dates open_tasks title due source notes now = Ok (d', i) ->
      ids_ok d')
  /\ (forall i, ids_ok (fst (mark_done open_tasks i)))
  /\ (forall i, ids_ok (fst (delete_task open_tasks i)))
  /\ (forall i due d' found,
        snooze_task Demo.no_dates open_tasks i due = Ok (d', found) -> ids_ok d')
  /\ (forall i iso, ids_ok (set_reminded open_tasks i iso)).
Proof.
  apply (@task_ids_stay_unique Demo.no_dates open_tasks).
  exact open_tasks_ids_ok.
Defined.

Lemma mark_done_moves_one_task_witness :
  snd (mark_done open_tasks 7) = true
  /\ count_tasks (fst (mark_done open_tasks 7)) (py "pending")
     = count_tasks open_tasks (py "pending") - 1
  /\ count_tasks (fst (mark_done open_tasks 7)) (py "done")
     = count_tasks open_tasks (py "done") + 1
  /\ (exists t', get_task (fst (mark_done open_tasks 7)) 7 = Some t'
                 /\ status t' = py "done"
                 /\ title t' = title (open_task 7 "Danışman toplantısı"%string
                                                (Some "2026-11-05T12:00:00+00:00"%string))
                 /\ due_at t' = due_at (open_task 7 "Danışman toplantısı"%string
                                                  (Some "2026-11-05T12:00:00+00:00"%string)))
  /\ (forall limit, ~ In 7 (map id (list_tasks (fst (mark_done open_tasks 7))
                                               (py "pending") limit)))
  /\ (forall j, j <> 7 -> get_task (fst (mark_done open_tasks 7)) j
                          = get_task open_tasks j).
Proof.
  apply (@mark_done_moves_one_task open_tasks 7
           (open_task 7 "Danışman toplantısı"%string
                      (Some "2026-11-05T12:00:00+00:00"%string))).
  - exact open_tasks_ids_ok.
  - reflexivity.
  - reflexivity.
Defined.

Lemma delete_task_removes_one_task_witness :
  get_task (fst (delete_task open_tasks 5)) 5 = None
  /\ (forall j, j <> 5 -> get_task (fst (delete_task open_tasks 5)) j
                          = get_task open_tasks j)
  /\ (snd (delete_task open_tasks 5) = true <-> get_task open_tasks 5 <> None)
  /\ (forall t s, get_task open_tasks 5 = Some t ->
        count_tasks (fst (delete_task open_tasks 5)) s
        = count_tasks open_tasks s - (if Str.eqb (status t) s then 1 else 0))
  /\ (get_task open_tasks 5 = None -> fst (delete_task open_tasks 5) = open_tasks)
  /\ tasks_seq (fst (delete_task open_tasks 5)) = tasks_seq open_tasks.
Proof.
  apply (@delete_task_removes_one_task open_tasks 5).
  exact open_tasks_ids_ok.
Defined.

(** The result of a run, or [default] when it raised. *)
Definition returned (A : Type) (r : result A) (default : A) : A :=
  match r with
  | Ok a => a
  | Raise _ => default
  end.

(** Task 5 fell due at 09:00 today, task 7 is due tomorrow, task 9 has no
    date. *)
Definition due_today : db :=
  with_tasks open_tasks
    [open_task 5 "Makale oku"%string (Some "2026-11-04T09:00:00"%string);
     open_task 7 "Danışman toplantısı"%string (Some "2026-11-05T12:00:00"%string);
     open_task 9 "Tez bitti notu"%string None].

Definition half_past_ten : datetime := instant 2026 11 4 10 30 45.

Definition reminded_today : db * list reminder * option exn :=
  reminder_job Demo.no_dates DemoClock.wall_clock due_today half_past_ten.

(** One reminder goes out, for task 5, to chat 42. *)
Example reminder_of_task_five :
  map (fun m => (to_chat m, id (about m), time_text m)) (snd (fst reminded_today))
  = [(py "42", 5, py "2026-11-04T09:00:00")]
  /\ snd reminded_today = None.
Proof. split; vm_compute; reflexivity. Qed.

Lemma reminder_job_reminds_once_witness :
  let d' := fst (fst reminded_today) in
  let sent := snd (fst reminded_today) in
  let raised := snd reminded_today in
  (forall m later_iso, In m sent ->
      ~ In (id (about m)) (map id (due_tasks_for_reminder d' later_iso)))
  /\ (forall now_iso, to_utc_iso Demo.no_dates half_past_ten = Ok now_iso ->
        (exists later,
            due_tasks_for_reminder due_today now_iso = map (@about) sent ++ later)
        /\ (forall chat, stored_chat due_today = Some chat -> chat <> [] ->
              (forall m, In m sent -> to_chat m = chat)
              /\ (raised = None ->
                    map (@about) sent = due_tasks_for_reminder due_today now_iso
                    /\ due_tasks_for_reminder d' now_iso = [])))
  /\ (forall e, to_utc_iso Demo.no_dates half_past_ten = Raise e ->
        d' = due_today /\ sent = [] /\ raised = Some e)
  /\ ((stored_chat due_today = None \/ stored_chat due_today = Some []) ->
      d' = due_today /\ sent = [])
  /\ map core (tasks d') = map core (tasks due_today)
  /\ pending_tasks d' = pending_tasks due_today /\ goals d' = goals due_today
  /\ settings d' = settings due_today.
Proof.
  apply (@reminder_job_reminds_once Demo.no_dates DemoClock.wall_clock due_today
           (fst (fst reminded_today)) half_past_ten (snd (fst reminded_today))
           (snd reminded_today)).
  vm_compute. reflexivity.
Defined.

Lemma stored_keywords_are_loaded_back_witness :
  (get_setting (settings open_tasks) (py "paper_keywords") = None ->
   _load_keywords Demo.no_dates settings_of_env (ensure_defaults open_tasks settings_of_env)
   = paper_keywords settings_of_env)
  /\ (forall c s, get_setting (settings open_tasks) (py "paper_keywords") = Some (c :: s) ->
      _load_keywords Demo.no_dates settings_of_env
                     (ensure_defaults open_tasks settings_of_env)
      = _split_keywords (tables Demo.no_dates) (c :: s)).
Proof.
  apply (@stored_keywords_are_loaded_back Demo.no_dates settings_of_env open_tasks).
  vm_compute. repeat constructor; try discriminate; intuition discriminate.
Defined.

(** The three keywords of "SAR, remote sensing ,,despeckling". *)
Example keywords_of_env :
  paper_keywords settings_of_env = map py ["SAR"; "remote sensing"; "despeckling"]%string
  /\ get_setting (settings (ensure_defaults open_tasks settings_of_env))
                 (py "paper_keywords")
     = Some (py "SAR,remote sensing,despeckling")
  /\ get_setting (settings (ensure_defaults open_tasks settings_of_env))
                 (py "telegram_chat_id")
     = Some (py "42").
Proof. repeat split; vm_compute; reflexivity. Qed.

Lemma empty_library_ok : shelf_ok (@empty_library Z).
Proof. repeat split; try constructor. cbn. lia. Qed.

Lemma scan_papers_counts_witness :
  exists d' l' new done,
    scan_papers Demo.no_dates feeds settings_of_env open_tasks (@empty_library Z)
                half_past_ten
    = Ok (d', l', (new, done))
    /\ 0 <= done <= new
    /\ done <= Z.max 0 (max_papers_per_day settings_of_env)
    /\ new <= Z.of_nat (List.length (arxiv_feed Demo.no_dates settings_of_env feeds
                                                open_tasks)
                        + List.length (semantic_feed Demo.no_dates settings_of_env feeds
                                                     open_tasks))
    /\ Z.of_nat (List.length (papers l'))
       = Z.of_nat (List.length (papers (@empty_library Z))) + new
    /\ shelf_ok l'
    /\ reads l' = reads (@empty_library Z)
    /\ get_setting (settings d') (py "last_scan")
       = Some (Demo.iso_wall_clock half_past_ten)
    /\ tasks d' = tasks open_tasks.
Proof.
  destruct (@scan_papers_counts Z Demo.no_dates settings_of_env feeds open_tasks
              (@empty_library Z) half_past_ten empty_library_ok) as [_ Returns].
  apply Returns. reflexivity.
Defined.

(** Of the five entries three are new, and the budget of one analysis is
    spent on the first. *)
Example scan_of_the_feeds :
  snd (returned (scan_papers Demo.no_dates feeds settings_of_env open_tasks
                             (@empty_library Z) half_past_ten)
                (open_tasks, @empty_library Z, (0, 0)))
  = (3, 1).
Proof. vm_compute. reflexivity. Qed.

Lemma second_scan_stores_nothing_witness :
  exists d1 l1 counts,
    scan_papers Demo.no_dates feeds settings_of_env open_tasks (@empty_library Z)
                half_past_ten
    = Ok (d1, l1, counts)
    /\ scan_papers Demo.no_dates feeds settings_of_env d1 l1 (instant 2026 11 5 7 30 0)
       = Ok (set_setting d1 (py "last_scan")
                         (Demo.iso_wall_clock (instant 2026 11 5 7 30 0)),
             l1, (0, 0)).
Proof.
  apply (@second_scan_stores_nothing Z Demo.no_dates settings_of_env feeds feeds
           open_tasks (@empty_library Z) half_past_ten (instant 2026 11 5 7 30 0)
           (Demo.iso_wall_clock half_past_ten)
           (Demo.iso_wall_clock (instant 2026 11 5 7 30 0)));
    reflexivity.
Defined.

(** The local day of a timestamp, for the clock of the concrete runs. *)
Definition wall_clock_day (s : str) : Z :=
  match LocalTime.from_iso_to_local Demo.no_dates DemoClock.wall_clock s with
  | Ok x => toordinal x
  | Raise _ => 0
  end.

(** A timestamp is understood: the instant is computed first. *)
Ltac understand :=
  match goal with
  | |- exists x, ?f = Ok x /\ _ =>
    let v := eval vm_compute in f in
    match v with
    | Ok ?y => exists y; split; vm_compute; reflexivity
    end
  end.

(** Read on 2 and 3 November: on the 3rd the streak is 2. *)
Lemma read_streak_is_the_run_ending_today_witness :
  get_read_streak Demo.no_dates DemoClock.wall_clock two_papers (instant 2026 11 3 22 0 0)
  = Ok 2.
Proof.
  apply (@read_streak_is_the_run_ending_today Z Demo.no_dates DemoClock.wall_clock
           wall_clock_day two_papers (instant 2026 11 3 22 0 0) 2).
  - vm_compute. reflexivity.
  - intros r [<-|[<-|[]]]; understand.
  - split; [lia|vm_compute; reflexivity].
  - intros j Hj. assert (E : j = 0 \/ j = 1) by lia.
    destruct E as [->| ->]; vm_compute; auto.
  - vm_compute. intros [H|[H|[]]]; discriminate H.
Defined.

(** On the 4th, before anything is read that day, it is 0. *)
Example no_read_today :
  get_read_streak Demo.no_dates DemoClock.wall_clock two_papers (instant 2026 11 4 8 0 0)
  = Ok 0.
Proof. vm_compute. reflexivity. Qed.

(** The library after paper 2 is read on 4 November at 10:30:45. *)
Definition read_on_the_fourth : library Z :=
  match mark_read two_papers 2 (Demo.iso_wall_clock half_past_ten) with
  | Some l => l
  | None => two_papers
  end.

Lemma reading_today_starts_a_streak_witness :
  exists k,
    get_read_streak Demo.no_dates DemoClock.wall_clock read_on_the_fourth half_past_ten
    = Ok k /\ 1 <= k.
Proof.
  apply (@reading_today_starts_a_streak Z Demo.no_dates DemoClock.wall_clock
           wall_clock_day two_papers read_on_the_fourth 2
           (Demo.iso_wall_clock half_past_ten) half_past_ten).
  - vm_compute. reflexivity.
  - intros r [<-|[<-|[<-|[]]]]; understand.
  - intros y [<-|[<-|[<-|[]]]]; vm_compute; split; discriminate.
  - vm_compute. reflexivity.
Defined.

(** With the reads of the 2nd and the 3rd it is a streak of three days. *)
Example streak_of_three :
  get_read_streak Demo.no_dates DemoClock.wall_clock read_on_the_fourth half_past_ten
  = Ok 3.
Proof. vm_compute. reflexivity. Qed.

(** [/read 9] for a paper that does not exist. *)
Example reading_a_missing_paper :
  mark_read two_papers 9 (py "2026-11-04T10:30:45") = None.
Proof. reflexivity. Qed.

Lemma first_chat_is_kept_witness :
  let d1 := fst (_get_chat_id empty_db (message "merhaba")) in
  let chat := snd (_get_chat_id empty_db (message "merhaba")) in
  chat <> []
  /\ (forall u', _get_chat_id d1 u' = (d1, chat))
  /\ tasks d1 = tasks empty_db /\ pending_tasks d1 = pending_tasks empty_db.
Proof.
  apply (@first_chat_is_kept empty_db (message "merhaba")).
  vm_compute. discriminate.
Defined.

Definition dated_message : result (db * reply) :=
  handle_message tomorrow_world open_tasks (message "yarın 15:00 sunum hazırla")
                 half_past_ten (instant 2026 11 4 10 30 46).

Lemma handle_message_never_removes_a_task_witness :
  adds_at_most_one tomorrow_world open_tasks
                   (fst (returned dated_message (open_tasks, Fallback)))
                   (snd (returned dated_message (open_tasks, Fallback))).
Proof.
  apply (@handle_message_never_removes_a_task tomorrow_world open_tasks
           (message "yarın 15:00 sunum hazırla") half_past_ten
           (instant 2026 11 4 10 30 46)).
  vm_compute. reflexivity.
Defined.

Definition snoozed_seven : result (db * answer) :=
  snooze_by Demo.no_dates DemoClock.wall_clock due_today 7 90 half_past_ten.

Lemma snoozed_task_is_reminded_again_witness :
  exists base td new_due new_iso t',
    (match due_at (open_task 7 "Danışman toplantısı"%string
                             (Some "2026-11-05T12:00:00"%string)) with
     | Some (c :: s) =>
       LocalTime.from_iso_to_local Demo.no_dates DemoClock.wall_clock (c :: s)
     | _ => Ok half_past_ten
     end = Ok base)
    /\ timedelta_new 0 0 0 90 0 = Ok td
    /\ add base td = Ok new_due
    /\ to_utc_iso Demo.no_dates new_due = Ok new_iso
    /\ snd (returned snoozed_seven (due_today, Missing)) = NewTime 7 new_due
    /\ get_task (fst (returned snoozed_seven (due_today, Missing))) 7 = Some t'
    /\ due_at t' = Some new_iso
    /\ reminded_at t' = None
    /\ status t' = status (open_task 7 "Danışman toplantısı"%string
                                     (Some "2026-11-05T12:00:00"%string))
    /\ title t' = title (open_task 7 "Danışman toplantısı"%string
                                   (Some "2026-11-05T12:00:00"%string))
    /\ id t' = 7
    /\ (forall j, j <> 7 ->
          get_task (fst (returned snoozed_seven (due_today, Missing))) j
          = get_task due_today j)
    /\ (status (open_task 7 "Danışman toplantısı"%string
                          (Some "2026-11-05T12:00:00"%string)) = py "pending" ->
        forall iso, Str.ltb iso new_iso = false ->
                    In t' (due_tasks_for_reminder
                             (fst (returned snoozed_seven (due_today, Missing))) iso)).
Proof.
  apply (@snoozed_task_is_reminded_again Demo.no_dates DemoClock.wall_clock due_today
           (fst (returned snoozed_seven (due_today, Missing))) 7 90 half_past_ten
           (open_task 7 "Danışman toplantısı"%string (Some "2026-11-05T12:00:00"%string))
           (snd (returned snoozed_seven (due_today, Missing)))).
  - reflexivity.
  - vm_compute. reflexivity.
Defined.


(** "/snooze 7 2 saat": from tomorrow 12:00 to 14:00. *)
Example snooze_two_hours :
  option_map (@snd db answer)
    (match snooze_command Demo.no_dates DemoClock.wall_clock due_today
                          [py "7"; py "2"; py "saat"] half_past_ten with
     | Ok x => Some x
     | Raise _ => None
     end)
  = Some (NewTime 7 (instant 2026 11 5 14 0 0)).
Proof. vm_compute. reflexivity. Qed.

(** "/snooze 7 yarın": the duration is not understood. *)
Example snooze_without_a_duration :
  snooze_command Demo.no_dates DemoClock.wall_clock due_today
                 [py "7"; py "yarın"] half_past_ten
  = Ok (due_today, DurationNotUnderstood).
Proof. vm_compute. reflexivity. Qed.

(** "/done yedi" *)
Example done_with_a_word :
  done_command Demo.no_dates open_tasks [py "yedi"] = Ok (open_tasks, InvalidId).
Proof. vm_compute. reflexivity. Qed.
